(** * Wordle streak tracker: message parsing, ingestion, deletion, statistics

    A shallow embedding of the Python sources

      - [src/core/wordle_sqlite_tracker.py]  ([parse_message], [add_user],
        [add_streak_data], [get_brief_overview], [clear_database], the
        schema of [init_database]),
      - [src/core/database_manager.py]       ([get_day_details], [delete_day],
        [get_database_overview], the overview figures of
        [visualize_database]),
      - [src/core/diagnose_database.py]      (the values of
        [diagnose_database]),
      - [src/core/show_day.py]               (the statistics of [show_day_data]),
      - [src/web/wordle_stats_app.py]        ([get_all_time_stats],
        [get_last_week_stats], [_calculate_streak_consistency],
        [_find_longest_consecutive_streak]),
      - [src/utils/common.py]                ([score_to_numeric]),

    together with the pieces of the Python runtime they call: [str] methods,
    the backtracking matcher of [re], the transactional behaviour of
    [sqlite3], and [statistics.mean]. *)

From Stdlib Require Import List Bool Arith NArith ZArith QArith Lia Lqa Ascii.
From Stdlib Require Import Permutation Sorted.
From Stdlib Require String.
Import String.StringSyntax.
Import ListNotations.
Close Scope Q_scope.

Set Implicit Arguments.

(* ================================================================== *)
(** * Part I: definitions *)
(* ================================================================== *)

(** ** Python strings *)

Module PyStr.

(** A Python [str] is a sequence of Unicode code points. The texts considered
    hold scalar values only: no code point of the surrogate range, which
    SQLite could not store, and none above U+10FFFF. *)
Definition char := N.
Definition str := list char.

Definition char_eqb (a b : char) : bool := N.eqb a b.

Fixpoint str_eqb (s t : str) : bool :=
  match s, t with
  | [], [] => true
  | a :: s', b :: t' => char_eqb a b && str_eqb s' t'
  | _, _ => false
  end.

(** ASCII literals of the sources, written as Rocq strings. *)
Fixpoint lit (s : String.string) : str :=
  match s with
  | String.EmptyString => []
  | String.String a s' => N_of_ascii a :: lit s'
  end.

Definition in_range (lo hi c : char) : bool := (lo <=? c)%N && (c <=? hi)%N.

Definition one_of (cs : str) (c : char) : bool := existsb (char_eqb c) cs.

(** [str.isspace] for one character, which is also the class [\s] of [re] on
    [str] patterns: the code points Unicode calls white space. *)
Definition isspace (c : char) : bool :=
  (in_range 9 13 c || in_range 28 32 c || one_of [133; 160; 5760] c
   || in_range 8192 8202 c || one_of [8232; 8233; 8239; 8287; 12288] c)%N.

(** The zero digit of every run of ten code points of category [Nd]
    (Unicode 14, the table of CPython 3.11). *)
Definition nd_zeros : list char :=
  [ 0x30; 0x660; 0x6f0; 0x7c0; 0x966; 0x9e6; 0xa66; 0xae6; 0xb66; 0xbe6;
    0xc66; 0xce6; 0xd66; 0xde6; 0xe50; 0xed0; 0xf20; 0x1040; 0x1090; 0x17e0;
    0x1810; 0x1946; 0x19d0; 0x1a80; 0x1a90; 0x1b50; 0x1bb0; 0x1c40; 0x1c50;
    0xa620; 0xa8d0; 0xa900; 0xa9d0; 0xa9f0; 0xaa50; 0xabf0; 0xff10; 0x104a0;
    0x10d30; 0x11066; 0x110f0; 0x11136; 0x111d0; 0x112f0; 0x11450; 0x114d0;
    0x11650; 0x116c0; 0x11730; 0x118e0; 0x11950; 0x11c50; 0x11d50; 0x11da0;
    0x16a60; 0x16ac0; 0x16b50; 0x1d7ce; 0x1d7d8; 0x1d7e2; 0x1d7ec; 0x1d7f6;
    0x1e140; 0x1e2f0; 0x1e950; 0x1fbf0 ]%N.

(** The value of a decimal digit, [None] for any other character. *)
Definition digit_value (c : char) : option N :=
  match find (fun z => in_range z (z + 9)%N c) nd_zeros with
  | Some z => Some (c - z)%N
  | None => None
  end.

(** The class [\d] of [re] on [str] patterns. *)
Definition isdecimal (c : char) : bool :=
  match digit_value c with Some _ => true | None => false end.

(** [int(s)] for a string of decimal digits: [None] stands for [ValueError].
    Signs, surrounding blanks and underscores, which [int] also accepts, are
    answered [None]: the sources call [int] on a [\d+] capture and on score
    tokens. A text of more than 4300 digits is refused: the default of
    [sys.int_max_str_digits], counted over all the digits, leading zeros
    too. *)
Fixpoint int_digits (acc : Z) (s : str) : option Z :=
  match s with
  | [] => Some acc
  | c :: s' =>
      match digit_value c with
      | Some d => int_digits (10 * acc + Z.of_N d) s'
      | None => None
      end
  end.

Definition int_max_str_digits : Z := 4300.

Definition int (s : str) : option Z :=
  match s with
  | [] => None
  | _ =>
      if (int_max_str_digits <? Z.of_nat (length s))%Z then None
      else int_digits 0 s
  end.

(** [s.strip()]: leading and trailing white space removed. *)
Fixpoint lstrip (s : str) : str :=
  match s with
  | c :: s' => if isspace c then lstrip s' else s
  | [] => []
  end.

Definition rstrip (s : str) : str := rev (lstrip (rev s)).

Definition strip (s : str) : str := rstrip (lstrip s).

(** [s.split(sep)] for a one-character separator: the fields between the
    separators, always at least one. *)
Fixpoint split (sep : char) (s : str) : list str :=
  match s with
  | [] => [[]]
  | c :: s' =>
      if char_eqb c sep then [] :: split sep s'
      else match split sep s' with
           | f :: fs => (c :: f) :: fs
           | [] => [[c]]
           end
  end.

(** [s.startswith(p)]. *)
Fixpoint startswith (p s : str) : bool :=
  match p, s with
  | [], _ => true
  | a :: p', b :: s' => char_eqb a b && startswith p' s'
  | _ :: _, [] => false
  end.

(** [sep.join(fields)]. *)
Fixpoint join (sep : char) (fields : list str) : str :=
  match fields with
  | [] => []
  | [f] => f
  | f :: fs => f ++ sep :: join sep fs
  end.

End PyStr.

(** ** The backtracking matcher of [re] *)

Module Re.
Import PyStr.

(** The constructs the patterns of the sources use. *)
Inductive regex : Type :=
| Eps                                  (* the empty pattern *)
| Cls (p : char -> bool)               (* one character of a class *)
| Cat (r1 r2 : regex)                  (* r1r2 *)
| Alt (r1 r2 : regex)                  (* r1|r2, r1 tried first *)
| Star (r : regex)                     (* r*, greedy *)
| LazyStar (r : regex)                 (* r*?, shortest first *)
| Group (n : nat) (r : regex)          (* capturing group number n *)
| Ahead (r : regex)                    (* (?=r) *)
| Dollar.                              (* $ without MULTILINE *)

(** [r+] and [r?]. *)
Definition Plus (r : regex) : regex := Cat r (Star r).
Definition Opt (r : regex) : regex := Alt r Eps.

(** A literal text. *)
Fixpoint Lit (s : str) : regex :=
  match s with
  | [] => Eps
  | c :: s' => Cat (Cls (char_eqb c)) (Lit s')
  end.

(** The numbers of the groups of a pattern. *)
Fixpoint groups_of (r : regex) : list nat :=
  match r with
  | Eps | Cls _ | Dollar => []
  | Cat r1 r2 | Alt r1 r2 => groups_of r1 ++ groups_of r2
  | Star r1 | LazyStar r1 | Ahead r1 => groups_of r1
  | Group n r1 => n :: groups_of r1
  end.

(** The groups that took part in a match, most recent first. *)
Definition caps := list (nat * str).

Fixpoint group (n : nat) (c : caps) : option str :=
  match c with
  | [] => None
  | (m, s) :: c' => if Nat.eqb m n then Some s else group n c'
  end.

(** The groups a match of [r] can add. *)
Definition added_by (r : regex) (add : caps) : Prop :=
  Forall (fun kv => In (fst kv) (groups_of r)) add.

(** What is left of the subject after the match, and the groups. *)
Definition state := (str * caps)%type.
Definition cont := str -> caps -> option state.

Definition consumed (s rest : str) : str :=
  firstn (length s - length rest) s.

(** A continuation that is entered only if the iteration before it consumed
    something of [s]. *)
Definition progress (s : str) (k : cont) : cont :=
  fun s' c' => if length s' <? length s then k s' c' else None.

(** [r*] for the matcher [e] of [r]: one more iteration first, the
    continuation [k] when that fails. [n] bounds the number of iterations. *)
Fixpoint greedy (e : str -> caps -> cont -> option state) (k : cont)
    (n : nat) (s : str) (c : caps) {struct n} : option state :=
  match n with
  | O => k s c
  | S n' =>
      match e s c (progress s (greedy e k n')) with
      | Some m => Some m
      | None => k s c
      end
  end.

(** [r*?]: the continuation first, one more iteration when it fails. *)
Fixpoint lazy (e : str -> caps -> cont -> option state) (k : cont)
    (n : nat) (s : str) (c : caps) {struct n} : option state :=
  match k s c with
  | Some m => Some m
  | None =>
      match n with
      | O => None
      | S n' => e s c (progress s (lazy e k n'))
      end
  end.

(** [exec r s c k]: match [r] at the head of [s], then continue with [k];
    alternatives are tried in the order of the engine and the first success
    is the answer. An iteration of a star that consumes nothing is not
    repeated, so a star makes at most [length s] iterations. *)
Fixpoint exec (r : regex) (s : str) (c : caps) (k : cont) {struct r}
  : option state :=
  match r with
  | Eps => k s c
  | Cls p =>
      match s with
      | x :: s' => if p x then k s' c else None
      | [] => None
      end
  | Cat r1 r2 => exec r1 s c (fun s' c' => exec r2 s' c' k)
  | Alt r1 r2 =>
      match exec r1 s c k with
      | Some m => Some m
      | None => exec r2 s c k
      end
  | Star r1 => greedy (exec r1) k (length s) s c
  | LazyStar r1 => lazy (exec r1) k (length s) s c
  | Group n r1 =>
      exec r1 s c (fun s' c' => k s' ((n, consumed s s') :: c'))
  | Ahead r1 =>
      match exec r1 s c (fun s' c' => Some (s', c')) with
      | Some (_, c') => k s c'
      | None => None
      end
  | Dollar =>
      match s with
      | [] => k s c
      | [x] => if char_eqb x 10%N then k s c else None
      | _ => None
      end
  end.

Definition accept : cont := fun s c => Some (s, c).

(** [re.match(r, s)]: a match at the start of [s] only. *)
Definition rematch (r : regex) (s : str) : option state :=
  exec r s [] accept.

(** A match object: the text before the match, what follows it, the groups. *)
Record found := { before : str; after : str; groups : caps }.

(** [re.search(r, s)]: the match at the leftmost position that has one. *)
Fixpoint search_from (r : regex) (skipped : str) (s : str) : option found :=
  match rematch r s with
  | Some (rest, c) =>
      Some {| before := rev skipped; after := rest; groups := c |}
  | None =>
      match s with
      | [] => None
      | x :: s' => search_from r (x :: skipped) s'
      end
  end.

Definition search (r : regex) (s : str) : option found := search_from r [] s.

(** The matches of [r] in [s] from left to right, without overlap. After a
    match that consumed nothing the scan moves on by one character. *)
Fixpoint scan (fuel : nat) (r : regex) (s : str) : list (str * found) :=
  match fuel with
  | O => []
  | S fuel' =>
      match search r s with
      | None => []
      | Some m =>
          (s, m) ::
          (if length (after m) + length (before m) <? length s
           then scan fuel' r (after m)
           else match after m with
                | [] => []
                | _ :: s' => scan fuel' r s'
                end)
      end
  end.

(** [re.findall(r, s)], as the list of the groups of every match. *)
Definition findall (r : regex) (s : str) : list caps :=
  map (fun m => groups (snd m)) (scan (S (length s)) r s).

(** [re.sub(r, '', s)]: every match removed. *)
Fixpoint delete_matches (fuel : nat) (r : regex) (s : str) : str :=
  match fuel with
  | O => s
  | S fuel' =>
      match search r s with
      | None => s
      | Some m =>
          before m ++
          (if length (after m) + length (before m) <? length s
           then delete_matches fuel' r (after m)
           else match after m with
                | [] => []
                | x :: s' => x :: delete_matches fuel' r s'
                end)
      end
  end.

Definition sub_empty (r : regex) (s : str) : str :=
  delete_matches (S (length s)) r s.

End Re.

(** ** Exceptions and results of the modelled functions *)

Inductive exn : Type :=
| ValueError         (* raised by [parse_message], and by [int] *)
| TypeError          (* subscripting [None] *)
| OverflowError      (* an [int] too large for an SQLite INTEGER *)
| OperationalError.  (* a statement refused by the storage layer *)

Inductive outcome (A : Type) : Type :=
| Ok (a : A)
| Raise (e : exn).

Arguments Ok {A} a.
Arguments Raise {A} e.

(** ** [WordleSQLiteTracker.parse_message] *)

Module Parser.
Import PyStr Re.
Local Open Scope string_scope.

Record parsed_result : Type :=
  { username : str; score : str; is_winner : bool }.

Record parsed : Type :=
  { day : Z; results : list parsed_result }.

(** [r'(\d+) day streak'] *)
Definition streak_pattern : regex :=
  Cat (Group 1 (Plus (Cls isdecimal))) (Lit (lit " day streak")).

(** The text the source file holds in the place of the crown glyph, in
    [score_pattern]: the file stores the four code points U+F8FF U+00FC
    U+00EB U+00EB (the UTF-8 bytes of U+1F451 read in another encoding and
    saved again), not U+1F451 itself. *)
Definition crown_literal : str := [0xF8FF; 0xFC; 0xEB; 0xEB]%N.

(** The crown glyph U+1F451, as [database_manager.py] and [show_day.py]
    print it. *)
Definition crown_glyph : str := [0x1F451]%N.

(** [[1-6X]] *)
Definition score_token (c : char) : bool :=
  in_range 49%N 54%N c || char_eqb c 88%N.

(** The pattern of a score line, piece by piece in the order of the source:
    group 1, optional, is the crown text followed by [\s*]; group 2 is
    [[1-6X]]; then the text [/6:] and [\s*]; group 3 is the lazy
    [[^<crown>]*?], a class that excludes each code point of the crown text;
    the lookahead asks for [[1-6X]/6:] or [$]. *)
Definition score_pattern : regex :=
  Cat (Opt (Group 1 (Cat (Lit crown_literal) (Star (Cls isspace)))))
 (Cat (Group 2 (Cls score_token))
 (Cat (Lit (lit "/6:"))
 (Cat (Star (Cls isspace))
 (Cat (Group 3 (LazyStar (Cls (fun c => negb (one_of crown_literal c)))))
      (Ahead (Alt (Cat (Cls score_token) (Lit (lit "/6:"))) Dollar)))))).

(** [r'([^@]*?)(?=@|\d/6:|[A-Z]/6:|$)'] *)
Definition username_pattern : regex :=
  Cat (Group 1 (LazyStar (Cls (fun c => negb (char_eqb c 64%N)))))
      (Ahead (Alt (Cls (char_eqb 64%N))
             (Alt (Cat (Cls isdecimal) (Lit (lit "/6:")))
             (Alt (Cat (Cls (in_range 65%N 90%N)) (Lit (lit "/6:")))
                  Dollar)))).

(** [r'[,;.!?]+$'] *)
Definition trailing_punctuation : regex :=
  Cat (Plus (Cls (one_of (lit ",;.!?")))) Dollar.

(** [m.group(n)] in a tuple of [findall]: a group that took no part in the
    match reads as the empty string. *)
Definition group_text (n : nat) (c : caps) : str :=
  match group n c with
  | Some s => s
  | None => []
  end.

(** Truth value of a string. *)
Definition nonempty (s : str) : bool :=
  match s with
  | [] => false
  | _ :: _ => true
  end.

(** The body of the loop over [score_lines]: the results of one tuple
    [(crown, score, usernames)]. *)
Definition block_results (crown score usernames : str) : list parsed_result :=
  flat_map
    (fun part =>
       match rematch username_pattern part with
       | Some (_, c) =>
           let raw_username := strip (group_text 1 c) in
           if nonempty raw_username then
             let clean_user :=
               strip (sub_empty trailing_punctuation raw_username) in
             if nonempty clean_user && (0 <? length clean_user) then
               [ {| username := clean_user;
                    score := score;
                    is_winner :=
                      if nonempty crown then nonempty (strip crown)
                      else false |} ]
             else []
           else []
       | None => []
       end)
    (tl (split 64%N usernames)).

Definition parse_message (message : str) : outcome parsed :=
  match search streak_pattern message with
  | None => Raise ValueError
  | Some streak_match =>
      match int (group_text 1 (groups streak_match)) with
      | None => Raise ValueError
      | Some streak_day =>
          Ok {| day := streak_day;
                results :=
                  flat_map
                    (fun c =>
                       block_results (group_text 1 c) (group_text 2 c)
                         (group_text 3 c))
                    (findall score_pattern message) |}
      end
  end.

End Parser.

(** ** The SQLite store

    The three tables of [init_database], each as the list of its rows in
    rowid order. Foreign keys are declared by the schema but not enforced:
    no connection of the sources turns the [foreign_keys] pragma on. *)

Module Sqlite.
Import PyStr.

(** What [CURRENT_TIMESTAMP] reads; the clock does not advance during a
    call. *)
Definition timestamp := Z.

Record user_row : Type :=
  { user_id : Z; user_name : str; first_seen : timestamp }.

Record streak_row : Type :=
  { streak_id : Z; streak_day : Z; imported_at : timestamp }.

Record result_row : Type :=
  { result_id : Z; r_streak_day : Z; r_user_id : Z;
    r_score : str; r_is_winner : bool }.

(** The rows, and for each table the largest rowid ever given out
    ([sqlite_sequence], kept for AUTOINCREMENT). *)
Record database : Type :=
  { users : list user_row;
    streaks : list streak_row;
    results : list result_row;
    seq_users : Z;
    seq_streaks : Z;
    seq_results : Z }.

(** The store [init_database] creates. *)
Definition empty_database : database :=
  {| users := []; streaks := []; results := [];
     seq_users := 0; seq_streaks := 0; seq_results := 0 |}.

(** The rowid AUTOINCREMENT gives a new row: above every rowid in the table
    and above every rowid given out before. Rowids are not bounded here. *)
Definition next_id (seq : Z) (ids : list Z) : Z :=
  1 + fold_right Z.max seq ids.

(** A Python [int] is bound to a statement as a signed 64-bit INTEGER. *)
Definition fits_int64 (z : Z) : bool :=
  (- 2 ^ 63 <=? z)%Z && (z <? 2 ^ 63)%Z.

Definition has_day (d : Z) (s : streak_row) : bool := (streak_day s =? d)%Z.
Definition has_name (u : str) (r : user_row) : bool := str_eqb (user_name r) u.
Definition on_day (d : Z) (r : result_row) : bool := (r_streak_day r =? d)%Z.
Definition for_pair (d uid : Z) (r : result_row) : bool :=
  (r_streak_day r =? d)%Z && (r_user_id r =? uid)%Z.

(** [INSERT OR IGNORE INTO streaks (day) VALUES (?)]. The rowid is drawn
    before the UNIQUE constraint is looked at: an insertion that is ignored
    leaves the rows as they are and still uses up a rowid. *)
Definition insert_or_ignore_streak (now : timestamp) (d : Z) (db : database)
  : database :=
  let id := next_id (seq_streaks db) (map streak_id (streaks db)) in
  {| users := users db;
     streaks :=
       if existsb (has_day d) (streaks db) then streaks db
       else streaks db ++
            [ {| streak_id := id; streak_day := d; imported_at := now |} ];
     results := results db;
     seq_users := seq_users db;
     seq_streaks := id;
     seq_results := seq_results db |}.

(** [INSERT OR IGNORE INTO users (username) VALUES (?)], likewise. *)
Definition insert_or_ignore_user (now : timestamp) (u : str) (db : database)
  : database :=
  let id := next_id (seq_users db) (map user_id (users db)) in
  {| users :=
       if existsb (has_name u) (users db) then users db
       else users db ++
            [ {| user_id := id; user_name := u; first_seen := now |} ];
     streaks := streaks db;
     results := results db;
     seq_users := id;
     seq_streaks := seq_streaks db;
     seq_results := seq_results db |}.

(** [SELECT id FROM users WHERE username = ?], then [fetchone()]. *)
Definition select_user_id (u : str) (db : database) : option Z :=
  match find (has_name u) (users db) with
  | Some r => Some (user_id r)
  | None => None
  end.

(** [INSERT OR REPLACE INTO results (streak_day, user_id, score, is_winner)
    VALUES (?, ?, ?, ?)]: the rows in conflict on UNIQUE(streak_day, user_id)
    are deleted, then the new row is inserted under a new rowid. *)
Definition insert_or_replace_result (d uid : Z) (sc : str) (w : bool)
    (db : database) : database :=
  let id := next_id (seq_results db) (map result_id (results db)) in
  {| users := users db;
     streaks := streaks db;
     results := filter (fun r => negb (for_pair d uid r)) (results db) ++
                [ {| result_id := id; r_streak_day := d; r_user_id := uid;
                     r_score := sc; r_is_winner := w |} ];
     seq_users := seq_users db;
     seq_streaks := seq_streaks db;
     seq_results := id |}.

(** [SELECT COUNT( * ) FROM results WHERE streak_day = ?] *)
Definition count_results_of_day (d : Z) (db : database) : Z :=
  Z.of_nat (length (filter (on_day d) (results db))).

(** [DELETE FROM results WHERE streak_day = ?] *)
Definition delete_results_of_day (d : Z) (db : database) : database :=
  {| users := users db;
     streaks := streaks db;
     results := filter (fun r => negb (on_day d r)) (results db);
     seq_users := seq_users db;
     seq_streaks := seq_streaks db;
     seq_results := seq_results db |}.

(** [DELETE FROM streaks WHERE day = ?] *)
Definition delete_streak (d : Z) (db : database) : database :=
  {| users := users db;
     streaks := filter (fun s => negb (has_day d s)) (streaks db);
     results := results db;
     seq_users := seq_users db;
     seq_streaks := seq_streaks db;
     seq_results := seq_results db |}.

(** The constraints of the schema: primary keys, UNIQUE columns, and
    INTEGER columns that hold what a statement can bind. *)
Record well_formed (db : database) : Prop :=
  { wf_user_ids : NoDup (map user_id (users db));
    wf_user_names : NoDup (map user_name (users db));
    wf_streak_ids : NoDup (map streak_id (streaks db));
    wf_streak_days : NoDup (map streak_day (streaks db));
    wf_result_ids : NoDup (map result_id (results db));
    wf_result_pairs :
      NoDup (map (fun r => (r_streak_day r, r_user_id r)) (results db));
    wf_streak_ints :
      Forall (fun s => fits_int64 (streak_day s) = true) (streaks db);
    wf_result_ints :
      Forall (fun r => fits_int64 (r_streak_day r) = true) (results db) }.

(** *** Connections and transactions

    [disk] is the committed content of the database file; [pending] is the
    content as the open transaction sees it, when one is open; [executed]
    counts the calls into the storage layer made so far. A storage
    environment [faults] says which of these calls fail. *)

Record session : Type :=
  { disk : database; pending : option database; executed : nat }.

Definition faults := nat -> bool.

Definition no_faults : faults := fun _ => false.

Definition M (A : Type) : Type := session -> outcome A * session.

Definition ret {A : Type} (a : A) : M A := fun s => (Ok a, s).

Definition raise {A : Type} (e : exn) : M A := fun s => (Raise e, s).

Definition bind {A B : Type} (m : M A) (f : A -> M B) : M B :=
  fun s =>
    match m s with
    | (Ok a, s') => f a s'
    | (Raise e, s') => (Raise e, s')
    end.

(** [try: m except Exception: h]. *)
Definition try_except {A : Type} (m : M A) (h : exn -> M A) : M A :=
  fun s =>
    match m s with
    | (Ok a, s') => (Ok a, s')
    | (Raise e, s') => h e s'
    end.

(** [try: m finally: f]. *)
Definition try_finally {A : Type} (m : M A) (f : M unit) : M A :=
  fun s =>
    match m s with
    | (o, s') => (o, snd (f s'))
    end.

Definition view (s : session) : database :=
  match pending s with
  | Some db => db
  | None => disk s
  end.

Definition step (s : session) (p : option database) : session :=
  {| disk := disk s; pending := p; executed := S (executed s) |}.

(** [sqlite3.connect(db_file)] on the file [disk] holds. *)
Definition start (db : database) : session :=
  {| disk := db; pending := None; executed := 0 |}.

(** [cursor.execute] of an INSERT or DELETE: the module opens a transaction
    first when none is open. A statement that fails changes nothing. *)
Definition execute_write (F : faults) (f : database -> database) : M unit :=
  fun s =>
    if F (executed s) then (Raise OperationalError, step s (pending s))
    else (Ok tt, step s (Some (f (view s)))).

(** [cursor.execute] of a SELECT, with the fetch that follows it. *)
Definition execute_read (F : faults) {A : Type} (q : database -> A) : M A :=
  fun s =>
    if F (executed s) then (Raise OperationalError, step s (pending s))
    else (Ok (q (view s)), step s (pending s)).

(** [cursor.execute('BEGIN TRANSACTION')] *)
Definition execute_begin (F : faults) : M unit :=
  fun s =>
    if F (executed s) then (Raise OperationalError, step s (pending s))
    else match pending s with
         | Some _ => (Raise OperationalError, step s (pending s))
         | None => (Ok tt, step s (Some (disk s)))
         end.

(** [conn.commit()] and [cursor.execute('COMMIT')]: the pending content
    becomes the content of the file, in one step, or the call fails and the
    file is as before. *)
Definition commit (F : faults) : M unit :=
  fun s =>
    if F (executed s) then (Raise OperationalError, step s (pending s))
    else (Ok tt, {| disk := view s; pending := None;
                    executed := S (executed s) |}).

(** [conn.rollback()] *)
Definition rollback : M unit :=
  fun s => (Ok tt, {| disk := disk s; pending := None;
                      executed := executed s |}).

(** [cursor.execute('ROLLBACK')], an error when no transaction is open. *)
Definition execute_rollback (F : faults) : M unit :=
  fun s =>
    if F (executed s) then (Raise OperationalError, step s (pending s))
    else match pending s with
         | Some _ => (Ok tt, step s None)
         | None => (Raise OperationalError, step s None)
         end.

(** [conn.close()], and what becomes of a connection that is dropped: the
    changes of an open transaction are lost. *)
Definition close : M unit := rollback.

(** [cursor.execute] of an INSERT with the Python [int] [z] among its
    parameters. The module prepares the statement and opens the transaction
    before it binds the parameters: a failure of the storage layer comes
    first, then the [OverflowError] of an [int] that does not fit, raised
    with the transaction open and nothing written. *)
Definition execute_write_int (F : faults) (z : Z) (f : database -> database)
  : M unit :=
  fun s =>
    if F (executed s) then (Raise OperationalError, step s (pending s))
    else if fits_int64 z then (Ok tt, step s (Some (f (view s))))
    else (Raise OverflowError, step s (Some (view s))).

(** [cursor.execute] of a SELECT with the Python [int] [z] among its
    parameters, with the fetch that follows it: likewise, without a
    transaction. *)
Definition execute_read_int (F : faults) (z : Z) {A : Type}
    (q : database -> A) : M A :=
  fun s =>
    if F (executed s) then (Raise OperationalError, step s (pending s))
    else if fits_int64 z then (Ok (q (view s)), step s (pending s))
    else (Raise OverflowError, step s (pending s)).

(** The content of the file once the call is over. *)
Definition finish {A : Type} (r : outcome A * session) : outcome A * database :=
  (fst r, disk (snd r)).

End Sqlite.

Declare Scope py_scope.
Delimit Scope py_scope with py.
Notation "x <- m ;; k" := (Sqlite.bind m (fun x => k))
  (at level 61, m at next level, right associativity) : py_scope.
Notation "m ;;; k" := (Sqlite.bind m (fun _ => k))
  (at level 61, right associativity) : py_scope.

(** ** [WordleSQLiteTracker.add_user] and [add_streak_data] *)

Module Tracker.
Import PyStr Parser Sqlite.
Local Open Scope py_scope.

(** The dictionary [add_streak_data] returns. *)
Record summary : Type :=
  { sum_day : Z; results_added : Z; users_in_day : list str }.

Definition add_user (F : faults) (now : timestamp) (u : str) : M Z :=
  execute_write F (insert_or_ignore_user now u) ;;;
  row <- execute_read F (select_user_id u) ;;
  match row with
  | Some id => ret id
  | None => raise TypeError
  end.

(** The loop over [parsed_data["results"]]. *)
Fixpoint add_results (F : faults) (now : timestamp) (d : Z)
    (rs : list parsed_result) : M unit :=
  match rs with
  | [] => ret tt
  | r :: rs' =>
      uid <- add_user F now (username r) ;;
      execute_write F (insert_or_replace_result d uid (score r) (is_winner r)) ;;;
      add_results F now d rs'
  end.

(** The body of the [try] block. *)
Definition ingest (F : faults) (now : timestamp) (p : parsed) : M summary :=
  execute_write_int F (day p) (insert_or_ignore_streak now (day p)) ;;;
  add_results F now (day p) (Parser.results p) ;;;
  commit F ;;;
  results_count <- execute_read F (count_results_of_day (day p)) ;;
  ret {| sum_day := day p;
         results_added := results_count;
         users_in_day := map username (Parser.results p) |}.

(** [add_streak_data(message)] on the database file [db], at the time [now],
    in the storage environment [F]: what the call returns or raises, and the
    content of the file afterwards. *)
Definition add_streak_data (F : faults) (now : timestamp) (message : str)
    (db : database) : outcome summary * database :=
  match parse_message message with
  | Raise e => (Raise e, db)
  | Ok parsed_data =>
      finish
        (try_finally
           (try_except (ingest F now parsed_data)
              (fun e => rollback ;;; raise e))
           close (start db))
  end.

(** The number of calls into the storage layer up to and including the
    commit, for a message with [n] results: the insertion of the day, three
    calls for each result, the commit. *)
Definition writes_of (n : nat) : nat := 1 + 3 * n + 1.

End Tracker.

(** ** [WordleDatabaseManager.get_day_details] and [delete_day] *)

Module Manager.
Import PyStr Sqlite.
Local Open Scope py_scope.
Local Open Scope string_scope.

Record day_result : Type :=
  { dr_username : str; dr_score : str; dr_is_winner : bool }.

Record day_details : Type :=
  { dd_day : Z; dd_imported_at : timestamp;
    participants : nat; dd_results : list day_result }.

(** Order of two strings by code points, the order of [ORDER BY] on a TEXT
    column. *)
Fixpoint str_leb (s t : str) : bool :=
  match s, t with
  | [], _ => true
  | _ :: _, [] => false
  | a :: s', b :: t' => (a <? b)%N || (char_eqb a b && str_leb s' t')
  end.

Fixpoint insert_by_name (x : day_result) (l : list day_result)
  : list day_result :=
  match l with
  | [] => [x]
  | y :: l' =>
      if str_leb (dr_username x) (dr_username y) then x :: l
      else y :: insert_by_name x l'
  end.

Definition sort_by_name (l : list day_result) : list day_result :=
  fold_right insert_by_name [] l.

(** [SELECT u.username, r.score, r.is_winner FROM results r JOIN users u
    ON r.user_id = u.id WHERE r.streak_day = ? ORDER BY u.username] *)
Definition select_day_results (d : Z) (db : database) : list day_result :=
  sort_by_name
    (flat_map
       (fun r =>
          if on_day d r then
            map (fun u => {| dr_username := user_name u;
                             dr_score := r_score r;
                             dr_is_winner := r_is_winner r |})
                (filter (fun u => (user_id u =? r_user_id r)%Z) (users db))
          else [])
       (results db)).

Definition get_day_details (F : faults) (d : Z) : M (option day_details) :=
  streak_data <-
    execute_read_int F d (fun db => find (has_day d) (streaks db)) ;;
  match streak_data with
  | None => close ;;; ret None
  | Some row =>
      rs <- execute_read F (select_day_results d) ;;
      close ;;;
      ret (Some {| dd_day := streak_day row;
                   dd_imported_at := imported_at row;
                   participants := length rs;
                   dd_results := rs |})
  end.

(** The [try] block of [delete_day]. *)
Definition delete_transaction (F : faults) (d : Z) : M bool :=
  execute_begin F ;;;
  execute_write F (delete_results_of_day d) ;;;
  execute_write F (delete_streak d) ;;;
  commit F ;;;
  close ;;;
  ret true.

(** Its handler: [ROLLBACK] and [close], any failure of which is passed
    over; the connection is dropped on return. *)
Definition delete_handler (F : faults) : M bool :=
  try_except (execute_rollback F ;;; close) (fun _ => ret tt) ;;;
  close ;;;
  ret false.

(** [delete_day(day, confirm)], where [typed] is the line read by [input]
    when the confirmation is asked for. The printed preview is left out. *)
Definition delete_day (F : faults) (d : Z) (confirm : bool) (typed : str)
    (db : database) : outcome bool * database :=
  finish
    ((details <- get_day_details F d ;;
      match details with
      | None => ret false
      | Some _ =>
          if negb confirm && negb (str_eqb (strip typed) (lit "DELETE"))
          then ret false
          else try_except (delete_transaction F d) (fun _ => delete_handler F)
      end) (start db)).

End Manager.

(** ** Statistics: [show_day_data], [get_all_time_stats],
       [_calculate_streak_consistency]

    Python computes averages in binary floating point (from an exact
    fraction, in [statistics.mean]); here they are the exact rationals that
    are rounded. *)

Module Stats.
Import PyStr Sqlite.
Local Open Scope string_scope.

Definition is_X (sc : str) : bool := str_eqb sc (lit "X").

(** [sum(int(x) for x in l)], [None] when some [int(x)] raises. *)
Fixpoint sum_int (l : list str) : option Z :=
  match l with
  | [] => Some 0%Z
  | x :: l' =>
      match int x, sum_int l' with
      | Some n, Some t => Some (n + t)%Z
      | _, _ => None
      end
  end.

(** *** The statistics block of [show_day_data], on the rows
    [(username, score, is_winner)] of the day. *)

Definition successful_players (rows : list Manager.day_result) : nat :=
  length (filter (fun r => negb (is_X (Manager.dr_score r))) rows).

Definition failed_players (rows : list Manager.day_result) : nat :=
  length (filter (fun r => is_X (Manager.dr_score r)) rows).

(** [avg_score]: [None] when the average is not computed, [Raise] when a
    score is not a number. *)
Definition avg_score (rows : list Manager.day_result) : option (outcome Q) :=
  if 0 <? successful_players rows then
    match sum_int (map Manager.dr_score
                     (filter (fun r => negb (is_X (Manager.dr_score r))) rows))
    with
    | Some total_score =>
        Some (Ok (inject_Z total_score /
                  inject_Z (Z.of_nat (successful_players rows)))%Q)
    | None => Some (Raise ValueError)
    end
  else None.

(** *** [WordleCommon.score_to_numeric] *)

Definition score_to_numeric (sc : str) : option Z :=
  if is_X sc then Some 7%Z else int sc.

(** *** The per-user entry of [get_all_time_stats] *)

(** [GROUP_CONCAT(x)]: NULL over no row. *)
Definition group_concat (l : list str) : option str :=
  match l with
  | [] => None
  | _ => Some (join 44%N l)
  end.

Fixpoint numeric_scores (scores : list str) : option (list Z) :=
  match scores with
  | [] => Some []
  | x :: l =>
      match score_to_numeric x, numeric_scores l with
      | Some n, Some ns => Some (n :: ns)
      | _, _ => None
      end
  end.

(** [statistics.mean] of a non-empty list of integers. *)
Definition mean (l : list Z) : Q :=
  (inject_Z (fold_right Z.add 0%Z l) / inject_Z (Z.of_nat (length l)))%Q.

(** [scores] of a row, from the text [all_scores_str]. *)
Definition scores_of (all_scores_str : option str) : list str :=
  match all_scores_str with
  | Some (c :: t) => split 44%N (c :: t)
  | _ => []
  end.

(** ['average_score'] of a row. *)
Definition average_score (all_scores_str : option str) : outcome Q :=
  match numeric_scores (scores_of all_scores_str) with
  | None => Raise ValueError
  | Some [] => Ok 0%Q
  | Some ns => Ok (mean ns)
  end.

(** The average [get_all_time_stats] reports for the user row [u]: none when
    the user has no result (HAVING games_played > 0). *)
Definition all_time_average (db : database) (u : user_row)
  : option (outcome Q) :=
  match filter (fun r => (r_user_id r =? user_id u)%Z) (results db) with
  | [] => None
  | rows => Some (average_score (group_concat (map r_score rows)))
  end.

(** *** [_find_longest_consecutive_streak] *)

Fixpoint longest_from (prev : Z) (current_streak max_streak : Z)
    (days : list Z) : Z :=
  match days with
  | [] => max_streak
  | d :: days' =>
      if (d =? prev + 1)%Z
      then longest_from d (current_streak + 1)
             (Z.max max_streak (current_streak + 1)) days'
      else longest_from d 1 max_streak days'
  end.

Definition find_longest_consecutive_streak (days : list Z) : Z :=
  match days with
  | [] => 0
  | d :: days' => longest_from d 1 1 days'
  end.

(** *** [_calculate_streak_consistency] *)

Record streak_info : Type :=
  { longest_streak : Z; consistency_score : Q;
    total_gaps : nat; average_gap : Q }.

(** The loop that fills [gaps]. *)
Fixpoint gaps_from (prev : Z) (days : list Z) : list Z :=
  match days with
  | [] => []
  | d :: days' =>
      if (1 <? d - prev)%Z then (d - prev - 1)%Z :: gaps_from d days'
      else gaps_from d days'
  end.

Definition gaps_of (days : list Z) : list Z :=
  match days with
  | [] => []
  | d :: days' => gaps_from d days'
  end.

Definition streak_info_of (days : list Z) : streak_info :=
  let gaps := gaps_of days in
  let avg_gap := match gaps with [] => 0%Q | _ => mean gaps end in
  {| longest_streak := find_longest_consecutive_streak days;
     consistency_score := (1 / (1 + avg_gap))%Q;
     total_gaps := length gaps;
     average_gap := avg_gap |}.

Fixpoint insert_day (d : Z) (l : list Z) : list Z :=
  match l with
  | [] => [d]
  | x :: l' => if (d <=? x)%Z then d :: l else x :: insert_day d l'
  end.

Definition sort_days (l : list Z) : list Z := fold_right insert_day [] l.

(** [date_filter]: in force when both bounds are given and neither is 0. *)
Definition in_period (start_day end_day : option Z) (d : Z) : bool :=
  match start_day, end_day with
  | Some a, Some b =>
      if negb (a =? 0)%Z && negb (b =? 0)%Z
      then (a <=? d)%Z && (d <=? b)%Z
      else true
  | _, _ => true
  end.

(** [GROUP_CONCAT(r.streak_day ORDER BY r.streak_day)] for the user row [u],
    read back as integers. Printing the day numbers and reading them with
    [int] is taken to give the numbers back. (The ORDER BY inside the
    aggregate is accepted from SQLite 3.44 on; older libraries refuse the
    statement.) *)
Definition played_days (start_day end_day : option Z) (db : database)
    (u : user_row) : list Z :=
  sort_days
    (map r_streak_day
       (filter (fun r => (r_user_id r =? user_id u)%Z
                         && in_period start_day end_day (r_streak_day r))
          (results db))).

(** The entry of [streak_data] made for the user row [u]: none when the join
    has no row for the user. *)
Definition calculate_streak_consistency (start_day end_day : option Z)
    (db : database) (u : user_row) : option streak_info :=
  match played_days start_day end_day db u with
  | [] => None
  | days => Some (streak_info_of days)
  end.

End Stats.

(** ** Overview, wipe, diagnosis and participation

    [get_brief_overview] and [clear_database] of [wordle_sqlite_tracker.py],
    the values [diagnose_database] of [diagnose_database.py] reports, the
    overview figures of [visualize_database], and the participation
    figures of [get_all_time_stats] and
    [get_last_week_stats] in [wordle_stats_app.py]. *)

Module Reports.
Import PyStr Sqlite Manager Stats.
Local Open Scope py_scope.

(** *** [WordleSQLiteTracker.get_brief_overview] *)

Record overview : Type :=
  { total_streaks : Z; total_users : Z; total_entries : Z;
    overview_users : list str }.

Fixpoint insert_name (x : str) (l : list str) : list str :=
  match l with
  | [] => [x]
  | y :: l' => if str_leb x y then x :: l else y :: insert_name x l'
  end.

(** [ORDER BY username] *)
Definition sort_names (l : list str) : list str :=
  fold_right insert_name [] l.

Definition get_brief_overview (F : faults) : M overview :=
  n_streaks <- execute_read F (fun db => Z.of_nat (length (streaks db))) ;;
  n_users <- execute_read F (fun db => Z.of_nat (length (users db))) ;;
  names <- execute_read F (fun db => sort_names (map user_name (users db))) ;;
  n_entries <- execute_read F (fun db => Z.of_nat (length (results db))) ;;
  close ;;;
  ret {| total_streaks := n_streaks; total_users := n_users;
         total_entries := n_entries; overview_users := names |}.

(** *** [WordleSQLiteTracker.clear_database] *)

(** [DELETE FROM results], [DELETE FROM streaks], [DELETE FROM users]: the
    rows go, the rowids given out so far stay on record. *)
Definition delete_all_results (db : database) : database :=
  {| users := users db; streaks := streaks db; results := [];
     seq_users := seq_users db; seq_streaks := seq_streaks db;
     seq_results := seq_results db |}.

Definition delete_all_streaks (db : database) : database :=
  {| users := users db; streaks := []; results := results db;
     seq_users := seq_users db; seq_streaks := seq_streaks db;
     seq_results := seq_results db |}.

Definition delete_all_users (db : database) : database :=
  {| users := []; streaks := streaks db; results := results db;
     seq_users := seq_users db; seq_streaks := seq_streaks db;
     seq_results := seq_results db |}.

(** The body of the [try] block. *)
Definition clear_transaction (F : faults) : M bool :=
  execute_write F delete_all_results ;;;
  execute_write F delete_all_streaks ;;;
  execute_write F delete_all_users ;;;
  commit F ;;;
  ret true.

Definition clear_database (F : faults) (db : database)
  : outcome bool * database :=
  finish
    (try_finally
       (try_except (clear_transaction F) (fun e => rollback ;;; raise e))
       close (start db)).

(** *** The values of [diagnose_database] *)

(** [range(lo, lo + n)] *)
Definition zrange (lo : Z) (n : nat) : list Z :=
  map (fun i => (lo + Z.of_nat i)%Z) (seq 0 n).

(** [min(l)] and [max(l)] of a list that is not empty. *)
Definition list_min (d : Z) (l : list Z) : Z := fold_left Z.min l d.
Definition list_max (d : Z) (l : list Z) : Z := fold_left Z.max l d.

Definition mem (d : Z) (l : list Z) : bool := existsb (Z.eqb d) l.

(** The loop over [streak_days] that fills [duplicates]. *)
Fixpoint duplicates_from (seen days : list Z) : list Z :=
  match days with
  | [] => []
  | d :: days' =>
      if mem d seen then d :: duplicates_from seen days'
      else duplicates_from (d :: seen) days'
  end.

(** The loop that fills [gaps]: for each pair of neighbours more than one
    day apart, the first and the last day between them. *)
Fixpoint day_gaps_from (prev : Z) (days : list Z) : list (Z * Z) :=
  match days with
  | [] => []
  | d :: days' =>
      if (1 <? d - prev)%Z
      then (prev + 1, d - 1)%Z :: day_gaps_from d days'
      else day_gaps_from d days'
  end.

Definition day_gaps (days : list Z) : list (Z * Z) :=
  match days with
  | [] => []
  | d :: days' => day_gaps_from d days'
  end.

Record diagnosis : Type :=
  { streak_days : list Z;
    min_day : Z;
    max_day : Z;
    duplicates : list Z;
    missing_days : list Z;      (* sorted(list(missing_days)) *)
    gaps : list (Z * Z);
    orphaned_results : Z;
    orphaned_users : Z }.

(** [SELECT COUNT( * ) FROM results r WHERE r.streak_day NOT IN
    (SELECT day FROM streaks)] *)
Definition count_orphaned_results (db : database) : Z :=
  Z.of_nat
    (length
       (filter (fun r => negb (mem (r_streak_day r)
                                 (map streak_day (streaks db))))
          (results db))).

(** [SELECT COUNT( * ) FROM users u WHERE u.id NOT IN
    (SELECT DISTINCT user_id FROM results)] *)
Definition count_orphaned_users (db : database) : Z :=
  Z.of_nat
    (length
       (filter (fun u => negb (mem (user_id u)
                                 (map r_user_id (results db))))
          (users db))).

(** What [diagnose_database] works out and prints, on a file that is read
    without error: nothing after the first message when there is no streak
    day. *)
Definition diagnose (db : database) : option diagnosis :=
  match sort_days (map streak_day (streaks db)) with
  | [] => None
  | d :: rest =>
      let days := d :: rest in
      let lo := list_min d rest in
      let hi := list_max d rest in
      Some {| streak_days := days;
              min_day := lo;
              max_day := hi;
              duplicates := duplicates_from [] days;
              missing_days :=
                filter (fun x => negb (mem x days))
                  (zrange lo (Z.to_nat (hi + 1 - lo)));
              gaps := day_gaps days;
              orphaned_results := count_orphaned_results db;
              orphaned_users := count_orphaned_users db |}
  end.

(** *** [DatabaseManager.get_database_overview]

    The fourth query joins every streak row with the results of its day and
    every result with the user of its id (LEFT JOIN: a streak without result
    and a result without user are kept, with NULL in the columns of the
    missing row), groups by streak row ([day] is UNIQUE) and orders by
    day. *)

Definition joined_users (db : database) (r : result_row)
  : list (option user_row) :=
  match filter (fun u => (user_id u =? r_user_id r)%Z) (users db) with
  | [] => [None]
  | us => map Some us
  end.

Definition joined_rows (db : database) (d : Z)
  : list (result_row * option user_row) :=
  flat_map (fun r => map (pair r) (joined_users db r))
    (filter (fun r => (r_streak_day r =? d)%Z) (results db)).

(** [u.username || ':' || r.score] over the joined rows of a day: NULL,
    which GROUP_CONCAT leaves out, where the result has no user. SQLite
    fixes no order for the rows of a group; they are taken in the order of
    the results table. *)
Definition user_score_texts (rows : list (result_row * option user_row))
  : list str :=
  flat_map (fun row =>
              match snd row with
              | Some u => [user_name u ++ 58%N :: r_score (fst row)]
              | None => []
              end) rows.

(** [username, score = user_score.split(':', 1)]: the text before the first
    colon and the text after it; without a colon the split gives one value
    and the assignment raises [ValueError]. *)
Fixpoint split_colon (s : str) : option (str * str) :=
  match s with
  | [] => None
  | c :: s' =>
      if char_eqb c 58%N then Some ([], s')
      else match split_colon s' with
           | Some (a, b) => Some (c :: a, b)
           | None => None
           end
  end.

(** The loop that fills [user_score_list]. *)
Fixpoint user_score_list (pieces : list str) : outcome (list (str * str)) :=
  match pieces with
  | [] => Ok []
  | x :: l =>
      match split_colon x with
      | None => Raise ValueError
      | Some us =>
          match user_score_list l with
          | Ok rest => Ok (us :: rest)
          | Raise e => Raise e
          end
      end
  end.

Record day_info : Type :=
  { di_day : Z;
    di_participants : Z;                  (* COUNT(r.id) *)
    di_user_scores : list (str * str);    (* username, score *)
    di_imported_at : timestamp }.

Definition day_info_of (db : database) (s : streak_row) : outcome day_info :=
  let rows := joined_rows db (streak_day s) in
  let user_scores := group_concat (user_score_texts rows) in
  match match user_scores with
        | Some (c :: t) => user_score_list (split 44%N (c :: t))
        | _ => Ok []                      (* if user_scores: *)
        end with
  | Ok l => Ok {| di_day := streak_day s;
                  di_participants := Z.of_nat (length rows);
                  di_user_scores := l;
                  di_imported_at := imported_at s |}
  | Raise e => Raise e
  end.

(** The loop that fills [day_data]. *)
Fixpoint day_data_of (db : database) (l : list streak_row)
  : outcome (list day_info) :=
  match l with
  | [] => Ok []
  | s :: l' =>
      match day_info_of db s with
      | Raise e => Raise e
      | Ok i =>
          match day_data_of db l' with
          | Ok rest => Ok (i :: rest)
          | Raise e => Raise e
          end
      end
  end.

Fixpoint insert_streak (s : streak_row) (l : list streak_row)
  : list streak_row :=
  match l with
  | [] => [s]
  | x :: l' =>
      if (streak_day s <=? streak_day x)%Z then s :: l
      else x :: insert_streak s l'
  end.

(** [ORDER BY s.day] *)
Definition streaks_by_day (db : database) : list streak_row :=
  fold_right insert_streak [] (streaks db).

Fixpoint insert_user (u : user_row) (l : list user_row) : list user_row :=
  match l with
  | [] => [u]
  | x :: l' =>
      if str_leb (user_name u) (user_name x) then u :: l
      else x :: insert_user u l'
  end.

Record database_overview : Type :=
  { dbo_streak_days : list Z;
    dbo_users : list (Z * str);           (* ORDER BY username *)
    dbo_total_results : Z;
    dbo_day_data : list day_info }.

Definition get_database_overview (db : database)
  : outcome database_overview :=
  match day_data_of db (streaks_by_day db) with
  | Raise e => Raise e
  | Ok data =>
      Ok {| dbo_streak_days := sort_days (map streak_day (streaks db));
            dbo_users :=
              map (fun u => (user_id u, user_name u))
                (fold_right insert_user [] (users db));
            dbo_total_results := Z.of_nat (length (results db));
            dbo_day_data := data |}
  end.

(** *** The overview figures of [visualize_database]

    The figures are worked out from the list [streak_days] that
    [get_database_overview] returns; nothing is worked out when the list is
    empty, and an exception of [get_database_overview] is caught and its
    message printed in place of the figures. *)

Record day_overview : Type :=
  { ov_total_days : Z;
    ov_min_day : Z;
    ov_max_day : Z;
    ov_expected_days : Z;
    ov_missing_days : Z }.    (* expected_days - total_days *)

Definition day_overview_of (db : database) : outcome (option day_overview) :=
  match get_database_overview db with
  | Raise e => Raise e
  | Ok overview =>
      match dbo_streak_days overview with
      | [] => Ok None
      | d :: rest =>
          let lo := list_min d rest in
          let hi := list_max d rest in
          let total := Z.of_nat (length (d :: rest)) in
          let expected := (hi - lo + 1)%Z in
          Ok (Some {| ov_total_days := total;
                      ov_min_day := lo;
                      ov_max_day := hi;
                      ov_expected_days := expected;
                      ov_missing_days := (expected - total)%Z |})
      end
  end.

(** *** Participation in [get_all_time_stats] *)

(** A float division. *)
Inductive quotient : Type :=
| Quotient (q : Q)
| ZeroDivisionError.

Definition divide (a b : Z) : quotient :=
  if (b =? 0)%Z then ZeroDivisionError
  else Quotient (inject_Z a / inject_Z b)%Q.

(** [COUNT(r.id)] over the results of the user row [u]: ['games_played']. *)
Definition games_played (db : database) (u : user_row) : Z :=
  Z.of_nat
    (length (filter (fun r => (r_user_id r =? user_id u)%Z) (results db))).

(** [COUNT(DISTINCT r.streak_day)] over the results of the user row [u]. *)
Definition days_participated (db : database) (u : user_row) : Z :=
  Z.of_nat
    (length
       (nodup Z.eq_dec
          (map r_streak_day
             (filter (fun r => (r_user_id r =? user_id u)%Z) (results db))))).

(** [(SELECT COUNT( * ) FROM streaks)] *)
Definition total_days (db : database) : Z := Z.of_nat (length (streaks db)).

(** ['participation_rate'] of the user row [u]: no row comes back for a
    user without result (HAVING days_participated > 0). *)
Definition participation_rate (db : database) (u : user_row)
  : option quotient :=
  if (0 <? days_participated db u)%Z
  then Some (divide (days_participated db u) (total_days db))
  else None.

(** *** The period of [get_last_week_stats] *)

(** [SELECT MAX(day) FROM streaks] *)
Definition select_max_day (db : database) : option Z :=
  match map streak_day (streaks db) with
  | [] => None
  | d :: rest => Some (list_max d rest)
  end.

(** [(start_day, max_day)], or none when the function returns the empty
    dictionary at once: no streak day, or a largest day that is 0. *)
Definition last_week_period (db : database) : option (Z * Z) :=
  match select_max_day db with
  | None => None
  | Some m => if (m =? 0)%Z then None else Some (Z.max 1 (m - 6), m)
  end.

(** [COUNT(r.id)] of the user row [u] in the period, which the function
    also reports as ['days_participated']. *)
Definition games_in_period (db : database) (u : user_row) (period : Z * Z)
  : Z :=
  Z.of_nat
    (length
       (filter (fun r => (r_user_id r =? user_id u)%Z
                         && ((fst period <=? r_streak_day r)%Z
                             && (r_streak_day r <=? snd period)%Z))
          (results db))).

(** ['participation_rate'] of the last week: [games_played / 7.0]. *)
Definition last_week_rate (db : database) (u : user_row) : option Q :=
  match last_week_period db with
  | None => None
  | Some period =>
      if (0 <? games_in_period db u period)%Z
      then Some (inject_Z (games_in_period db u period) / 7)%Q
      else None
  end.

End Reports.

(** ** Notions the properties are stated with *)

Module Notions.
Import PyStr Re Parser Sqlite Tracker Manager Stats.
Local Open Scope string_scope.

(** *** Texts *)

(** The longest prefix of characters of a class, and what follows it. *)
Fixpoint take_while (p : char -> bool) (s : str) : str :=
  match s with
  | x :: t => if p x then x :: take_while p t else []
  | [] => []
  end.

Fixpoint drop_while (p : char -> bool) (s : str) : str :=
  match s with
  | x :: t => if p x then drop_while p t else s
  | [] => []
  end.

Definition str_eq_dec : forall s t : str, {s = t} + {s <> t} :=
  list_eq_dec N.eq_dec.

(** A text of Unicode scalar values: no code point of the surrogate range
    and none above U+10FFFF. These are the texts that can be bound to a
    statement. *)
Definition is_scalar (c : char) : bool :=
  ((c <? 0xD800) || (0xDFFF <? c))%N && (c <=? 0x10FFFF)%N.

Definition scalar_text (s : str) : Prop := forallb is_scalar s = true.

(** *** Day markers *)

(** [msg] reads [pre], then the digits [ds], then [" day streak"], then
    [post]. *)
Definition marker (msg pre ds post : str) : Prop :=
  msg = pre ++ ds ++ lit " day streak" ++ post
  /\ ds <> [] /\ forallb isdecimal ds = true.

(** The marker [re.search] finds: none starts further to the left. *)
Definition first_marker (msg pre ds post : str) : Prop :=
  marker msg pre ds post
  /\ forall pre' ds' post', marker msg pre' ds' post' ->
       length pre <= length pre'.

(** A number [int] refuses for its length. *)
Definition too_long (ds : str) : Prop :=
  (int_max_str_digits < Z.of_nat (length ds))%Z.

(** A marker in the sense of the spec: the word after ["day "] reads
    "streak" in any mix of upper and lower case. *)
Definition ascii_lower (c : char) : char :=
  if in_range 65%N 90%N c then (c + 32)%N else c.

Definition marker_any_case (msg pre ds word post : str) : Prop :=
  msg = pre ++ ds ++ lit " day " ++ word ++ post
  /\ map ascii_lower word = lit "streak"
  /\ ds <> [] /\ forallb isdecimal ds = true.

(** The text of the spec's example, with the crown glyph U+1F451. *)
Definition crown_message : str :=
  lit "42 day streak" ++ [10%N] ++ crown_glyph
  ++ lit " 3/6: @Alice@Bob 5/6: @Carol".

(** The same text with the four code points of the source file in the place
    of the glyph. *)
Definition crown_message_as_stored : str :=
  lit "42 day streak" ++ [10%N] ++ crown_literal
  ++ lit " 3/6: @Alice@Bob 5/6: @Carol".

(** *** Transactions *)

(** [uncommitted F n m]: the computation [m] leaves the file as it is, and
    when it succeeds it has made [n] calls into the storage layer, none of
    which [F] makes fail. *)
Definition uncommitted {A : Type} (F : faults) (n : nat) (m : M A) : Prop :=
  forall s o s', m s = (o, s') ->
    disk s' = disk s
    /\ forall a, o = Ok a ->
         executed s' = executed s + n
         /\ forall i, executed s <= i < executed s + n -> F i = false.

(** *** The effect of an ingestion *)

(** The id [add_user] returns for [u] on the content [db]. *)
Definition user_id_after (u : str) (db : database) : Z :=
  match select_user_id u db with
  | Some id => id
  | None => next_id (seq_users db) (map user_id (users db))
  end.

(** One round of the loop over the results. *)
Definition apply_result (now : timestamp) (d : Z) (r : parsed_result)
    (db : database) : database :=
  insert_or_replace_result d (user_id_after (username r) db)
    (score r) (is_winner r) (insert_or_ignore_user now (username r) db).

(** The effect of the loop over the results on the pending content. *)
Fixpoint apply_results (now : timestamp) (d : Z) (rs : list parsed_result)
    (db : database) : database :=
  match rs with
  | [] => db
  | r :: rs' =>
      apply_results now d rs'
        (insert_or_replace_result d (user_id_after (username r) db)
           (score r) (is_winner r)
           (insert_or_ignore_user now (username r) db))
  end.

(** The content of the file after a message has been ingested. *)
Definition ingested (now : timestamp) (p : parsed) (db : database)
  : database :=
  apply_results now (day p) (Parser.results p)
    (insert_or_ignore_streak now (day p) db).

(** The file holds exactly one result for the pair, with this score and
    winner flag. *)
Definition stored (d uid : Z) (sc : str) (w : bool) (db : database) : Prop :=
  exists rid,
    filter (for_pair d uid) (results db)
    = [ {| result_id := rid; r_streak_day := d; r_user_id := uid;
           r_score := sc; r_is_winner := w |} ].

(** The results of [post] are for other users than [u]. *)
Definition not_later (u : str) (post : list parsed_result) : Prop :=
  forall r', In r' post -> username r' <> u.

(** The content of the file without the day [d]: the users, and the streak
    rows and the results of the other days, in the order they had; the
    rowids given out so far stay on record. *)
Definition deleted (d : Z) (db : database) : database :=
  {| users := users db;
     streaks := filter (fun s => negb (streak_day s =? d)%Z) (streaks db);
     results := filter (fun r => negb (r_streak_day r =? d)%Z) (results db);
     seq_users := seq_users db;
     seq_streaks := seq_streaks db;
     seq_results := seq_results db |}.

(** *** Scores *)

(** A score token as [parse_message] stores it: one character of
    [[1-6X]]. *)
Definition is_score_token (sc : str) : bool :=
  match sc with
  | [c] => score_token c
  | _ => false
  end.

(** Every score the file holds is a score token. *)
Definition tokens_only (db : database) : Prop :=
  Forall (fun r => is_score_token (r_score r) = true) (results db).

(** The number of guesses a token other than "X" stands for. *)
Definition guesses (sc : str) : Z :=
  match sc with
  | [c] => Z.of_N c - 48
  | _ => 0
  end.

Definition total (l : list Z) : Z := fold_right Z.add 0%Z l.

(** The tokens other than "X" of a result set, as numbers. *)
Definition solved (scores : list str) : list Z :=
  map guesses (filter (fun sc => negb (is_X sc)) scores).

(** The number of "X" in a result set. *)
Definition failures (scores : list str) : nat :=
  count_occ str_eq_dec scores (lit "X").

(** The value [score_to_numeric] gives a token. *)
Definition numeric (sc : str) : Z := if is_X sc then 7%Z else guesses sc.

(** *** Gaps between played days *)

(** The pairs of successive played days. *)
Definition successive (days : list Z) : list (Z * Z) :=
  combine days (tl days).

(** The number of days missed between two played days. *)
Definition missed (ab : Z * Z) : Z := snd ab - fst ab - 1.

(** The gaps of a list of played days: for each pair of successive played
    days that are not next to each other, the number of days missed between
    them. *)
Definition gap_lengths (days : list Z) : list Z :=
  filter (fun g => (0 <? g)%Z) (map missed (successive days)).

(** The average gap: the mean length of the gaps, 0 when there is none. *)
Definition mean_gap (days : list Z) : Q :=
  match gap_lengths days with
  | [] => 0%Q
  | gs => (inject_Z (fold_right Z.add 0%Z gs)
           / inject_Z (Z.of_nat (length gs)))%Q
  end.

(** The day [d] lies in the period asked for. A period is in force when
    both of its bounds are given and neither is 0. *)
Definition within (start_day end_day : option Z) (d : Z) : Prop :=
  forall a b, start_day = Some a -> end_day = Some b ->
    a <> 0%Z -> b <> 0%Z -> (a <= d <= b)%Z.

(** Every element is below the ones after it, strictly. *)
Fixpoint increasing (l : list Z) : Prop :=
  match l with
  | [] => True
  | x :: l' => (forall y, In y l' -> (x < y)%Z) /\ increasing l'
  end.

(** *** Scenarios of the examples *)

(** A marker whose number has 4301 digits. *)
Definition overlong_number : str := repeat 49%N 4301.

Definition overlong_marker_message : str :=
  overlong_number ++ lit " day streak".

(** A message with five results, and the storage environment in which the
    insertion of the third result fails: the tenth call. *)
Definition five_results_message : str :=
  lit "9 day streak 3/6: @a @b 4/6: @c @d @e".

Definition third_result_fails : faults := fun n => Nat.eqb n 9.

(** Day 5 already holds the result of Alice when a second message for the
    day is ingested. *)
Definition day5_with_alice : database :=
  snd (add_streak_data no_faults 0%Z (lit "5 day streak 3/6: @Alice")
         empty_database).

(** The example of the spec: Alice scored "3" on day 5, and a second message
    for day 5 gives her "X". *)
Definition alice_fails : parsed_result :=
  {| username := lit "Alice"; score := lit "X"; is_winner := false |}.

(** The rows of a day: a "3", an "X" and a "5". *)
Definition sample_day : list day_result :=
  [ {| dr_username := lit "Alice"; dr_score := lit "3";
       dr_is_winner := true |};
    {| dr_username := lit "Bob"; dr_score := lit "X";
       dr_is_winner := false |};
    {| dr_username := lit "Carol"; dr_score := lit "5";
       dr_is_winner := false |} ].

(** Alice played the days 1, 2 and 5. *)
Definition alice_days_1_2_5 : database :=
  snd (add_streak_data no_faults 0%Z (lit "5 day streak X/6: @Alice")
    (snd (add_streak_data no_faults 0%Z (lit "2 day streak 4/6: @Alice")
      (snd (add_streak_data no_faults 0%Z (lit "1 day streak 3/6: @Alice")
         empty_database))))).

Definition alice_row : user_row :=
  {| user_id := 1; user_name := lit "Alice"; first_seen := 0%Z |}.

(** *** Integrity of the store *)

(** Every result belongs to a day that has its streak row. *)
Definition no_orphan_results (db : database) : Prop :=
  Forall (fun r => existsb (has_day (r_streak_day r)) (streaks db) = true)
    (results db).

(** Every user has a result. *)
Definition no_orphan_users (db : database) : Prop :=
  Forall (fun u =>
            existsb (fun r => (r_user_id r =? user_id u)%Z) (results db)
            = true)
    (users db).

(** Every result is of a user the file knows. *)
Definition known_users (db : database) : Prop :=
  Forall (fun r =>
            existsb (fun u => (user_id u =? r_user_id r)%Z) (users db)
            = true)
    (results db).

(** The contents the program can bring a file to: from the empty store of
    [init_database], by calls of [add_streak_data], [delete_day] and
    [clear_database], in any storage environment. *)
Inductive reachable : database -> Prop :=
| reach_init : reachable empty_database
| reach_add (F : faults) (now : timestamp) (msg : str) (db : database) :
    reachable db -> reachable (snd (add_streak_data F now msg db))
| reach_delete (F : faults) (d : Z) (confirm : bool) (typed : str)
    (db : database) :
    reachable db -> reachable (snd (delete_day F d confirm typed db))
| reach_clear (F : faults) (db : database) :
    reachable db -> reachable (snd (Reports.clear_database F db)).

(** The user [u] has the id [uid] and a result for the day [d]. *)
Definition played (d : Z) (u : str) (uid : Z) (db : database) : Prop :=
  select_user_id u db = Some uid
  /\ existsb (for_pair d uid) (results db) = true.

(** A text without leading or trailing white space. *)
Definition stripped (s : str) : Prop :=
  (forall c t, s = c :: t -> isspace c = false)
  /\ (forall t c, s = t ++ [c] -> isspace c = false).

(** A message whose user name holds a comma. *)
Definition comma_name_message : str := lit "5 day streak 3/6: @Smith, John".

(** A stored result of a stored day whose user has a name, or whose score
    is a text, such that [username:score] cut at the commas has a piece
    without colon. *)
Definition colonless_piece (db : database) : Prop :=
  exists s r u piece,
    In s (streaks db) /\ In r (results db) /\ In u (users db)
    /\ r_streak_day r = streak_day s /\ r_user_id r = user_id u
    /\ In piece (split 44%N (user_name u ++ 58%N :: r_score r))
    /\ ~ In 58%N piece.

(** No stored user name holds a comma. *)
Definition no_comma_names (db : database) : Prop :=
  forall u, In u (users db) -> ~ In 44%N (user_name u).

End Notions.

(* ================================================================== *)
(** * Part II: properties *)
(* ================================================================== *)

(** ** Strings *)

Section StringFacts.
Import PyStr Notions.

Lemma char_eqb_eq (a b : char) : char_eqb a b = true <-> a = b.
Proof. unfold char_eqb. apply N.eqb_eq. Qed.

Lemma str_eqb_eq (s t : str) : str_eqb s t = true <-> s = t.
Proof.
  revert t. induction s as [|a s IH]; intros [|b t]; simpl;
    try (split; [discriminate | discriminate]); try tauto.
  rewrite andb_true_iff, char_eqb_eq, IH. split.
  - intros [-> ->]. reflexivity.
  - intros H. injection H as -> ->. split; reflexivity.
Qed.

Lemma str_eqb_refl (s : str) : str_eqb s s = true.
Proof. apply str_eqb_eq. reflexivity. Qed.

Lemma startswith_app (p t : str) : startswith p (p ++ t) = true.
Proof.
  induction p as [|a p IH]; simpl; [reflexivity|].
  rewrite IH, andb_true_r. apply char_eqb_eq. reflexivity.
Qed.

Lemma startswith_inv (p s : str) :
  startswith p s = true -> s = p ++ skipn (length p) s.
Proof.
  revert s. induction p as [|a p IH]; intros [|b s]; simpl;
    try reflexivity; try discriminate.
  rewrite andb_true_iff, char_eqb_eq. intros [-> H]. f_equal. apply IH, H.
Qed.

Lemma take_drop_while (p : char -> bool) (s : str) :
  s = take_while p s ++ drop_while p s.
Proof.
  induction s as [|x t IH]; simpl; [reflexivity|].
  destruct (p x); simpl; [f_equal; exact IH | reflexivity].
Qed.

Lemma take_while_all (p : char -> bool) (s : str) :
  forallb p (take_while p s) = true.
Proof.
  induction s as [|x t IH]; simpl; [reflexivity|].
  destruct (p x) eqn:E; simpl; [rewrite E, IH|]; reflexivity.
Qed.

Lemma drop_while_app (p : char -> bool) (ds : str) (y : char) (t : str) :
  forallb p ds = true -> p y = false ->
  drop_while p (ds ++ y :: t) = y :: t /\ take_while p (ds ++ y :: t) = ds.
Proof.
  intros Hds Hy. induction ds as [|x ds IH]; simpl in *.
  - rewrite Hy. split; reflexivity.
  - apply andb_true_iff in Hds as [Hx Hds]. rewrite Hx.
    destruct (IH Hds) as [-> ->]. split; reflexivity.
Qed.

Lemma int_digits_some (ds : str) (acc : Z) :
  forallb isdecimal ds = true -> (0 <= acc)%Z ->
  exists z, int_digits acc ds = Some z /\ (0 <= z)%Z.
Proof.
  revert acc. induction ds as [|c ds IH]; cbn [int_digits forallb];
    intros acc H Hacc.
  - exists acc. split; [reflexivity | exact Hacc].
  - apply andb_true_iff in H as [Hc Hds]. unfold isdecimal in Hc.
    destruct (digit_value c) as [d|]; [|discriminate].
    pose proof (N2Z.is_nonneg d). apply IH; [exact Hds | lia].
Qed.

(** [int] does not raise on the text of a [\d+] match of at most 4300
    digits, and raises on a longer one. *)
Lemma int_of_digits (ds : str) :
  ds <> [] -> forallb isdecimal ds = true ->
  (Z.of_nat (length ds) <= int_max_str_digits)%Z ->
  exists z, int ds = Some z /\ (0 <= z)%Z.
Proof.
  intros Hne H Hlen. destruct ds as [|c ds]; [contradiction|].
  unfold int. apply Z.ltb_ge in Hlen. rewrite Hlen.
  apply int_digits_some; [exact H | lia].
Qed.

Lemma int_too_long (ds : str) :
  (int_max_str_digits < Z.of_nat (length ds))%Z -> int ds = None.
Proof.
  intros Hlen. destruct ds as [|c ds]; [reflexivity|].
  unfold int. apply Z.ltb_lt in Hlen. rewrite Hlen. reflexivity.
Qed.

Lemma int_some_length (ds : str) (z : Z) :
  int ds = Some z -> (Z.of_nat (length ds) <= int_max_str_digits)%Z.
Proof.
  intros H. destruct (Z_le_gt_dec (Z.of_nat (length ds)) int_max_str_digits)
    as [Hle|Hgt]; [exact Hle|].
  rewrite int_too_long in H by lia. discriminate.
Qed.

End StringFacts.

(** ** The matcher on the patterns of the parser *)

Section MatcherFacts.
Import PyStr Re Notions.

Lemma app_same_length {A : Type} (a c b d : list A) :
  a ++ b = c ++ d -> length a = length c -> a = c /\ b = d.
Proof.
  revert c. induction a as [|x a IH]; intros [|y c]; simpl;
    try discriminate.
  - intros H _. split; [reflexivity | exact H].
  - intros H Hl. injection H as -> H. injection Hl as Hl.
    destruct (IH c H Hl) as [-> ->]. split; reflexivity.
Qed.

Lemma consumed_app (a b : str) : consumed (a ++ b) b = a.
Proof.
  unfold consumed. rewrite length_app.
  replace (length a + length b - length b) with (length a) by lia.
  rewrite firstn_app, firstn_all, Nat.sub_diag. simpl. apply app_nil_r.
Qed.

Lemma exec_Cat (r1 r2 : regex) (s : str) (c : caps) (k : cont) :
  exec (Cat r1 r2) s c k = exec r1 s c (fun s' c' => exec r2 s' c' k).
Proof. reflexivity. Qed.

Lemma exec_Group (n : nat) (r : regex) (s : str) (c : caps) (k : cont) :
  exec (Group n r) s c k
  = exec r s c (fun s' c' => k s' ((n, consumed s s') :: c')).
Proof. reflexivity. Qed.

Lemma exec_Cls (p : char -> bool) (s : str) (c : caps) (k : cont) :
  exec (Cls p) s c k
  = match s with
    | x :: s' => if p x then k s' c else None
    | [] => None
    end.
Proof. reflexivity. Qed.

Lemma group_after (n : nat) (a b : caps) (v : str) :
  Forall (fun kv => fst kv <> n) a -> group n (a ++ (n, v) :: b) = Some v.
Proof.
  induction 1 as [|[m w] a Hm _ IH]; cbn [app group].
  - rewrite Nat.eqb_refl. reflexivity.
  - cbn [fst] in Hm. apply Nat.eqb_neq in Hm. rewrite Hm. exact IH.
Qed.

Lemma exec_Lit (l s : str) (c : caps) (k : cont) :
  exec (Lit l) s c k =
  if startswith l s then k (skipn (length l) s) c else None.
Proof.
  revert s. induction l as [|a l IH]; intros s; simpl; [reflexivity|].
  destruct s as [|b s]; [reflexivity|].
  destruct (char_eqb a b); simpl; [apply IH | reflexivity].
Qed.

(** A greedy star over a class gives back nothing when the continuation
    refuses every text that starts in the class. *)
Lemma greedy_class (p : char -> bool)
    (e : str -> caps -> cont -> option state) (k : cont) :
  (forall s c k', e s c k' = exec (Cls p) s c k') ->
  (forall x t c, p x = true -> k (x :: t) c = None) ->
  forall n s c, length s <= n ->
  greedy e k n s c = k (drop_while p s) c.
Proof.
  intros He Hk. induction n as [|n IH]; intros s c Hlen.
  - destruct s; [reflexivity | simpl in Hlen; lia].
  - cbn [greedy]. rewrite He.
    destruct s as [|x t]; [reflexivity|].
    cbn [exec drop_while]. destruct (p x) eqn:Hx; [|reflexivity].
    unfold progress at 1. cbn [length].
    replace (length t <? S (length t)) with true
      by (symmetry; apply Nat.ltb_lt; lia).
    rewrite IH by (simpl in Hlen; lia).
    destruct (k (drop_while p t) c); [reflexivity|].
    apply Hk, Hx.
Qed.

(** A successful match of [r] enters its continuation once, on a suffix of
    the text and with the groups of [r] added to those it was given. *)
Lemma greedy_inv (e : str -> caps -> cont -> option state) (k : cont)
    (P : caps -> Prop) :
  P [] -> (forall a b, P a -> P b -> P (a ++ b)) ->
  (forall s c k' res, e s c k' = Some res ->
     exists pre s1 add, s = pre ++ s1 /\ P add
                        /\ k' s1 (add ++ c) = Some res) ->
  forall n s c res, greedy e k n s c = Some res ->
  exists pre s1 add, s = pre ++ s1 /\ P add /\ k s1 (add ++ c) = Some res.
Proof.
  intros P0 Papp He. induction n as [|n IH]; intros s c res H.
  - exists [], s, []. repeat split; [exact P0 | exact H].
  - cbn [greedy] in H.
    destruct (e s c (progress s (greedy e k n))) as [m|] eqn:E.
    + injection H as ->. apply He in E as (pre & s1 & add & -> & Hadd & E).
      unfold progress in E. destruct (length s1 <? _); [|discriminate].
      apply IH in E as (pre' & s2 & add' & -> & Hadd' & E).
      exists (pre ++ pre'), s2, (add' ++ add).
      rewrite <- !app_assoc. repeat split; [apply Papp; assumption | exact E].
    + exists [], s, []. repeat split; [exact P0 | exact H].
Qed.

Lemma lazy_inv (e : str -> caps -> cont -> option state) (k : cont)
    (P : caps -> Prop) :
  P [] -> (forall a b, P a -> P b -> P (a ++ b)) ->
  (forall s c k' res, e s c k' = Some res ->
     exists pre s1 add, s = pre ++ s1 /\ P add
                        /\ k' s1 (add ++ c) = Some res) ->
  forall n s c res, lazy e k n s c = Some res ->
  exists pre s1 add, s = pre ++ s1 /\ P add /\ k s1 (add ++ c) = Some res.
Proof.
  intros P0 Papp He. induction n as [|n IH]; intros s c res H.
  - cbn [lazy] in H. destruct (k s c) as [m|] eqn:E; [|discriminate].
    exists [], s, []. repeat split; [exact P0 | cbn [app]; congruence].
  - cbn [lazy] in H. destruct (k s c) as [m|] eqn:E.
    + exists [], s, []. repeat split; [exact P0 | cbn [app]; congruence].
    + apply He in H as (pre & s1 & add & -> & Hadd & H).
      unfold progress in H. destruct (length s1 <? _); [|discriminate].
      apply IH in H as (pre' & s2 & add' & -> & Hadd' & H).
      exists (pre ++ pre'), s2, (add' ++ add).
      rewrite <- !app_assoc. repeat split; [apply Papp; assumption | exact H].
Qed.

Lemma exec_inv (r : regex) (s : str) (c : caps) (k : cont) (res : state) :
  exec r s c k = Some res ->
  exists pre s1 add,
    s = pre ++ s1 /\ added_by r add /\ k s1 (add ++ c) = Some res.
Proof.
  revert s c k res.
  induction r as [|p|r1 IH1 r2 IH2|r1 IH1 r2 IH2|r1 IH1|r1 IH1|n r1 IH1
                  |r1 IH1|]; intros s c k res H; cbn [exec] in H.
  - exists [], s, []. repeat split; [constructor | exact H].
  - destruct s as [|x s']; [discriminate|].
    destruct (p x); [|discriminate].
    exists [x], s', []. repeat split; [constructor | exact H].
  - apply IH1 in H as (pre1 & s1 & a1 & -> & Ha1 & H).
    apply IH2 in H as (pre2 & s2 & a2 & -> & Ha2 & H).
    exists (pre1 ++ pre2), s2, (a2 ++ a1). rewrite <- !app_assoc.
    repeat split; [|exact H].
    apply Forall_app. split.
    + apply Forall_impl with (2 := Ha2). intros kv Hk. cbn [groups_of].
      apply in_or_app. right. exact Hk.
    + apply Forall_impl with (2 := Ha1). intros kv Hk. cbn [groups_of].
      apply in_or_app. left. exact Hk.
  - destruct (exec r1 s c k) as [m|] eqn:E.
    + injection H as ->. apply IH1 in E as (pre & s1 & a & -> & Ha & E).
      exists pre, s1, a. repeat split; [|exact E].
      apply Forall_impl with (2 := Ha). intros kv Hk. cbn [groups_of].
      apply in_or_app. left. exact Hk.
    + apply IH2 in H as (pre & s1 & a & -> & Ha & H).
      exists pre, s1, a. repeat split; [|exact H].
      apply Forall_impl with (2 := Ha). intros kv Hk. cbn [groups_of].
      apply in_or_app. right. exact Hk.
  - apply (@greedy_inv (exec r1) k (added_by (Star r1))) in H;
      [exact H | constructor | intros a b Ha Hb; apply Forall_app; tauto
       | exact IH1].
  - apply (@lazy_inv (exec r1) k (added_by (LazyStar r1))) in H;
      [exact H | constructor | intros a b Ha Hb; apply Forall_app; tauto
       | exact IH1].
  - apply IH1 in H as (pre & s1 & a & -> & Ha & H).
    exists pre, s1, ((n, consumed (pre ++ s1) s1) :: a).
    repeat split; [|exact H]. constructor; [left; reflexivity|].
    apply Forall_impl with (2 := Ha). intros kv Hk. right. exact Hk.
  - destruct (exec r1 s c (fun s' c' => Some (s', c'))) as [[s' c']|] eqn:E;
      [|discriminate].
    apply IH1 in E as (pre & s1 & a & _ & Ha & E). injection E as _ <-.
    exists [], s, a. repeat split; [exact Ha | exact H].
  - exists [], s, [].
    destruct s as [|x [|y s']]; [| destruct (char_eqb x 10%N) |];
      try discriminate; repeat split; try constructor; exact H.
Qed.

(** What is left after a match is a suffix of the text, and the groups are
    groups of the pattern. *)
Lemma rematch_suffix (r : regex) (s rest : str) (c : caps) :
  rematch r s = Some (rest, c) ->
  (exists pre, s = pre ++ rest) /\ added_by r c.
Proof.
  unfold rematch, accept. intros H.
  apply exec_inv in H as (pre & s1 & a & -> & Ha & H).
  injection H as <- <-. rewrite app_nil_r.
  split; [exists pre; reflexivity | exact Ha].
Qed.

Lemma search_from_before (r : regex) (sk s : str) (f : found) :
  search_from r sk s = Some f ->
  exists suf, rev sk ++ s = before f ++ suf
              /\ rematch r suf = Some (after f, groups f)
              /\ forall pre' suf', rev sk ++ s = pre' ++ suf' ->
                   length sk <= length pre' ->
                   length pre' < length (before f) ->
                   rematch r suf' = None.
Proof.
  revert sk. induction s as [|x s IH]; intros sk; simpl.
  - destruct (rematch r []) as [[rest c]|] eqn:E; [|discriminate].
    intros H. injection H as <-. simpl. exists []. split; [reflexivity|].
    split; [exact E|]. intros pre' suf' _ H1 H2. rewrite length_rev in H2. lia.
  - destruct (rematch r (x :: s)) as [[rest c]|] eqn:E.
    + intros H. injection H as <-. simpl. exists (x :: s).
      split; [reflexivity|]. split; [exact E|].
      intros pre' suf' _ H1 H2. rewrite length_rev in H2. lia.
    + intros H. apply IH in H as (suf & H1 & H2 & H3).
      simpl in H1. rewrite <- app_assoc in H1. simpl in H1.
      exists suf. split; [exact H1|]. split; [exact H2|].
      intros pre' suf' Heq Hle Hlt.
      destruct (Nat.eq_dec (length pre') (length sk)) as [Hl|Hl].
      * assert (suf' = x :: s) as ->; [|exact E].
        symmetry in Heq. apply app_same_length in Heq as [_ Heq];
          [exact Heq | rewrite length_rev; exact Hl].
      * apply (H3 pre' suf'); [|simpl; lia|exact Hlt].
        simpl. rewrite <- app_assoc. exact Heq.
Qed.

Lemma search_from_none (r : regex) (sk s : str) :
  search_from r sk s = None ->
  forall pre' suf', s = pre' ++ suf' -> rematch r suf' = None.
Proof.
  revert sk. induction s as [|x s IH]; intros sk; simpl.
  - destruct (rematch r []) as [[rest c]|] eqn:E; [discriminate|].
    intros _ pre' suf' H. symmetry in H. apply app_eq_nil in H as [_ ->].
    exact E.
  - destruct (rematch r (x :: s)) as [[rest c]|] eqn:E; [discriminate|].
    intros H pre' suf' Heq. destruct pre' as [|y pre'].
    + simpl in Heq. subst suf'. exact E.
    + simpl in Heq. injection Heq as _ Heq. apply (IH _ H pre' suf' Heq).
Qed.

(** [re.search]: the match found, with the text around it. *)
Lemma search_found (r : regex) (s : str) (m : found) :
  search r s = Some m ->
  exists mid, s = before m ++ mid ++ after m
              /\ rematch r (mid ++ after m) = Some (after m, groups m).
Proof.
  intros H. apply search_from_before in H as (suf & H1 & H2 & _).
  simpl in H1. destruct (rematch_suffix _ _ H2) as [[mid ->] _].
  exists mid. split; assumption.
Qed.

(** The bound on the number of matches that [findall] gives [scan] is never
    reached: a larger one gives the same matches. *)
Lemma scan_enough (r : regex) (n m : nat) (s : str) :
  length s < n -> length s < m -> scan n r s = scan m r s.
Proof.
  revert m s. induction n as [|n IH]; intros m s Hn Hm; [lia|].
  destruct m as [|m]; [lia|]. cbn [scan].
  destruct (search r s) as [f|] eqn:E; [|reflexivity]. f_equal.
  apply search_found in E as (mid & Hs & _).
  apply (f_equal (@length char)) in Hs. rewrite !length_app in Hs.
  destruct (length (after f) + length (before f) <? length s) eqn:Hlt.
  - apply Nat.ltb_lt in Hlt. apply IH; lia.
  - destruct (after f) as [|x t]; [reflexivity|].
    cbn [length] in Hs. apply IH; lia.
Qed.

(** Every tuple of [findall] is the groups of a match of the pattern. *)
Lemma findall_groups (r : regex) (s : str) (c : caps) :
  In c (findall r s) -> exists suf rest, rematch r suf = Some (rest, c).
Proof.
  unfold findall. generalize (S (length s)). intros n. revert s.
  induction n as [|n IH]; intros s H; [destruct H|].
  cbn [scan] in H. destruct (search r s) as [f|] eqn:E; [|destruct H].
  cbn [map snd] in H. destruct H as [<-|H].
  - apply search_found in E as (mid & _ & E). eauto.
  - destruct (length (after f) + length (before f) <? length s).
    + exact (IH _ H).
    + destruct (after f) as [|x t]; [destruct H | exact (IH _ H)].
Qed.

End MatcherFacts.

(** ** [parse_message]: the day marker *)

Section DayMarker.
Import PyStr Re Parser Notions.
Local Open Scope string_scope.

Lemma space_not_decimal (x : char) (t : str) :
  isdecimal x = true -> startswith (lit " day streak") (x :: t) = false.
Proof.
  intros Hx. cbn [lit startswith]. destruct (char_eqb _ x) eqn:E;
    [|reflexivity].
  apply char_eqb_eq in E. subst x. vm_compute in Hx. discriminate.
Qed.

(** What [streak_pattern] matches at the head of a text. *)
Lemma rematch_streak (s : str) :
  rematch streak_pattern s =
  match s with
  | x :: t =>
      if isdecimal x then
        let rest := drop_while isdecimal t in
        if startswith (lit " day streak") rest
        then Some (skipn 11 rest, [(1, consumed s rest)])
        else None
      else None
  | [] => None
  end.
Proof.
  unfold rematch, streak_pattern, Plus. cbn [exec].
  destruct s as [|x t]; [reflexivity|].
  destruct (isdecimal x) eqn:Hx; [|reflexivity].
  rewrite (greedy_class isdecimal);
    [| reflexivity
     | intros y u c Hy; rewrite exec_Lit, space_not_decimal by exact Hy;
       reflexivity
     | lia].
  rewrite exec_Lit. cbv zeta.
  destruct (startswith _ _); reflexivity.
Qed.

Lemma rematch_streak_sound (s rest : str) (c : caps) :
  rematch streak_pattern s = Some (rest, c) ->
  exists ds, marker s [] ds rest /\ group_text 1 c = ds.
Proof.
  rewrite rematch_streak. destruct s as [|x t]; [discriminate|].
  destruct (isdecimal x) eqn:Hx; [|discriminate]. cbv zeta.
  destruct (startswith _ _) eqn:Hs; [|discriminate].
  intros H. injection H as <- <-.
  apply startswith_inv in Hs.
  set (ds := x :: take_while isdecimal t).
  assert (Heq : x :: t = ds ++ drop_while isdecimal t).
  { unfold ds. simpl. f_equal. apply take_drop_while. }
  exists ds. split.
  - split; [|split].
    + rewrite Heq at 1. rewrite app_nil_l. f_equal. exact Hs.
    + discriminate.
    + unfold ds. simpl. rewrite Hx. apply take_while_all.
  - unfold group_text. simpl. rewrite Heq. apply consumed_app.
Qed.

Lemma rematch_streak_complete (ds post : str) :
  ds <> [] -> forallb isdecimal ds = true ->
  rematch streak_pattern (ds ++ lit " day streak" ++ post)
  = Some (post, [(1, ds)]).
Proof.
  intros Hne Hds. rewrite rematch_streak.
  destruct ds as [|x ds]; [contradiction|].
  simpl in Hds. apply andb_true_iff in Hds as [Hx Hds].
  cbn [app]. rewrite Hx. cbv zeta.
  assert (Hd : drop_while isdecimal (ds ++ lit " day streak" ++ post)
               = lit " day streak" ++ post).
  { apply (drop_while_app isdecimal ds 32%N (lit "day streak" ++ post));
      [exact Hds | reflexivity]. }
  rewrite Hd.
  rewrite startswith_app.
  change 11 with (length (lit " day streak")).
  rewrite skipn_app, skipn_all, Nat.sub_diag. simpl skipn. cbn [app].
  change (x :: ds ++ lit " day streak" ++ post)
    with ((x :: ds) ++ lit " day streak" ++ post).
  rewrite consumed_app. reflexivity.
Qed.

(** [re.search] on [streak_pattern]: the first marker of the text, with the
    whole run of digits as group 1; no match when the text has no marker. *)
Lemma search_streak (msg : str) :
  match search streak_pattern msg with
  | Some m =>
      exists ds, marker msg (before m) ds (after m)
                 /\ group_text 1 (groups m) = ds
                 /\ forall pre' ds' post', marker msg pre' ds' post' ->
                      length (before m) <= length pre'
  | None => forall pre ds post, ~ marker msg pre ds post
  end.
Proof.
  destruct (search streak_pattern msg) as [m|] eqn:E.
  - apply search_from_before in E as (suf & H1 & H2 & H3). simpl in H1.
    apply rematch_streak_sound in H2 as (ds & (Hm & Hne & Hds) & Hg).
    exists ds. split; [|split].
    + split; [|split]; [|exact Hne|exact Hds].
      rewrite H1. f_equal. exact Hm.
    + exact Hg.
    + intros pre' ds' post' (Hm' & Hne' & Hds').
      destruct (Nat.le_gt_cases (length (before m)) (length pre'))
        as [Hle|Hlt]; [exact Hle|].
      specialize (H3 pre' _ Hm' (Nat.le_0_l _) Hlt).
      rewrite rematch_streak_complete in H3 by assumption. discriminate.
  - intros pre ds post (Hm & Hne & Hds).
    pose proof (@search_from_none _ _ _ E pre _ Hm) as H.
    rewrite rematch_streak_complete in H by assumption. discriminate.
Qed.

End DayMarker.

Section ParseMessage.
Import PyStr Re Parser Notions.
Local Open Scope string_scope.

(** [parse_message] raises only [ValueError], and only on a text without
    marker or on one whose first marker has a number [int] refuses. *)
Lemma parse_message_raise (msg : str) (e : exn) :
  parse_message msg = Raise e ->
  e = ValueError
  /\ ((forall pre ds post, ~ marker msg pre ds post)
      \/ exists pre ds post, first_marker msg pre ds post /\ too_long ds).
Proof.
  unfold parse_message. pose proof (search_streak msg) as H.
  destruct (search streak_pattern msg) as [m|].
  - destruct H as (ds & Hm & Hg & Hfirst). rewrite Hg.
    pose proof Hm as (_ & Hne & Hds).
    destruct (Z_le_gt_dec (Z.of_nat (length ds)) int_max_str_digits)
      as [Hle|Hgt].
    + destruct (int_of_digits Hne Hds Hle) as (z & -> & _). discriminate.
    + rewrite int_too_long by lia. intros He. injection He as <-.
      split; [reflexivity|]. right. exists (before m), ds, (after m).
      split; [split; assumption | unfold too_long; lia].
  - intros He. injection He as <-. split; [reflexivity | left; exact H].
Qed.

Lemma parse_message_no_marker (msg : str) :
  (forall pre ds post, ~ marker msg pre ds post) ->
  parse_message msg = Raise ValueError.
Proof.
  intros Hno. unfold parse_message. pose proof (search_streak msg) as H.
  destruct (search streak_pattern msg) as [m|]; [|reflexivity].
  destruct H as (ds & Hm & _). destruct (Hno _ _ _ Hm).
Qed.

(** C4 (amended): for every input text, [parse_message] locates the marker
    "<digits> day streak", written in lower case exactly as in the pattern
    (the match is case-sensitive), with decimal digits only for the number,
    and when there are several it takes the first one. When the number of
    that marker has at most 4300 digits the call returns, with the number as
    the day; it raises [ValueError] in the two other cases: the text has no
    such marker, or the number of the first one has more than 4300
    digits. *)
Theorem parse_message_first_marker (msg : str) :
  match parse_message msg with
  | Ok p =>
      exists pre ds post,
        marker msg pre ds post
        /\ int ds = Some (day p)
        /\ (Z.of_nat (length ds) <= 4300)%Z
        /\ forall pre' ds' post', marker msg pre' ds' post' ->
             length pre <= length pre'
  | Raise e =>
      e = ValueError
      /\ ((forall pre ds post, ~ marker msg pre ds post)
          \/ exists pre ds post,
               marker msg pre ds post
               /\ (4300 < Z.of_nat (length ds))%Z
               /\ forall pre' ds' post', marker msg pre' ds' post' ->
                    length pre <= length pre')
  end.
Proof.
  unfold parse_message. pose proof (search_streak msg) as H.
  destruct (search streak_pattern msg) as [m|].
  - destruct H as (ds & Hm & Hg & Hfirst). rewrite Hg.
    pose proof Hm as (_ & Hne & Hds).
    destruct (Z_le_gt_dec (Z.of_nat (length ds)) int_max_str_digits)
      as [Hle|Hgt].
    + destruct (int_of_digits Hne Hds Hle) as (z & Hz & _). rewrite Hz.
      exists (before m), ds, (after m). cbn [day].
      repeat split; try assumption; apply Hm.
    + rewrite int_too_long by lia. split; [reflexivity|]. right.
      exists (before m), ds, (after m). unfold int_max_str_digits in Hgt.
      split; [exact Hm|]. split; [lia | exact Hfirst].
  - split; [reflexivity | left; exact H].
Qed.

(** C4 as stated fails: a marker whose word "streak" is in capitals is a
    marker of the spec, and [parse_message] does not find it. *)
Lemma capital_streak_not_found :
  marker_any_case (lit "5 day STREAK") [] (lit "5") (lit "STREAK") []
  /\ parse_message (lit "5 day STREAK") = Raise ValueError.
Proof.
  split; [|vm_compute; reflexivity].
  repeat split; try reflexivity. discriminate.
Qed.

(** C5 as stated fails: the missing marker is not the only fatal parse
    error. A text whose marker has a number of 4301 digits has a marker, and
    [parse_message] raises [ValueError] on it. *)
Lemma overlong_number_raises :
  marker overlong_marker_message [] overlong_number []
  /\ parse_message overlong_marker_message = Raise ValueError.
Proof.
  split; [|vm_compute; reflexivity].
  split; [vm_compute; reflexivity|].
  split; [discriminate | vm_compute; reflexivity].
Qed.

(** With several markers the first one gives the day. *)
Example first_of_two_markers :
  parse_message (lit "7 day streak, then 8 day streak")
  = Ok {| day := 7; results := [] |}.
Proof. vm_compute. reflexivity. Qed.

(** C6: on the text of the spec's example, with the crown glyph U+1F451
    before the score marker, [parse_message] yields day 42 and the three
    results in order, but with the winner flag false for Alice and Bob: the
    pattern of the source holds four other code points where the glyph was
    meant. *)
Theorem parse_crown_message :
  parse_message crown_message
  = Ok {| day := 42;
          results :=
            [ {| username := lit "Alice"; score := lit "3";
                 is_winner := false |};
              {| username := lit "Bob"; score := lit "3";
                 is_winner := false |};
              {| username := lit "Carol"; score := lit "5";
                 is_winner := false |} ] |}.
Proof. vm_compute. reflexivity. Qed.

(** The same holds when the two characters backslash and n stand where the
    line break is. *)
Example parse_crown_message_backslash_n :
  parse_message
    (lit "42 day streak\n" ++ crown_glyph
     ++ lit " 3/6: @Alice@Bob 5/6: @Carol")
  = parse_message crown_message.
Proof. vm_compute. reflexivity. Qed.

(** The result the spec expects is what the text gives when the crown is
    written with the code points the source file stores. *)
Lemma parse_crown_message_as_stored :
  parse_message crown_message_as_stored
  = Ok {| day := 42;
          results :=
            [ {| username := lit "Alice"; score := lit "3";
                 is_winner := true |};
              {| username := lit "Bob"; score := lit "3";
                 is_winner := true |};
              {| username := lit "Carol"; score := lit "5";
                 is_winner := false |} ] |}.
Proof. vm_compute. reflexivity. Qed.

(** *** What [parse_message] returns *)

(** Group 2 of a score line is one character of [[1-6X]]. *)
Lemma rematch_score_token (s rest : str) (c : caps) :
  rematch score_pattern s = Some (rest, c) ->
  exists x, score_token x = true /\ group_text 2 c = [x].
Proof.
  unfold rematch, score_pattern. intros H.
  rewrite exec_Cat in H.
  apply exec_inv in H as (pre1 & s1 & a1 & -> & _ & H). cbv beta in H.
  rewrite exec_Cat, exec_Group, exec_Cls in H.
  destruct s1 as [|x t]; [discriminate|].
  destruct (score_token x) eqn:Hx; [|discriminate].
  apply exec_inv in H as (pre2 & s2 & a2 & -> & Ha2 & H).
  unfold accept in H. injection H as _ <-.
  exists x. split; [exact Hx|]. unfold group_text.
  rewrite group_after.
  - change (x :: pre2 ++ s2) with ([x] ++ pre2 ++ s2). rewrite consumed_app.
    reflexivity.
  - apply Forall_impl with (2 := Ha2). intros [m w] Hm. cbn [fst].
    cbn in Hm. destruct Hm as [<-|[]]. discriminate.
Qed.

Lemma block_results_in (crown sc usernames : str) (r : parsed_result) :
  In r (block_results crown sc usernames) ->
  score r = sc /\ username r <> [].
Proof.
  unfold block_results. intros H. apply in_flat_map in H as (part & _ & H).
  destruct (rematch username_pattern part) as [[rest c]|]; [|destruct H].
  destruct (nonempty (strip (group_text 1 c))); [|destruct H].
  destruct (nonempty (strip (sub_empty trailing_punctuation
                               (strip (group_text 1 c))))) eqn:E;
    [|destruct H].
  cbn [andb] in H. destruct (0 <? _); [|destruct H].
  destruct H as [<-|[]].
  split; [reflexivity|]. cbn [username]. intros Hnil.
  rewrite Hnil in E. discriminate.
Qed.

(** Every result of a parsed message has a score token and a name that is
    not empty. *)
Lemma parse_message_tokens (msg : str) (p : parsed) :
  parse_message msg = Ok p ->
  Forall (fun r => is_score_token (score r) = true /\ username r <> [])
    (Parser.results p).
Proof.
  unfold parse_message.
  destruct (search streak_pattern msg) as [m|]; [|discriminate].
  destruct (int _) as [d|]; [|discriminate].
  intros H. injection H as <-. cbn [Parser.results].
  apply Forall_forall. intros r Hr.
  apply in_flat_map in Hr as (c & Hc & Hr).
  apply block_results_in in Hr as [Hs Hu]. split; [|exact Hu].
  apply findall_groups in Hc as (suf & rest & Hc).
  apply rematch_score_token in Hc as (x & Hx & Hg).
  rewrite Hs, Hg. exact Hx.
Qed.

End ParseMessage.

(** ** Transactions *)

Section Transactions.
Import PyStr Sqlite Notions.
Local Open Scope py_scope.

Lemma bind_inv {A B : Type} (m : M A) (f : A -> M B) (s s' : session)
    (o : outcome B) :
  bind m f s = (o, s') ->
  (exists a s1, m s = (Ok a, s1) /\ f a s1 = (o, s'))
  \/ (exists e, m s = (Raise e, s') /\ o = Raise e).
Proof.
  unfold bind. destruct (m s) as [[a|e] s1]; intros H.
  - left. exists a, s1. split; [reflexivity | exact H].
  - right. exists e. injection H as <- <-. split; reflexivity.
Qed.

Lemma uncommitted_ret {A : Type} (F : faults) (a : A) :
  uncommitted F 0 (ret a).
Proof.
  intros s o s' H. injection H as <- <-. split; [reflexivity|].
  intros _ _. split; [lia | intros i Hi; lia].
Qed.

Lemma uncommitted_raise {A : Type} (F : faults) (e : exn) :
  uncommitted F 0 (@raise A e).
Proof.
  intros s o s' H. injection H as <- <-. split; [reflexivity|].
  intros a Ha. discriminate.
Qed.

Lemma uncommitted_write_int (F : faults) (z : Z) (f : database -> database) :
  uncommitted F 1 (execute_write_int F z f).
Proof.
  intros s o s'. unfold execute_write_int.
  destruct (F (executed s)) eqn:E; [|destruct (fits_int64 z)];
    intros H; injection H as <- <-;
    (split; [reflexivity|]); intros a Ha; try discriminate.
  split; [simpl; lia|]. intros i Hi.
  replace i with (executed s) by lia. exact E.
Qed.

(** With a parameter that fits, the statement runs as one without. *)
Lemma execute_write_int_fits (F : faults) (z : Z) (f : database -> database)
    (s : session) :
  fits_int64 z = true -> execute_write_int F z f s = execute_write F f s.
Proof.
  intros H. unfold execute_write_int, execute_write. rewrite H. reflexivity.
Qed.

Lemma execute_read_int_fits (F : faults) (z : Z) {A : Type}
    (q : database -> A) (s : session) :
  fits_int64 z = true -> execute_read_int F z q s = execute_read F q s.
Proof.
  intros H. unfold execute_read_int, execute_read. rewrite H. reflexivity.
Qed.

Lemma uncommitted_write (F : faults) (f : database -> database) :
  uncommitted F 1 (execute_write F f).
Proof.
  intros s o s'. unfold execute_write.
  destruct (F (executed s)) eqn:E; intros H; injection H as <- <-;
    (split; [reflexivity|]); intros a Ha; [discriminate|].
  split; [simpl; lia|]. intros i Hi.
  replace i with (executed s) by lia. exact E.
Qed.

Lemma uncommitted_read (F : faults) {A : Type} (q : database -> A) :
  uncommitted F 1 (execute_read F q).
Proof.
  intros s o s'. unfold execute_read.
  destruct (F (executed s)) eqn:E; intros H; injection H as <- <-;
    (split; [reflexivity|]); intros a Ha; [discriminate|].
  split; [simpl; lia|]. intros i Hi.
  replace i with (executed s) by lia. exact E.
Qed.

Lemma uncommitted_bind {A B : Type} (F : faults) (n k : nat) (m : M A)
    (f : A -> M B) :
  uncommitted F n m -> (forall a, uncommitted F k (f a)) ->
  uncommitted F (n + k) (bind m f).
Proof.
  intros Hm Hf s o s' H. apply bind_inv in H as [(a & s1 & H1 & H2)|(e & H1 & ->)].
  - destruct (Hm _ _ _ H1) as [Hd Hok].
    destruct (Hok a eq_refl) as [Hn HF].
    destruct (Hf a _ _ _ H2) as [Hd' Hok'].
    split; [congruence|]. intros b Hb.
    destruct (Hok' b Hb) as [Hn' HF'].
    split; [lia|]. intros i Hi.
    destruct (Nat.lt_ge_cases i (executed s + n)) as [Hlt|Hge].
    + apply HF. lia.
    + apply HF'. lia.
  - destruct (Hm _ _ _ H1) as [Hd _]. split; [exact Hd|]. discriminate.
Qed.

End Transactions.

(** ** [add_streak_data] *)

Section Ingestion.
Import PyStr Parser Sqlite Tracker Notions.
Local Open Scope py_scope.

Variable now : timestamp.

Local Abbreviation apply_result := (Notions.apply_result now).
Local Abbreviation apply_results := (Notions.apply_results now).
Local Abbreviation ingested := (Notions.ingested now).

Lemma uncommitted_add_user (F : faults) (u : str) :
  uncommitted F 2 (add_user F now u).
Proof.
  unfold add_user. apply (uncommitted_bind (n := 1) (k := 1)).
  - apply uncommitted_write.
  - intros _. apply (uncommitted_bind (n := 1) (k := 0)).
    + apply uncommitted_read.
    + intros [id|]; [apply uncommitted_ret | apply uncommitted_raise].
Qed.

Lemma uncommitted_add_results (F : faults) (d : Z) (rs : list parsed_result) :
  uncommitted F (3 * length rs) (add_results F now d rs).
Proof.
  induction rs as [|r rs IH]; cbn [add_results].
  - apply uncommitted_ret.
  - replace (3 * length (r :: rs)) with (2 + (1 + 3 * length rs))
      by (simpl; lia).
    apply uncommitted_bind; [apply uncommitted_add_user|].
    intros uid. apply uncommitted_bind; [apply uncommitted_write|].
    intros _. exact IH.
Qed.

(** A call made to fail among those of the transaction: [ingest] raises and
    the file is as before. *)
Lemma ingest_fault (F : faults) (p : parsed) (db : database) (i : nat) :
  i < writes_of (length (Parser.results p)) -> F i = true ->
  exists e s', ingest F now p (start db) = (Raise e, s') /\ disk s' = db.
Proof.
  intros Hi HFi.
  destruct (ingest F now p (start db)) as [o s'] eqn:E.
  unfold ingest in E.
  apply bind_inv in E as [(b & s2 & H2 & E)|(e & H2 & ->)].
  2:{ exists e, s'. split; [reflexivity|].
      destruct (uncommitted_write_int F _ _ _ H2) as [Hd _]. exact Hd. }
  destruct (uncommitted_write_int F _ _ _ H2) as [Hd2 Hok2].
  destruct (Hok2 b eq_refl) as [Hn2 HF2]. clear Hok2. simpl in Hd2.
  apply bind_inv in E as [(c & s3 & H3 & E)|(e & H3 & ->)].
  2:{ exists e, s'. split; [reflexivity|].
      destruct (uncommitted_add_results F _ _ _ H3) as [Hd _]. congruence. }
  destruct (uncommitted_add_results F _ _ _ H3) as [Hd3 Hok3].
  destruct (Hok3 c eq_refl) as [Hn3 HF3]. clear Hok3.
  simpl in Hn2, HF2. unfold writes_of in Hi.
  apply bind_inv in E as [(u & s4 & H4 & E)|(e & H4 & ->)].
  - exfalso. unfold commit in H4.
    destruct (F (executed s3)) eqn:E4; [discriminate|].
    assert (F i = false); [|congruence].
    destruct (Nat.eq_dec i (executed s3)) as [->|Hne]; [exact E4|].
    destruct (Nat.lt_ge_cases i (executed s2)) as [Hlt|Hge].
    + apply HF2. lia.
    + apply HF3. lia.
  - exists e, s'. split; [reflexivity|]. unfold commit in H4.
    destruct (F (executed s3)); [|discriminate].
    injection H4 as _ <-. simpl. congruence.
Qed.

(** [add_streak_data] in terms of [ingest]: the handlers and [close] leave
    the content of the file as [ingest] left it. *)
Lemma add_streak_data_ingest (F : faults) (msg : str) (db : database)
    (p : parsed) :
  parse_message msg = Ok p ->
  add_streak_data F now msg db
  = (fst (ingest F now p (start db)), disk (snd (ingest F now p (start db)))).
Proof.
  intros Hp. unfold add_streak_data. rewrite Hp.
  unfold finish, try_finally, try_except.
  destruct (ingest F now p (start db)) as [[sm|e] s']; reflexivity.
Qed.

(** What a call that returns reports: the count is read from the file after
    the commit. *)
Lemma ingest_ok (F : faults) (p : parsed) (s0 s' : session) (sm : summary) :
  ingest F now p s0 = (Ok sm, s') ->
  sm = {| sum_day := day p;
          results_added := count_results_of_day (day p) (disk s');
          users_in_day := map username (Parser.results p) |}.
Proof.
  unfold ingest. intros E.
  apply bind_inv in E as [(b & s2 & _ & E)|(e & _ & E)]; [|discriminate].
  apply bind_inv in E as [(c & s3 & _ & E)|(e & _ & E)]; [|discriminate].
  apply bind_inv in E as [(u & s4 & H4 & E)|(e & _ & E)]; [|discriminate].
  apply bind_inv in E as [(n & s5 & H5 & E)|(e & _ & E)]; [|discriminate].
  unfold commit in H4. destruct (F (executed s3)); [discriminate|].
  injection H4 as _ <-.
  unfold execute_read in H5. cbn [executed pending view disk] in H5.
  destruct (F _); [discriminate|]. injection H5 as <- <-.
  injection E as <- <-. reflexivity.
Qed.

(** A day number that does not fit: the storage error when the first call
    fails, [OverflowError] otherwise, and the file as before. *)
Lemma ingest_overflow (F : faults) (p : parsed) (db : database) :
  fits_int64 (day p) = false ->
  fst (ingest F now p (start db))
  = Raise (if F 0 then OperationalError else OverflowError)
  /\ disk (snd (ingest F now p (start db))) = db.
Proof.
  intros Hfit. unfold ingest, bind, execute_write_int, start.
  cbn [executed]. rewrite Hfit. destruct (F 0); split; reflexivity.
Qed.

(** *** A run in which no call fails *)

Lemma existsb_find {A : Type} (f : A -> bool) (l : list A) :
  existsb f l = match find f l with Some _ => true | None => false end.
Proof.
  induction l as [|x l IH]; simpl; [reflexivity|].
  destruct (f x); [reflexivity | exact IH].
Qed.

Lemma find_app {A : Type} (f : A -> bool) (l l' : list A) :
  find f (l ++ l') = match find f l with Some x => Some x | None => find f l' end.
Proof.
  induction l as [|x l IH]; simpl; [reflexivity|].
  destruct (f x); [reflexivity | exact IH].
Qed.

Lemma select_insert (u : str) (db : database) :
  select_user_id u (insert_or_ignore_user now u db)
  = Some (user_id_after u db).
Proof.
  unfold insert_or_ignore_user, user_id_after, select_user_id. cbn [users].
  rewrite existsb_find.
  destruct (find (has_name u) (users db)) as [r|] eqn:E.
  - rewrite E. reflexivity.
  - rewrite find_app, E. cbn [find].
    unfold has_name at 1. cbn [user_name user_id].
    rewrite str_eqb_refl. reflexivity.
Qed.

Lemma add_results_run (F : faults) (d : Z) (rs : list parsed_result)
    (dk db0 : database) (n : nat) :
  (forall i, n <= i < n + 3 * length rs -> F i = false) ->
  add_results F now d rs
    {| disk := dk; pending := Some db0; executed := n |}
  = (Ok tt, {| disk := dk; pending := Some (apply_results d rs db0);
               executed := n + 3 * length rs |}).
Proof.
  revert db0 n. induction rs as [|r rs IH]; intros db0 n HF.
  - cbn [add_results Notions.apply_results length]. unfold ret.
    do 2 f_equal. lia.
  - cbn [length] in HF.
    cbn [add_results Notions.apply_results]. unfold add_user.
    unfold bind at 1 2. unfold execute_write at 1.
    cbn [executed view pending step disk].
    rewrite (HF n) by lia.
    unfold bind at 1. unfold execute_read at 1.
    cbn [executed view pending step disk].
    rewrite (HF (S n)) by lia.
    rewrite select_insert. unfold ret at 1.
    unfold bind at 1. unfold execute_write at 1.
    cbn [executed view pending step disk].
    rewrite (HF (S (S n))) by lia.
    unfold step. cbn [executed view pending disk].
    rewrite IH by (intros i Hi; apply HF; lia).
    do 2 f_equal. cbn [length]. lia.
Qed.

Lemma add_results_no_faults (d : Z) (rs : list parsed_result)
    (dk db0 : database) (n : nat) :
  add_results no_faults now d rs
    {| disk := dk; pending := Some db0; executed := n |}
  = (Ok tt, {| disk := dk; pending := Some (apply_results d rs db0);
               executed := n + 3 * length rs |}).
Proof. apply add_results_run. reflexivity. Qed.

(** Once the commit has gone through, the file holds the ingested content,
    whatever becomes of the count that is read next. *)
Lemma ingest_committed (F : faults) (p : parsed) (db : database) :
  fits_int64 (day p) = true ->
  (forall i, i < writes_of (length (Parser.results p)) -> F i = false) ->
  disk (snd (ingest F now p (start db))) = ingested p db.
Proof.
  intros Hfit HF. unfold writes_of in HF.
  unfold ingest.
  unfold bind at 1. rewrite execute_write_int_fits by exact Hfit.
  unfold execute_write at 1, start.
  cbn [executed view pending step disk]. rewrite (HF 0) by lia.
  unfold step. cbn [executed view pending disk].
  unfold bind at 1. rewrite add_results_run by (intros i Hi; apply HF; lia).
  unfold bind at 1. unfold commit at 1.
  cbn [executed view pending step disk]. rewrite HF by lia.
  unfold bind, execute_read, ret.
  cbn [executed view pending step disk].
  destruct (F _); reflexivity.
Qed.

Lemma ingest_no_faults (p : parsed) (db : database) :
  fits_int64 (day p) = true ->
  ingest no_faults now p (start db)
  = (Ok {| sum_day := day p;
           results_added := count_results_of_day (day p) (ingested p db);
           users_in_day := map username (Parser.results p) |},
     {| disk := ingested p db; pending := None;
        executed := S (writes_of (length (Parser.results p))) |}).
Proof.
  intros Hfit. unfold ingest.
  unfold bind at 1. rewrite execute_write_int_fits by exact Hfit.
  unfold execute_write at 1, no_faults at 1, start.
  cbn [executed view pending step disk].
  unfold step. cbn [executed view pending disk].
  unfold bind at 1. rewrite add_results_no_faults.
  unfold bind at 1. unfold commit at 1, no_faults at 1.
  cbn [executed view pending step disk].
  unfold bind, execute_read, no_faults, ret.
  cbn [executed view pending step disk].
  unfold Notions.ingested, writes_of, step. cbn [executed pending disk].
  do 2 f_equal. lia.
Qed.

Lemma add_streak_data_no_faults (msg : str) (p : parsed) (db : database) :
  parse_message msg = Ok p -> fits_int64 (day p) = true ->
  add_streak_data no_faults now msg db
  = (Ok {| sum_day := day p;
           results_added := count_results_of_day (day p) (ingested p db);
           users_in_day := map username (Parser.results p) |},
     ingested p db).
Proof.
  intros Hp Hfit. rewrite (@add_streak_data_ingest no_faults msg db p Hp).
  rewrite (@ingest_no_faults p db Hfit). reflexivity.
Qed.

(** C2: for every ingestion call, when a call into the storage layer made
    during the transaction fails (the insertion of the day, one of the three
    calls made for a result, or the commit), [add_streak_data] raises and the
    content of the file is what it was before the call: none of the results
    of the message is stored, and no streak row has been added for the
    day. *)
Theorem failed_write_rolls_back (F : faults) (msg : str) (p : parsed)
    (db : database) (i : nat) :
  parse_message msg = Ok p ->
  i < writes_of (length (Parser.results p)) -> F i = true ->
  exists e, add_streak_data F now msg db = (Raise e, db).
Proof.
  intros Hp Hi HF. rewrite (@add_streak_data_ingest F msg db p Hp).
  destruct (@ingest_fault F p db i Hi HF) as (e & s' & -> & <-).
  exists e. reflexivity.
Qed.

(** C5 (amended): for every input text without a day marker,
    [parse_message] raises [ValueError], [add_streak_data] raises it in turn
    and leaves the content of the file as it was. The missing marker is not
    the only fatal parse error: [parse_message] raises [ValueError] also on
    a text whose first marker has a number of more than 4300 digits, and in
    no other case; whenever it raises, [add_streak_data] raises [ValueError]
    and the file is as it was. *)
Theorem no_marker_no_mutation (F : faults) (msg : str) (db : database) :
  (forall pre ds post, ~ marker msg pre ds post) ->
  parse_message msg = Raise ValueError
  /\ add_streak_data F now msg db = (Raise ValueError, db)
  /\ forall msg' e, parse_message msg' = Raise e ->
       e = ValueError
       /\ add_streak_data F now msg' db = (Raise ValueError, db)
       /\ ((forall pre ds post, ~ marker msg' pre ds post)
           \/ exists pre ds post,
                first_marker msg' pre ds post /\ too_long ds).
Proof.
  intros Hno. pose proof (@parse_message_no_marker msg Hno) as Hp.
  split; [exact Hp|]. split.
  - unfold add_streak_data. rewrite Hp. reflexivity.
  - intros msg' e He.
    destruct (@parse_message_raise msg' e He) as [-> Hwhy].
    split; [reflexivity|]. split; [|exact Hwhy].
    unfold add_streak_data. rewrite He. reflexivity.
Qed.

(** C10: for every call of [add_streak_data] that returns, the count
    [results_added] is the number of results the file holds for the day
    after the commit, whichever ingestion stored them. *)
Theorem results_added_is_day_total (F : faults) (msg : str)
    (db db' : database) (sm : summary) :
  add_streak_data F now msg db = (Ok sm, db') ->
  results_added sm
  = Z.of_nat (length (filter (on_day (sum_day sm)) (results db'))).
Proof.
  destruct (parse_message msg) as [p|e] eqn:Hp.
  - rewrite (@add_streak_data_ingest F msg db p Hp).
    destruct (ingest F now p (start db)) as [o s'] eqn:E.
    cbn [fst snd]. intros H. injection H as -> <-.
    apply ingest_ok in E. rewrite E. reflexivity.
  - unfold add_streak_data. rewrite Hp. discriminate.
Qed.

(** *** The result stored for a (day, user) pair *)

Lemma max_ge (seq : Z) (ids : list Z) (x : Z) :
  In x ids -> (x <= fold_right Z.max seq ids)%Z.
Proof.
  induction ids as [|y ids IH]; simpl; [contradiction|].
  intros [->|H]; [lia | specialize (IH H); lia].
Qed.

Lemma next_id_fresh (seq : Z) (ids : list Z) : ~ In (next_id seq ids) ids.
Proof.
  intros H. apply (max_ge seq) in H. unfold next_id in H. lia.
Qed.

Lemma NoDup_snoc {A : Type} (l : list A) (x : A) :
  NoDup l -> ~ In x l -> NoDup (l ++ [x]).
Proof.
  intros Hl Hx. induction Hl as [|y l Hy Hl IH]; simpl.
  - constructor; [intros [] | constructor].
  - constructor.
    + rewrite in_app_iff. simpl. intros [H|[->|[]]]; [contradiction|].
      apply Hx. left. reflexivity.
    + apply IH. intros H. apply Hx. right. exact H.
Qed.

Lemma user_ids_insert_user (v : str) (db : database) :
  NoDup (map user_id (users db)) ->
  NoDup (map user_id (users (insert_or_ignore_user now v db))).
Proof.
  intros H. unfold insert_or_ignore_user. cbn [users].
  destruct (existsb (has_name v) (users db)); [exact H|].
  rewrite map_app. cbn [map user_id].
  apply NoDup_snoc; [exact H | apply next_id_fresh].
Qed.

Lemma select_insert_other (u v : str) (db : database) (uid : Z) :
  select_user_id u db = Some uid ->
  select_user_id u (insert_or_ignore_user now v db) = Some uid.
Proof.
  unfold select_user_id, insert_or_ignore_user. cbn [users].
  destruct (existsb (has_name v) (users db)); [tauto|].
  rewrite find_app.
  destruct (find (has_name u) (users db)); [tauto | discriminate].
Qed.

(** Two names that select the same id are the same name, when ids are
    unique. *)
Lemma select_injective (u v : str) (db : database) (uid : Z) :
  NoDup (map user_id (users db)) ->
  select_user_id u db = Some uid -> select_user_id v db = Some uid -> u = v.
Proof.
  unfold select_user_id. intros Hnd Hu Hv.
  destruct (find (has_name u) (users db)) as [ru|] eqn:Eu; [|discriminate].
  destruct (find (has_name v) (users db)) as [rv|] eqn:Ev; [|discriminate].
  injection Hu as Hu. injection Hv as Hv.
  apply find_some in Eu as [Iu Nu]. apply find_some in Ev as [Iv Nv].
  assert (ru = rv) as ->.
  { clear Nu Nv. induction (users db) as [|x l IH]; [contradiction|].
    simpl in Hnd. apply NoDup_cons_iff in Hnd as [Hx Hl].
    destruct Iu as [->|Iu], Iv as [->|Iv].
    - reflexivity.
    - exfalso. apply Hx. rewrite Hu, <- Hv. apply in_map, Iv.
    - exfalso. apply Hx. rewrite Hv, <- Hu. apply in_map, Iu.
    - apply IH; assumption. }
  apply str_eqb_eq in Nu, Nv. congruence.
Qed.

Lemma filter_filter_absorb {A : Type} (f g : A -> bool) (l : list A) :
  (forall x, f x = true -> g x = true) ->
  filter f (filter g l) = filter f l.
Proof.
  intros H. induction l as [|x l IH]; simpl; [reflexivity|].
  destruct (g x) eqn:Eg; simpl.
  - rewrite IH. reflexivity.
  - destruct (f x) eqn:Ef; [|exact IH].
    rewrite (H x Ef) in Eg. discriminate.
Qed.

Lemma filter_filter_none {A : Type} (f : A -> bool) (l : list A) :
  filter f (filter (fun x => negb (f x)) l) = [].
Proof.
  induction l as [|x l IH]; simpl; [reflexivity|].
  destruct (f x) eqn:Ef; simpl; [exact IH|]. rewrite Ef. exact IH.
Qed.

Lemma replace_same_pair (d uid : Z) (sc : str) (w : bool) (db : database) :
  stored d uid sc w (insert_or_replace_result d uid sc w db).
Proof.
  unfold stored, insert_or_replace_result. cbn [results].
  eexists. rewrite filter_app, filter_filter_none. cbn [filter app].
  unfold for_pair at 1. cbn [r_streak_day r_user_id].
  rewrite !Z.eqb_refl. reflexivity.
Qed.

Lemma replace_other_pair (d uid uid' : Z) (sc : str) (w : bool)
    (db : database) :
  uid' <> uid ->
  filter (for_pair d uid) (results (insert_or_replace_result d uid' sc w db))
  = filter (for_pair d uid) (results db).
Proof.
  intros Hne. unfold insert_or_replace_result. cbn [results].
  rewrite filter_app. cbn [filter].
  match goal with
  | |- context [if ?b then _ else _] =>
      assert (Hb : b = false)
        by (unfold for_pair; cbn [r_streak_day r_user_id];
            apply andb_false_iff; right; apply Z.eqb_neq, Hne);
      rewrite Hb
  end.
  rewrite app_nil_r.
  apply filter_filter_absorb. intros x. unfold for_pair.
  rewrite !andb_true_iff, !Z.eqb_eq. intros [_ Hx].
  replace (r_user_id x =? uid')%Z with false
    by (symmetry; apply Z.eqb_neq; congruence).
  rewrite andb_false_r. reflexivity.
Qed.

Lemma apply_results_cons (d : Z) (r : parsed_result)
    (rs : list parsed_result) (db : database) :
  apply_results d (r :: rs) db = apply_results d rs (apply_result d r db).
Proof. reflexivity. Qed.

Lemma apply_results_app (d : Z) (a b : list parsed_result) (db : database) :
  apply_results d (a ++ b) db = apply_results d b (apply_results d a db).
Proof.
  revert db. induction a as [|r a IH]; intros db; [reflexivity|].
  cbn [app]. rewrite !apply_results_cons. apply IH.
Qed.

Lemma apply_result_user_ids (d : Z) (r : parsed_result) (db : database) :
  NoDup (map user_id (users db)) ->
  NoDup (map user_id (users (apply_result d r db))).
Proof. intros H. apply (user_ids_insert_user (username r)) in H. exact H. Qed.

Lemma apply_results_user_ids (d : Z) (rs : list parsed_result)
    (db : database) :
  NoDup (map user_id (users db)) ->
  NoDup (map user_id (users (apply_results d rs db))).
Proof.
  revert db. induction rs as [|r rs IH]; intros db H; [exact H|].
  rewrite apply_results_cons. apply IH, apply_result_user_ids, H.
Qed.

Lemma apply_result_select (d : Z) (r : parsed_result) (db : database)
    (u : str) (uid : Z) :
  select_user_id u db = Some uid ->
  select_user_id u (apply_result d r db) = Some uid.
Proof.
  intros H. apply (@select_insert_other u (username r)) in H. exact H.
Qed.

Lemma apply_results_select (d : Z) (rs : list parsed_result) (db : database)
    (u : str) (uid : Z) :
  select_user_id u db = Some uid ->
  select_user_id u (apply_results d rs db) = Some uid.
Proof.
  revert db. induction rs as [|r rs IH]; intros db H; [exact H|].
  rewrite apply_results_cons. apply IH, apply_result_select, H.
Qed.

Lemma apply_result_same (d : Z) (r : parsed_result) (db : database) :
  select_user_id (username r) (apply_result d r db)
  = Some (user_id_after (username r) db)
  /\ stored d (user_id_after (username r) db) (score r) (is_winner r)
       (apply_result d r db).
Proof.
  split; [|apply replace_same_pair].
  exact (select_insert (username r) db).
Qed.

Lemma apply_result_other (d : Z) (r' : parsed_result) (db : database)
    (u : str) (uid : Z) (sc : str) (w : bool) :
  NoDup (map user_id (users db)) -> username r' <> u ->
  select_user_id u db = Some uid -> stored d uid sc w db ->
  stored d uid sc w (apply_result d r' db).
Proof.
  intros Hnd Hne Hsel [rid Hst]. exists rid. unfold Notions.apply_result.
  rewrite replace_other_pair.
  - exact Hst.
  - intros Heq. apply Hne.
    apply (@select_injective (username r') u
             (insert_or_ignore_user now (username r') db) uid).
    + apply user_ids_insert_user, Hnd.
    + rewrite select_insert, Heq. reflexivity.
    + apply select_insert_other, Hsel.
Qed.

Lemma apply_results_keep (d : Z) (rs : list parsed_result) (db : database)
    (u : str) (uid : Z) (sc : str) (w : bool) :
  NoDup (map user_id (users db)) -> not_later u rs ->
  select_user_id u db = Some uid -> stored d uid sc w db ->
  stored d uid sc w (apply_results d rs db).
Proof.
  revert db. induction rs as [|r rs IH]; intros db Hnd Hrs Hsel Hst;
    [exact Hst|].
  rewrite apply_results_cons. apply IH.
  - apply apply_result_user_ids, Hnd.
  - intros r' Hr'. apply Hrs. right. exact Hr'.
  - apply apply_result_select, Hsel.
  - apply (@apply_result_other d r db u uid sc w); try assumption.
    apply Hrs. left. reflexivity.
Qed.

(** After the loop, the last result the message has for a user is the one
    result stored for the day and that user. *)
Lemma apply_results_last (d : Z) (pre post : list parsed_result)
    (r : parsed_result) (db : database) :
  NoDup (map user_id (users db)) -> not_later (username r) post ->
  exists uid,
    select_user_id (username r) (apply_results d (pre ++ r :: post) db)
    = Some uid
    /\ stored d uid (score r) (is_winner r)
         (apply_results d (pre ++ r :: post) db)
    /\ forall uid0, select_user_id (username r) db = Some uid0 -> uid = uid0.
Proof.
  intros Hnd Hpost. rewrite apply_results_app, apply_results_cons.
  set (db1 := apply_results d pre db).
  assert (Hnd1 : NoDup (map user_id (users db1)))
    by apply apply_results_user_ids, Hnd.
  destruct (apply_result_same d r db1) as [Hsel Hst].
  exists (user_id_after (username r) db1). split; [|split].
  - apply apply_results_select, Hsel.
  - apply (@apply_results_keep d post _ (username r)); try assumption.
    apply apply_result_user_ids, Hnd1.
  - intros uid0 H0. unfold user_id_after.
    apply (apply_results_select d pre) in H0. fold db1 in H0.
    rewrite H0. reflexivity.
Qed.

Lemma apply_results_streaks (d : Z) (rs : list parsed_result)
    (db : database) :
  streaks (apply_results d rs db) = streaks db.
Proof.
  revert db. induction rs as [|r rs IH]; intros db; [reflexivity|].
  rewrite apply_results_cons, IH. reflexivity.
Qed.

Lemma ingested_streaks (p : parsed) (db : database) :
  existsb (has_day (day p)) (streaks db) = true ->
  streaks (ingested p db) = streaks db.
Proof.
  intros H. unfold Notions.ingested. rewrite apply_results_streaks.
  unfold insert_or_ignore_streak. cbn [streaks]. rewrite H. reflexivity.
Qed.

Lemma ingested_last (p : parsed) (db : database)
    (pre post : list parsed_result) (r : parsed_result) :
  NoDup (map user_id (users db)) ->
  Parser.results p = pre ++ r :: post -> not_later (username r) post ->
  exists uid,
    select_user_id (username r) (ingested p db) = Some uid
    /\ stored (day p) uid (score r) (is_winner r) (ingested p db)
    /\ forall uid0, select_user_id (username r) db = Some uid0 -> uid = uid0.
Proof.
  intros Hnd Hrs Hpost. unfold Notions.ingested. rewrite Hrs.
  assert (Hu : users (insert_or_ignore_streak now (day p) db) = users db)
    by reflexivity.
  destruct (@apply_results_last (day p) pre post r
              (insert_or_ignore_streak now (day p) db))
    as (uid & H1 & H2 & H3); [rewrite Hu; exact Hnd | exact Hpost |].
  exists uid. split; [exact H1|]. split; [exact H2|].
  intros uid0 H0. apply H3. unfold select_user_id in *. rewrite Hu. exact H0.
Qed.

(** *** The constraints of the schema are kept *)

Lemma NoDup_map_filter {A B : Type} (f : A -> B) (g : A -> bool)
    (l : list A) :
  NoDup (map f l) -> NoDup (map f (filter g l)).
Proof.
  induction l as [|x l IH]; simpl; intros H; [exact H|].
  apply NoDup_cons_iff in H as [Hx Hl]. destruct (g x); simpl.
  - constructor; [|exact (IH Hl)].
    intros Hin. apply Hx. apply in_map_iff in Hin as (y & Hy & Hin).
    apply filter_In in Hin as [Hin _]. rewrite <- Hy. apply in_map, Hin.
  - exact (IH Hl).
Qed.

Lemma Forall_filter_keep {A : Type} (P : A -> Prop) (g : A -> bool)
    (l : list A) :
  Forall P l -> Forall P (filter g l).
Proof.
  rewrite !Forall_forall. intros H x Hx.
  apply filter_In in Hx as [Hx _]. exact (H x Hx).
Qed.

Lemma well_formed_empty : well_formed empty_database.
Proof. split; simpl; constructor. Qed.

Lemma well_formed_insert_streak (d : Z) (db : database) :
  fits_int64 d = true -> well_formed db ->
  well_formed (insert_or_ignore_streak now d db).
Proof.
  intros Hfit [H1 H2 H3 H4 H5 H6 H7 H8]. unfold insert_or_ignore_streak.
  destruct (existsb (has_day d) (streaks db)) eqn:E; [split; assumption|].
  split; cbn [users streaks results]; try assumption.
  - rewrite map_app. apply NoDup_snoc; [exact H3 | apply next_id_fresh].
  - rewrite map_app. apply NoDup_snoc; [exact H4|]. cbn [map streak_day].
    intros Hin. apply in_map_iff in Hin as (row & Hd & Hin).
    assert (existsb (has_day d) (streaks db) = true); [|congruence].
    apply existsb_exists. exists row. split; [exact Hin|].
    unfold has_day. apply Z.eqb_eq, Hd.
  - apply Forall_app. split; [exact H7|]. constructor; [exact Hfit|constructor].
Qed.

Lemma well_formed_insert_user (u : str) (db : database) :
  well_formed db -> well_formed (insert_or_ignore_user now u db).
Proof.
  intros [H1 H2 H3 H4 H5 H6 H7 H8]. unfold insert_or_ignore_user.
  destruct (existsb (has_name u) (users db)) eqn:E; [split; assumption|].
  split; cbn [users streaks results]; try assumption.
  - rewrite map_app. apply NoDup_snoc; [exact H1 | apply next_id_fresh].
  - rewrite map_app. apply NoDup_snoc; [exact H2|]. cbn [map user_name].
    intros Hin. apply in_map_iff in Hin as (row & Hd & Hin).
    assert (existsb (has_name u) (users db) = true); [|congruence].
    apply existsb_exists. exists row. split; [exact Hin|].
    unfold has_name. apply str_eqb_eq, Hd.
Qed.

Lemma well_formed_replace_result (d uid : Z) (sc : str) (w : bool)
    (db : database) :
  fits_int64 d = true -> well_formed db ->
  well_formed (insert_or_replace_result d uid sc w db).
Proof.
  intros Hfit [H1 H2 H3 H4 H5 H6 H7 H8]. unfold insert_or_replace_result.
  split; cbn [users streaks results]; try assumption.
  - rewrite map_app. apply NoDup_snoc; [apply NoDup_map_filter, H5|].
    cbn [map result_id]. intros Hin.
    apply in_map_iff in Hin as (row & Hd & Hin).
    apply filter_In in Hin as [Hin _].
    apply (@next_id_fresh (seq_results db) (map result_id (results db))).
    rewrite <- Hd. apply in_map, Hin.
  - rewrite map_app. apply NoDup_snoc; [apply NoDup_map_filter, H6|].
    cbn [map r_streak_day r_user_id]. intros Hin.
    apply in_map_iff in Hin as (row & Hd & Hin).
    apply filter_In in Hin as [_ Hneg]. injection Hd as Hd1 Hd2.
    unfold for_pair in Hneg. rewrite Hd1, Hd2, !Z.eqb_refl in Hneg.
    discriminate.
  - apply Forall_app. split; [apply Forall_filter_keep, H8|].
    constructor; [exact Hfit | constructor].
Qed.

Lemma well_formed_apply_results (d : Z) (rs : list parsed_result)
    (db : database) :
  fits_int64 d = true -> well_formed db ->
  well_formed (apply_results d rs db).
Proof.
  intros Hfit. revert db. induction rs as [|r rs IH]; intros db H; [exact H|].
  rewrite apply_results_cons. apply IH. unfold Notions.apply_result.
  apply well_formed_replace_result; [exact Hfit|].
  apply well_formed_insert_user, H.
Qed.

Lemma well_formed_ingested (p : parsed) (db : database) :
  fits_int64 (day p) = true -> well_formed db ->
  well_formed (ingested p db).
Proof.
  intros Hfit H. unfold Notions.ingested.
  apply well_formed_apply_results; [exact Hfit|].
  apply well_formed_insert_streak; assumption.
Qed.

Lemma fault_or_not (F : faults) (n : nat) :
  (forall i, i < n -> F i = false) \/ (exists i, i < n /\ F i = true).
Proof.
  induction n as [|n [IH|(i & Hi & HF)]].
  - left. intros i Hi. lia.
  - destruct (F n) eqn:E.
    + right. exists n. split; [lia | exact E].
    + left. intros i Hi. destruct (Nat.eq_dec i n) as [->|Hne];
        [exact E | apply IH; lia].
  - right. exists i. split; [lia | exact HF].
Qed.

(** Whatever the storage environment, a call leaves the file either as it
    was or with the whole message ingested. *)
Lemma add_streak_data_all_or_nothing (F : faults) (msg : str)
    (db db' : database) (o : outcome summary) :
  add_streak_data F now msg db = (o, db') ->
  db' = db
  \/ exists p, parse_message msg = Ok p /\ fits_int64 (day p) = true
               /\ db' = ingested p db.
Proof.
  destruct (parse_message msg) as [p|e] eqn:Hp.
  - rewrite (@add_streak_data_ingest F msg db p Hp).
    intros H. injection H as _ <-.
    destruct (fits_int64 (day p)) eqn:Hfit.
    + destruct (fault_or_not F (writes_of (length (Parser.results p))))
        as [HF|(i & Hi & HF)].
      * right. exists p. split; [reflexivity|]. split; [exact Hfit|].
        apply ingest_committed; assumption.
      * left. destruct (@ingest_fault F p db i Hi HF) as (e & s' & -> & <-).
        reflexivity.
    + left. exact (proj2 (ingest_overflow F p db Hfit)).
  - unfold add_streak_data. rewrite Hp. intros H. injection H as _ <-.
    left. reflexivity.
Qed.

(** Ingestion keeps the constraints of the schema, in every storage
    environment. *)
Lemma add_streak_data_well_formed (F : faults) (msg : str)
    (db db' : database) (o : outcome summary) :
  well_formed db -> add_streak_data F now msg db = (o, db') ->
  well_formed db'.
Proof.
  intros Hwf H.
  apply add_streak_data_all_or_nothing in H as [->|(p & _ & Hfit & ->)];
    [exact Hwf | apply well_formed_ingested; assumption].
Qed.

(** *** Only score tokens are stored *)

Lemma tokens_only_apply_results (d : Z) (rs : list parsed_result)
    (db : database) :
  Forall (fun r => is_score_token (score r) = true /\ username r <> []) rs ->
  tokens_only db -> tokens_only (apply_results d rs db).
Proof.
  intros Hrs. revert db. induction Hrs as [|r rs [Hr _] _ IH]; intros db H;
    [exact H|].
  rewrite apply_results_cons. apply IH.
  unfold tokens_only, Notions.apply_result, insert_or_replace_result.
  cbn [results]. apply Forall_app. split.
  - apply Forall_filter_keep. exact H.
  - constructor; [exact Hr | constructor].
Qed.

Lemma add_streak_data_tokens_only (F : faults) (msg : str)
    (db db' : database) (o : outcome summary) :
  tokens_only db -> add_streak_data F now msg db = (o, db') ->
  tokens_only db'.
Proof.
  intros Htok H.
  apply add_streak_data_all_or_nothing in H as [->|(p & Hp & _ & ->)];
    [exact Htok|].
  unfold Notions.ingested.
  apply tokens_only_apply_results; [exact (@parse_message_tokens msg p Hp)|].
  exact Htok.
Qed.

(** C1: for every well-formed store and every (day, user) pair that already
    has a result, ingesting a message whose last result for that user is [r]
    does not raise, and afterwards the file holds exactly one result for the
    pair, with the score and the winner flag of [r]. *)
Theorem last_write_wins (msg : str) (p : parsed) (db : database)
    (pre post : list parsed_result) (r : parsed_result) (uid : Z)
    (old : result_row) :
  well_formed db ->
  parse_message msg = Ok p ->
  Parser.results p = pre ++ r :: post -> not_later (username r) post ->
  select_user_id (username r) db = Some uid ->
  In old (results db) -> for_pair (day p) uid old = true ->
  exists sm db',
    add_streak_data no_faults now msg db = (Ok sm, db')
    /\ select_user_id (username r) db' = Some uid
    /\ stored (day p) uid (score r) (is_winner r) db'.
Proof.
  intros Hwf Hp Hrs Hpost Hsel Hold Hpair.
  assert (Hfit : fits_int64 (day p) = true).
  { pose proof (wf_result_ints Hwf) as Hall.
    rewrite Forall_forall in Hall. specialize (Hall old Hold).
    unfold for_pair in Hpair. apply andb_true_iff in Hpair as [Hd _].
    apply Z.eqb_eq in Hd. rewrite <- Hd. exact Hall. }
  rewrite (@add_streak_data_no_faults msg p db Hp Hfit).
  destruct (@ingested_last p db pre post r (wf_user_ids Hwf) Hrs Hpost)
    as (uid' & H1 & H2 & H3).
  rewrite (H3 uid Hsel) in H1, H2.
  eexists. eexists. split; [reflexivity|]. split; assumption.
Qed.

(** C3: for every well-formed store, ingesting a message whose day number
    already has a streak row does not raise and leaves the streak table as it
    was, row for row and with the same imported timestamps, while every
    result of the message is applied: the last result the message has for a
    user is the one stored for the day and that user. *)
Theorem existing_day_kept (msg : str) (p : parsed) (db : database) :
  well_formed db ->
  parse_message msg = Ok p ->
  existsb (has_day (day p)) (streaks db) = true ->
  exists sm db',
    add_streak_data no_faults now msg db = (Ok sm, db')
    /\ streaks db' = streaks db
    /\ forall pre r post,
         Parser.results p = pre ++ r :: post ->
         not_later (username r) post ->
         exists uid,
           select_user_id (username r) db' = Some uid
           /\ stored (day p) uid (score r) (is_winner r) db'.
Proof.
  intros Hwf Hp Hday.
  assert (Hfit : fits_int64 (day p) = true).
  { apply existsb_exists in Hday as (row & Hin & Hd).
    pose proof (wf_streak_ints Hwf) as Hall.
    rewrite Forall_forall in Hall. specialize (Hall row Hin).
    unfold has_day in Hd. apply Z.eqb_eq in Hd. rewrite <- Hd. exact Hall. }
  rewrite (@add_streak_data_no_faults msg p db Hp Hfit).
  eexists. eexists. split; [reflexivity|].
  split; [apply ingested_streaks, Hday|].
  intros pre r post Hrs Hpost.
  destruct (@ingested_last p db pre post r (wf_user_ids Hwf) Hrs Hpost)
    as (uid & H1 & H2 & _).
  exists uid. split; assumption.
Qed.

End Ingestion.

Section IngestionExamples.
Import PyStr Parser Sqlite Tracker Notions.
Local Open Scope string_scope.

Lemma failed_write_rolls_back_witness :
  exists e,
    add_streak_data third_result_fails 0%Z five_results_message empty_database
    = (Raise e, empty_database).
Proof.
  eapply (@failed_write_rolls_back 0%Z third_result_fails
            five_results_message _ empty_database 9).
  - vm_compute. reflexivity.
  - vm_compute. lia.
  - reflexivity.
Defined.

Lemma no_marker_no_mutation_witness :
  parse_message (lit "3/6: @Alice") = Raise ValueError
  /\ add_streak_data no_faults 0%Z (lit "3/6: @Alice") empty_database
     = (Raise ValueError, empty_database).
Proof.
  destruct (@no_marker_no_mutation 0%Z no_faults (lit "3/6: @Alice")
              empty_database (search_streak (lit "3/6: @Alice")))
    as (H1 & H2 & _).
  split; [exact H1 | exact H2].
Defined.

Lemma results_added_is_day_total_witness :
  exists sm db',
    add_streak_data no_faults 1%Z (lit "5 day streak 4/6: @Bob") day5_with_alice
    = (Ok sm, db')
    /\ length (users_in_day sm) = 1
    /\ results_added sm = 2%Z.
Proof.
  destruct (add_streak_data no_faults 1%Z (lit "5 day streak 4/6: @Bob")
              day5_with_alice) as [[sm|e] db'] eqn:E.
  - pose proof (@results_added_is_day_total 1%Z no_faults _ _ _ _ E) as T.
    exists sm, db'. split; [reflexivity|].
    vm_compute in E. injection E as <- <-.
    split; [reflexivity | exact T].
  - vm_compute in E. discriminate.
Defined.

Lemma day5_with_alice_well_formed : well_formed day5_with_alice.
Proof.
  apply (@add_streak_data_well_formed 0%Z no_faults
           (lit "5 day streak 3/6: @Alice") empty_database day5_with_alice
           (fst (add_streak_data no_faults 0%Z
                   (lit "5 day streak 3/6: @Alice") empty_database))).
  - apply well_formed_empty.
  - apply surjective_pairing.
Qed.

Lemma last_write_wins_witness :
  exists sm db',
    add_streak_data no_faults 1%Z (lit "5 day streak X/6: @Alice")
      day5_with_alice = (Ok sm, db')
    /\ select_user_id (lit "Alice") db' = Some 1%Z
    /\ stored 5 1 (lit "X") false db'.
Proof.
  apply (@last_write_wins 1%Z (lit "5 day streak X/6: @Alice")
           {| day := 5; Parser.results := [alice_fails] |}
           day5_with_alice [] [] alice_fails 1%Z
           {| result_id := 1; r_streak_day := 5; r_user_id := 1;
              r_score := lit "3"; r_is_winner := false |}).
  - apply day5_with_alice_well_formed.
  - vm_compute. reflexivity.
  - reflexivity.
  - intros r' [].
  - vm_compute. reflexivity.
  - vm_compute. left. reflexivity.
  - vm_compute. reflexivity.
Defined.

Lemma existing_day_kept_witness :
  exists sm db',
    add_streak_data no_faults 1%Z (lit "5 day streak 4/6: @Bob")
      day5_with_alice = (Ok sm, db')
    /\ streaks db' = streaks day5_with_alice
    /\ forall pre r post,
         [ {| username := lit "Bob"; score := lit "4"; is_winner := false |} ]
         = pre ++ r :: post ->
         not_later (username r) post ->
         exists uid,
           select_user_id (username r) db' = Some uid
           /\ stored 5 uid (score r) (is_winner r) db'.
Proof.
  apply (@existing_day_kept 1%Z (lit "5 day streak 4/6: @Bob")
           {| day := 5;
              Parser.results :=
                [ {| username := lit "Bob"; score := lit "4";
                     is_winner := false |} ] |}
           day5_with_alice).
  - apply day5_with_alice_well_formed.
  - vm_compute. reflexivity.
  - vm_compute. reflexivity.
Defined.

End IngestionExamples.

(** ** [delete_day] *)

Section Deletion.
Import PyStr Sqlite Manager Notions.
Local Open Scope py_scope.
Local Open Scope string_scope.

(** Reading the details of a day changes nothing and leaves no transaction
    open. *)
Lemma get_day_details_quiet (F : faults) (d : Z) (s : session) :
  pending s = None ->
  disk (snd (get_day_details F d s)) = disk s
  /\ pending (snd (get_day_details F d s)) = None.
Proof.
  intros Hp.
  unfold get_day_details, bind, ret, raise, execute_read_int, execute_read,
    close, rollback, step, view.
  destruct (F (executed s)); cbn [snd disk pending executed]; [tauto|].
  destruct (fits_int64 d); cbv beta iota; cbn [snd disk pending executed];
    [|tauto].
  rewrite Hp.
  destruct (find (has_day d) (streaks (disk s))) as [row|];
    cbn [snd disk pending executed]; [|tauto].
  destruct (F (S (executed s))); cbn [snd disk pending]; tauto.
Qed.

(** The transaction of [delete_day] either commits both deletions or
    raises with the file untouched. *)
Lemma delete_transaction_cases (F : faults) (d : Z) (s : session) :
  pending s = None ->
  (fst (delete_transaction F d s) = Ok true
   /\ disk (snd (delete_transaction F d s)) = deleted d (disk s))
  \/ (exists e, fst (delete_transaction F d s) = Raise e
                /\ disk (snd (delete_transaction F d s)) = disk s).
Proof.
  intros Hp.
  unfold delete_transaction, deleted, bind, ret, execute_begin,
    execute_write, commit, close, rollback, step, view.
  rewrite Hp. cbn [fst snd disk pending executed].
  destruct (F (executed s)); cbn [fst snd disk pending executed];
    [right; eexists; split; reflexivity|].
  destruct (F (S (executed s))); cbn [fst snd disk pending executed];
    [right; eexists; split; reflexivity|].
  destruct (F (S (S (executed s)))); cbn [fst snd disk pending executed];
    [right; eexists; split; reflexivity|].
  destruct (F (S (S (S (executed s))))); cbn [fst snd disk pending executed];
    [right; eexists; split; reflexivity|].
  left. split; reflexivity.
Qed.

(** The handler returns [False] and changes nothing in the file. *)
Lemma delete_handler_quiet (F : faults) (s : session) :
  fst (delete_handler F s) = Ok false
  /\ disk (snd (delete_handler F s)) = disk s.
Proof.
  unfold delete_handler, try_except, bind, ret, execute_rollback, close,
    rollback, step.
  destruct (F (executed s)); cbn [fst snd disk pending executed];
    [split; reflexivity|].
  destruct (pending s); split; reflexivity.
Qed.

(** The rows of the content without the day [d]. *)
Lemma deleted_rows (d : Z) (db : database) :
  (forall r, In r (results (deleted d db))
             <-> In r (results db) /\ r_streak_day r <> d)
  /\ (forall s, In s (streaks (deleted d db))
                <-> In s (streaks db) /\ streak_day s <> d)
  /\ users (deleted d db) = users db.
Proof.
  unfold deleted. cbn [results streaks users].
  split; [|split; [|reflexivity]]; intros x; rewrite filter_In;
    rewrite negb_true_iff, Z.eqb_neq; reflexivity.
Qed.

(** C9: for every content of the file, day number and storage environment,
    [delete_day] is all or nothing: either it returns [True] and the file
    holds the former content without the results of the day and without its
    streak row, both removed by the one commit (the results left are those
    of the other days, the streak rows left those of the other days, the
    users are untouched), or it does not return [True] and the file is
    exactly as before. No outcome leaves one deletion without the other. *)
Theorem delete_day_atomic (F : faults) (d : Z) (confirm : bool) (typed : str)
    (db : database) :
  (fst (delete_day F d confirm typed db) = Ok true
   /\ snd (delete_day F d confirm typed db) = deleted d db
   /\ (forall r, In r (results (snd (delete_day F d confirm typed db)))
                 <-> In r (results db) /\ r_streak_day r <> d)
   /\ (forall s, In s (streaks (snd (delete_day F d confirm typed db)))
                 <-> In s (streaks db) /\ streak_day s <> d)
   /\ users (snd (delete_day F d confirm typed db)) = users db)
  \/ (fst (delete_day F d confirm typed db) <> Ok true
      /\ snd (delete_day F d confirm typed db) = db).
Proof.
  unfold delete_day, finish. cbn [fst snd]. unfold bind.
  destruct (@get_day_details_quiet F d (start db) eq_refl) as [Hd Hp].
  destruct (get_day_details F d (start db)) as [[[details|]|e] s1];
    cbn [fst snd] in *.
  - destruct (negb confirm && negb (str_eqb (strip typed) (lit "DELETE"))).
    + right. split; [discriminate | exact Hd].
    + unfold try_except.
      destruct (@delete_transaction_cases F d s1 Hp)
        as [[Ho Hdisk]|(e & Ho & Hdisk)];
        destruct (delete_transaction F d s1) as [o s2]; cbn [fst snd] in *;
        subst o.
      * left. cbn [fst snd]. split; [reflexivity|].
        assert (disk s2 = deleted d db) as ->
          by (rewrite Hdisk, Hd; reflexivity).
        split; [reflexivity | apply deleted_rows].
      * destruct (delete_handler_quiet F s2) as [Hf Hk].
        destruct (delete_handler F s2) as [o3 s3]; cbn [fst snd] in *.
        right. split; [rewrite Hf; discriminate|].
        rewrite Hk, Hdisk, Hd. reflexivity.
  - right. split; [discriminate | exact Hd].
  - right. split; [discriminate | exact Hd].
Qed.

(** With the day stored, the confirmation given and no failing call, the
    deletion goes through. *)
Lemma delete_day_succeeds (d : Z) (typed : str) (db : database) :
  fits_int64 d = true -> existsb (has_day d) (streaks db) = true ->
  delete_day no_faults d true typed db = (Ok true, deleted d db).
Proof.
  intros Hfit Hday. unfold delete_day, finish, get_day_details.
  rewrite existsb_find in Hday.
  unfold bind, ret, execute_read_int, execute_read, no_faults, start, close,
    rollback.
  rewrite Hfit. cbn [executed step disk pending view].
  destruct (find (has_day d) (streaks db)); [|discriminate].
  reflexivity.
Qed.

(** The second deletion made to fail: the sixth call, after the two reads of
    the preview, [BEGIN] and the first deletion. The day and its result are
    still there. *)
Example delete_day_second_delete_fails :
  delete_day (fun n => Nat.eqb n 4) 5 true [] day5_with_alice
  = (Ok false, day5_with_alice).
Proof. vm_compute. reflexivity. Qed.

Example delete_day_commit_fails :
  delete_day (fun n => Nat.eqb n 5) 5 true [] day5_with_alice
  = (Ok false, day5_with_alice).
Proof. vm_compute. reflexivity. Qed.

Example delete_day_not_confirmed :
  delete_day no_faults 5 false (lit "yes") day5_with_alice
  = (Ok false, day5_with_alice).
Proof. vm_compute. reflexivity. Qed.

Example delete_day_unknown_day :
  delete_day no_faults 6 true [] day5_with_alice
  = (Ok false, day5_with_alice).
Proof. vm_compute. reflexivity. Qed.

Example delete_day_goes_through :
  results (snd (delete_day no_faults 5 false (lit " DELETE ")
                  day5_with_alice)) = []
  /\ streaks (snd (delete_day no_faults 5 false (lit " DELETE ")
                     day5_with_alice)) = []
  /\ map user_name (users (snd (delete_day no_faults 5 false (lit " DELETE ")
                                  day5_with_alice))) = [lit "Alice"].
Proof. vm_compute. repeat split; reflexivity. Qed.

(** After a deletion that went through, neither table has a row of the
    day. *)
Lemma deleted_no_row (d : Z) (db : database) :
  filter (on_day d) (results (deleted d db)) = []
  /\ filter (has_day d) (streaks (deleted d db)) = [].
Proof.
  unfold deleted, delete_streak, delete_results_of_day.
  cbn [results streaks]. split; apply filter_filter_none.
Qed.

(** Deleting a day keeps the constraints of the schema. *)
Lemma deleted_well_formed (d : Z) (db : database) :
  well_formed db -> well_formed (deleted d db).
Proof.
  intros [H1 H2 H3 H4 H5 H6 H7 H8].
  split; cbn [deleted delete_streak delete_results_of_day users streaks
              results]; try assumption;
    try (apply NoDup_map_filter; assumption);
    apply Forall_filter_keep; assumption.
Qed.

End Deletion.

(** ** Averages *)

Section Averages.
Import PyStr Parser Sqlite Manager Stats Notions.
Local Open Scope string_scope.

Lemma is_X_eq (sc : str) : is_X sc = true <-> sc = lit "X".
Proof. unfold is_X. apply str_eqb_eq. Qed.

Lemma token_cases (sc : str) :
  is_score_token sc = true ->
  sc = lit "X" \/ (is_X sc = false /\ int sc = Some (guesses sc)).
Proof.
  destruct sc as [|c [|c' sc]]; try discriminate. cbn [is_score_token].
  unfold score_token. rewrite orb_true_iff. intros [H|H].
  - right. unfold in_range in H. apply andb_true_iff in H as [H1 H2].
    apply N.leb_le in H1, H2.
    assert (Hc : In c [49; 50; 51; 52; 53; 54]%N).
    { assert (c = 49 \/ c = 50 \/ c = 51 \/ c = 52 \/ c = 53 \/ c = 54)%N
        as Hc by lia.
      simpl. intuition. }
    simpl in Hc.
    destruct Hc as [<-|[<-|[<-|[<-|[<-|[<-|[]]]]]]];
      split; vm_compute; reflexivity.
  - left. apply char_eqb_eq in H. subst c. reflexivity.
Qed.

Lemma token_no_comma (sc : str) :
  is_score_token sc = true -> ~ In 44%N sc /\ sc <> [].
Proof.
  destruct sc as [|c [|c' sc]]; try discriminate. cbn [is_score_token].
  intros H. split; [|discriminate]. intros [->|[]]. vm_compute in H.
  discriminate.
Qed.

(** *** Text joined by commas and split again *)

Lemma split_no_sep (sep : char) (f : str) :
  ~ In sep f -> split sep f = [f].
Proof.
  induction f as [|c f IH]; intros H; [reflexivity|].
  cbn [split]. destruct (char_eqb c sep) eqn:E.
  - apply char_eqb_eq in E. subst c. exfalso. apply H. left. reflexivity.
  - rewrite IH; [reflexivity|]. intros Hin. apply H. right. exact Hin.
Qed.

Lemma split_app_sep (sep : char) (f rest : str) :
  ~ In sep f -> split sep (f ++ sep :: rest) = f :: split sep rest.
Proof.
  induction f as [|c f IH]; intros H.
  - cbn [app split]. unfold char_eqb. rewrite N.eqb_refl. reflexivity.
  - cbn [app split]. destruct (char_eqb c sep) eqn:E.
    + apply char_eqb_eq in E. subst c. exfalso. apply H. left. reflexivity.
    + rewrite IH; [reflexivity|]. intros Hin. apply H. right. exact Hin.
Qed.

Lemma split_join (sep : char) (fields : list str) :
  fields <> [] -> Forall (fun f => ~ In sep f) fields ->
  split sep (join sep fields) = fields.
Proof.
  induction fields as [|f fs IH]; intros Hne Hall; [contradiction|].
  apply Forall_cons_iff in Hall as [Hf Hfs].
  destruct fs as [|g fs]; cbn [join].
  - apply split_no_sep, Hf.
  - rewrite split_app_sep by exact Hf. f_equal.
    apply IH; [discriminate | exact Hfs].
Qed.

Lemma scores_of_group_concat (scores : list str) :
  scores <> [] -> Forall (fun sc => is_score_token sc = true) scores ->
  scores_of (group_concat scores) = scores.
Proof.
  intros Hne Hall. unfold group_concat, scores_of.
  destruct scores as [|sc scores]; [contradiction|].
  assert (Hs : split 44%N (join 44%N (sc :: scores)) = sc :: scores).
  { apply split_join; [discriminate|].
    apply Forall_impl with (2 := Hall).
    intros a Ha. apply (token_no_comma _ Ha). }
  destruct (join 44%N (sc :: scores)) as [|c t] eqn:E; [|exact Hs].
  exfalso. apply Forall_cons_iff in Hall as [Hsc _].
  destruct (token_no_comma _ Hsc) as [_ Hnil].
  destruct scores; cbn [join] in E; [congruence|].
  apply app_eq_nil in E as [E _]. congruence.
Qed.

(** *** The two sums *)

Lemma numeric_scores_tokens (scores : list str) :
  Forall (fun sc => is_score_token sc = true) scores ->
  numeric_scores scores = Some (map numeric scores).
Proof.
  induction 1 as [|sc scores Hsc _ IH]; [reflexivity|].
  cbn [numeric_scores map]. rewrite IH. unfold score_to_numeric, numeric.
  destruct (token_cases _ Hsc) as [->|[HX Hint]].
  - reflexivity.
  - rewrite HX, Hint. reflexivity.
Qed.

Lemma sum_int_solved (scores : list str) :
  Forall (fun sc => is_score_token sc = true) scores ->
  sum_int (filter (fun sc => negb (is_X sc)) scores)
  = Some (total (solved scores)).
Proof.
  induction 1 as [|sc scores Hsc _ IH]; [reflexivity|].
  unfold solved in *. cbn [filter].
  destruct (token_cases _ Hsc) as [->|[HX Hint]].
  - exact IH.
  - rewrite HX. cbn [negb sum_int map]. rewrite Hint, IH. reflexivity.
Qed.

(** An "X" weighs 7 in the sum of the numeric scores. *)
Lemma total_numeric (scores : list str) :
  total (map numeric scores)
  = (total (solved scores) + 7 * Z.of_nat (failures scores))%Z.
Proof.
  induction scores as [|sc scores IH]; [reflexivity|].
  unfold solved, failures, total in *. cbn [map filter count_occ fold_right].
  unfold numeric at 1. destruct (is_X sc) eqn:HX.
  - apply is_X_eq in HX. subst sc.
    destruct (str_eq_dec (lit "X") (lit "X")) as [_|Hne]; [|contradiction].
    cbn [negb]. rewrite IH, Nat2Z.inj_succ. lia.
  - destruct (str_eq_dec sc (lit "X")) as [->|_]; [discriminate|].
    cbn [negb map fold_right]. rewrite IH. lia.
Qed.

Lemma filter_map_swap {A B : Type} (f : A -> B) (g : B -> bool)
    (l : list A) :
  filter g (map f l) = map f (filter (fun x => g (f x)) l).
Proof.
  induction l as [|x l IH]; simpl; [reflexivity|].
  destruct (g (f x)); simpl; rewrite IH; reflexivity.
Qed.

Lemma count_occ_filter (scores : list str) :
  failures scores = length (filter is_X scores).
Proof.
  unfold failures. induction scores as [|sc scores IH]; [reflexivity|].
  cbn [count_occ filter]. destruct (is_X sc) eqn:HX.
  - apply is_X_eq in HX. subst sc.
    destruct (str_eq_dec _ _) as [_|Hne]; [|contradiction].
    cbn [length]. rewrite IH. reflexivity.
  - destruct (str_eq_dec sc (lit "X")) as [->|_]; [discriminate|].
    exact IH.
Qed.

(** *** The rows of a day of a store of score tokens *)

Lemma insert_by_name_in (x y : day_result) (l : list day_result) :
  In y (insert_by_name x l) -> y = x \/ In y l.
Proof.
  induction l as [|z l IH]; cbn [insert_by_name].
  - intros [<-|[]]. left. reflexivity.
  - destruct (str_leb _ _).
    + intros [<-|H]; [left; reflexivity | right; exact H].
    + intros [<-|H]; [right; left; reflexivity|].
      destruct (IH H) as [->|H']; [left; reflexivity | right; right; exact H'].
Qed.

Lemma sort_by_name_in (y : day_result) (l : list day_result) :
  In y (sort_by_name l) -> In y l.
Proof.
  induction l as [|x l IH]; cbn [sort_by_name fold_right]; [tauto|].
  intros H. apply insert_by_name_in in H as [->|H];
    [left; reflexivity | right; exact (IH H)].
Qed.

Lemma select_day_results_tokens (d : Z) (db : database) :
  tokens_only db ->
  Forall (fun sc => is_score_token sc = true)
    (map dr_score (select_day_results d db)).
Proof.
  intros Htok. apply Forall_forall. intros sc Hsc.
  apply in_map_iff in Hsc as (row & <- & Hrow).
  unfold select_day_results in Hrow. apply sort_by_name_in in Hrow.
  apply in_flat_map in Hrow as (r & Hr & Hrow).
  destruct (on_day d r); [|destruct Hrow].
  apply in_map_iff in Hrow as (u & <- & _). cbn [dr_score].
  unfold tokens_only in Htok. rewrite Forall_forall in Htok.
  exact (Htok r Hr).
Qed.

Lemma filter_partition_length {A : Type} (f : A -> bool) (l : list A) :
  length (filter (fun x => negb (f x)) l) + length (filter f l) = length l.
Proof.
  induction l as [|x l IH]; simpl; [reflexivity|].
  destruct (f x); simpl; lia.
Qed.

(** C7 (amended): for every result set of score tokens, the day statistics
    of [show_day_data] average the scores other than "X" only (their sum
    over their number, no average when there is none) and count the "X"
    results apart as failed players; the all-time average of
    [get_all_time_stats] is taken over all the scores of the user, an "X"
    weighing 7. *)
Theorem averages_and_failures (rows : list day_result) (scores : list str) :
  Forall (fun sc => is_score_token sc = true) (map dr_score rows) ->
  Forall (fun sc => is_score_token sc = true) scores -> scores <> [] ->
  (failed_players rows = failures (map dr_score rows)
   /\ successful_players rows + failed_players rows = length rows
   /\ avg_score rows =
        match solved (map dr_score rows) with
        | [] => None
        | vs => Some (Ok (inject_Z (total vs)
                          / inject_Z (Z.of_nat (length vs)))%Q)
        end)
  /\ average_score (group_concat scores)
     = Ok (inject_Z (total (solved scores) + 7 * Z.of_nat (failures scores))
           / inject_Z (Z.of_nat (length scores)))%Q.
Proof.
  intros Hrows Hscores Hne. split; [split; [|split]|].
  - rewrite count_occ_filter, filter_map_swap, length_map. reflexivity.
  - unfold successful_players, failed_players.
    apply (filter_partition_length (fun r => is_X (dr_score r))).
  - unfold avg_score, successful_players.
    rewrite <- (filter_map_swap dr_score (fun sc => negb (is_X sc)) rows).
    rewrite (sum_int_solved Hrows).
    replace (length (filter (fun r => negb (is_X (dr_score r))) rows))
      with (length (solved (map dr_score rows)))
      by (unfold solved; rewrite filter_map_swap, !length_map; reflexivity).
    destruct (solved (map dr_score rows)); reflexivity.
  - unfold average_score.
    rewrite (scores_of_group_concat Hne Hscores).
    rewrite (numeric_scores_tokens Hscores).
    destruct scores as [|sc scores]; [contradiction|].
    cbn [map]. unfold mean.
    change (fold_right Z.add 0%Z (numeric sc :: map numeric scores))
      with (total (map numeric (sc :: scores))).
    rewrite total_numeric.
    change (length (numeric sc :: map numeric scores))
      with (length (map numeric (sc :: scores))).
    rewrite length_map. reflexivity.
Qed.

Lemma averages_and_failures_witness :
  (failed_players sample_day = 1
   /\ successful_players sample_day + failed_players sample_day = 3
   /\ avg_score sample_day = Some (Ok (inject_Z 8 / inject_Z 2)%Q))
  /\ average_score (group_concat [lit "3"; lit "X"])
     = Ok (inject_Z 10 / inject_Z 2)%Q.
Proof.
  apply (@averages_and_failures sample_day [lit "3"; lit "X"]).
  - repeat constructor.
  - repeat constructor.
  - discriminate.
Defined.

(** C7 as stated fails for [get_all_time_stats]: over the scores "3" and "X"
    its average is the mean of 3 and 7, which is not the mean of the scores
    other than "X". *)
Lemma all_time_average_counts_X :
  average_score (group_concat [lit "3"; lit "X"]) = Ok (mean [3; 7]%Z)
  /\ ~ (mean [3; 7]%Z == mean (solved [lit "3"; lit "X"]))%Q.
Proof.
  split; [vm_compute; reflexivity|].
  vm_compute. discriminate.
Qed.

End Averages.

(** ** Streak consistency *)

Section Consistency.
Import PyStr Sqlite Stats Notions.

Lemma gap_lengths_cons (prev d : Z) (days : list Z) :
  gap_lengths (prev :: d :: days)
  = if (1 <? d - prev)%Z then (d - prev - 1)%Z :: gap_lengths (d :: days)
    else gap_lengths (d :: days).
Proof.
  change (gap_lengths (prev :: d :: days))
    with (filter (fun g => (0 <? g)%Z)
            (missed (prev, d) :: map missed (successive (d :: days)))).
  cbn [filter]. change (missed (prev, d)) with (d - prev - 1)%Z.
  fold (gap_lengths (d :: days)).
  replace (0 <? d - prev - 1)%Z with (1 <? d - prev)%Z; [reflexivity|].
  destruct (1 <? d - prev)%Z eqn:E; symmetry.
  - apply Z.ltb_lt in E. apply Z.ltb_lt. lia.
  - apply Z.ltb_ge in E. apply Z.ltb_ge. lia.
Qed.

Lemma gaps_from_spec (prev : Z) (days : list Z) :
  gaps_from prev days = gap_lengths (prev :: days).
Proof.
  revert prev. induction days as [|d days IH]; intros prev; [reflexivity|].
  cbn [gaps_from]. rewrite IH, gap_lengths_cons. reflexivity.
Qed.

Lemma gaps_of_spec (days : list Z) : gaps_of days = gap_lengths days.
Proof.
  destruct days as [|d days]; [reflexivity|]. apply gaps_from_spec.
Qed.

Lemma insert_day_nonempty (d : Z) (l : list Z) : insert_day d l <> [].
Proof. destruct l as [|x l]; simpl; [|destruct (d <=? x)%Z]; discriminate. Qed.

Lemma sort_days_nonempty (l : list Z) : l <> [] -> sort_days l <> [].
Proof.
  destruct l as [|x l]; [contradiction|]. intros _. apply insert_day_nonempty.
Qed.

(** A user with a stored result in the period has played days. *)
Lemma played_days_nonempty (start_day end_day : option Z) (db : database)
    (u : user_row) (r : result_row) :
  In r (results db) -> r_user_id r = user_id u ->
  in_period start_day end_day (r_streak_day r) = true ->
  played_days start_day end_day db u <> [].
Proof.
  intros Hin Hu Hper. unfold played_days. apply sort_days_nonempty.
  intros Hnil. apply map_eq_nil in Hnil.
  assert (H : In r (filter
                      (fun r => (r_user_id r =? user_id u)%Z
                                && in_period start_day end_day (r_streak_day r))
                      (results db))).
  { apply filter_In. split; [exact Hin|].
    rewrite Hper, andb_true_r. apply Z.eqb_eq, Hu. }
  rewrite Hnil in H. destruct H.
Qed.

(** *** The played days of a user are in increasing order *)

Lemma insert_day_in (d x : Z) (l : list Z) :
  In x (insert_day d l) <-> x = d \/ In x l.
Proof.
  induction l as [|y l IH]; cbn [insert_day].
  - simpl. intuition.
  - destruct (d <=? y)%Z; simpl in *; intuition.
Qed.

Lemma sort_days_in (x : Z) (l : list Z) : In x (sort_days l) <-> In x l.
Proof.
  induction l as [|y l IH]; cbn [sort_days fold_right]; [tauto|].
  fold (sort_days l). rewrite insert_day_in, IH. simpl. intuition.
Qed.

Lemma insert_day_increasing (d : Z) (l : list Z) :
  ~ In d l -> increasing l -> increasing (insert_day d l).
Proof.
  induction l as [|x l IH]; intros Hd Hl; cbn [insert_day].
  - simpl. split; [intros y [] | exact I].
  - destruct Hl as [Hx Hl]. destruct (d <=? x)%Z eqn:E.
    + apply Z.leb_le in E. split; [|split; assumption].
      intros y [<-|Hy].
      * assert (d <> x) by (intros ->; apply Hd; left; reflexivity). lia.
      * specialize (Hx y Hy). lia.
    + apply Z.leb_gt in E. split.
      * intros y Hy. apply insert_day_in in Hy as [->|Hy];
          [lia | exact (Hx y Hy)].
      * apply IH; [|exact Hl]. intros H. apply Hd. right. exact H.
Qed.

Lemma sort_days_increasing (l : list Z) :
  NoDup l -> increasing (sort_days l).
Proof.
  induction 1 as [|x l Hx _ IH]; [exact I|].
  cbn [sort_days fold_right]. fold (sort_days l).
  apply insert_day_increasing; [|exact IH].
  rewrite sort_days_in. exact Hx.
Qed.

Lemma days_of_user_distinct (f : result_row -> bool) (u : Z)
    (l : list result_row) :
  NoDup (map (fun r => (r_streak_day r, r_user_id r)) l) ->
  NoDup (map r_streak_day
           (filter (fun r => (r_user_id r =? u)%Z && f r) l)).
Proof.
  induction l as [|x l IH]; cbn [map filter]; intros H; [constructor|].
  apply NoDup_cons_iff in H as [Hx Hl].
  destruct ((r_user_id x =? u)%Z && f x) eqn:E; [|exact (IH Hl)].
  cbn [map]. constructor; [|exact (IH Hl)].
  intros Hin. apply Hx. apply in_map_iff in Hin as (y & Hy & Hin).
  apply filter_In in Hin as [Hin Hf].
  apply andb_true_iff in E as [E _], Hf as [Hf _].
  apply Z.eqb_eq in E, Hf.
  apply in_map_iff. exists y. split; [|exact Hin]. congruence.
Qed.

(** In a store that keeps the constraints of the schema, the played days of
    a user come in strictly increasing order. *)
Lemma played_days_increasing (start_day end_day : option Z) (db : database)
    (u : user_row) :
  well_formed db -> increasing (played_days start_day end_day db u).
Proof.
  intros Hwf. unfold played_days. apply sort_days_increasing.
  apply days_of_user_distinct. exact (wf_result_pairs Hwf).
Qed.

Lemma insert_day_sorted (d : Z) (l : list Z) :
  Sorted Z.le l -> Sorted Z.le (insert_day d l).
Proof.
  induction 1 as [|y l Hl IH Hy]; cbn [insert_day];
    [repeat constructor|].
  destruct (d <=? y)%Z eqn:E.
  - apply Z.leb_le in E.
    constructor; [constructor; assumption | constructor; exact E].
  - apply Z.leb_gt in E. constructor; [exact IH|].
    destruct l as [|z l]; cbn [insert_day]; [constructor; lia|].
    destruct (d <=? z)%Z; constructor; [lia|].
    inversion Hy; assumption.
Qed.

Lemma sort_days_sorted (l : list Z) : Sorted Z.le (sort_days l).
Proof.
  unfold sort_days. induction l as [|x l IH]; [constructor|].
  cbn [fold_right]. apply insert_day_sorted. exact IH.
Qed.

(** [date_filter] keeps the days of the period. *)
Lemma in_period_within (start_day end_day : option Z) (d : Z) :
  in_period start_day end_day d = true <-> within start_day end_day d.
Proof.
  unfold in_period, within.
  destruct start_day as [a|], end_day as [b|];
    try (split; [intros _ a' b' Ha Hb; discriminate | reflexivity]).
  destruct (a =? 0)%Z eqn:Ea, (b =? 0)%Z eqn:Eb; cbn [negb andb].
  - apply Z.eqb_eq in Ea. split; [|reflexivity].
    intros _ a' b' Ha Hb Ha0. injection Ha as <-. contradiction.
  - apply Z.eqb_eq in Ea. split; [|reflexivity].
    intros _ a' b' Ha Hb Ha0. injection Ha as <-. contradiction.
  - apply Z.eqb_eq in Eb. split; [|reflexivity].
    intros _ a' b' Ha Hb _ Hb0. injection Hb as <-. contradiction.
  - apply Z.eqb_neq in Ea, Eb. rewrite andb_true_iff, !Z.leb_le. split.
    + intros H a' b' Ha Hb _ _. injection Ha as <-. injection Hb as <-.
      exact H.
    + intros H. exact (H a b eq_refl eq_refl Ea Eb).
Qed.

(** The played days are the days of the results of the user in the
    period. *)
Lemma played_days_in (start_day end_day : option Z) (db : database)
    (u : user_row) (d : Z) :
  In d (played_days start_day end_day db u)
  <-> exists r, In r (results db) /\ r_user_id r = user_id u
                /\ r_streak_day r = d /\ within start_day end_day d.
Proof.
  unfold played_days. rewrite sort_days_in, in_map_iff. split.
  - intros (r & Hd & Hr). apply filter_In in Hr as [Hr Hf].
    apply andb_true_iff in Hf as [Hu Hp]. apply Z.eqb_eq in Hu.
    apply in_period_within in Hp. rewrite Hd in Hp. exists r. auto.
  - intros (r & Hr & Hu & Hd & Hp). exists r. split; [exact Hd|].
    apply filter_In. split; [exact Hr|]. apply andb_true_iff. split.
    + apply Z.eqb_eq. exact Hu.
    + apply in_period_within. rewrite Hd. exact Hp.
Qed.

(** C8: for every user with at least one stored result (in the period asked
    for), [_calculate_streak_consistency] makes an entry for the user whose
    consistency score is [1 / (1 + g)], where [g], also reported as the
    average gap, is the mean length of the gaps between the successive
    played days of the user: the days [days] of the results of this user in
    the period, in rising order, each day once when the file satisfies the
    schema. [g] is 0 when the user played one day only or when each played
    day is the day after the one before. *)
Theorem consistency_score_formula (start_day end_day : option Z)
    (db : database) (u : user_row) (r : result_row) :
  In r (results db) -> r_user_id r = user_id u ->
  within start_day end_day (r_streak_day r) ->
  exists info days,
    calculate_streak_consistency start_day end_day db u = Some info
    /\ (forall d,
          In d days
          <-> exists r', In r' (results db) /\ r_user_id r' = user_id u
                         /\ r_streak_day r' = d
                         /\ within start_day end_day d)
    /\ Sorted Z.le days
    /\ (well_formed db -> increasing days)
    /\ average_gap info = mean_gap days
    /\ consistency_score info = (1 / (1 + mean_gap days))%Q
    /\ (length days = 1 -> mean_gap days = 0%Q)
    /\ ((forall a b, In (a, b) (successive days) -> b = (a + 1)%Z) ->
        mean_gap days = 0%Q).
Proof.
  intros Hin Hu Hper. apply in_period_within in Hper.
  pose proof (played_days_nonempty start_day end_day db u r Hin Hu Hper)
    as Hne.
  pose proof (played_days_in start_day end_day db u) as Hdays.
  assert (Sorted Z.le (played_days start_day end_day db u)) as Hsorted
    by apply sort_days_sorted.
  pose proof (@played_days_increasing start_day end_day db u) as Hinc.
  unfold calculate_streak_consistency.
  destruct (played_days start_day end_day db u) as [|d days] eqn:E;
    [contradiction|].
  eexists _, (d :: days). split; [reflexivity|].
  split; [exact Hdays|]. split; [exact Hsorted|]. split; [exact Hinc|].
  unfold streak_info_of. cbn [average_gap consistency_score].
  rewrite gaps_of_spec. fold (mean_gap (d :: days)).
  assert (Hmean :
    match gap_lengths (d :: days) with
    | [] => 0%Q
    | _ :: _ => mean (gap_lengths (d :: days))
    end = mean_gap (d :: days)).
  { unfold mean_gap, mean. destruct (gap_lengths (d :: days)); reflexivity. }
  rewrite Hmean. split; [reflexivity|]. split; [reflexivity|]. split.
  - intros Hlen. destruct days; [reflexivity | discriminate].
  - intros Hcons. unfold mean_gap, gap_lengths.
    replace (filter (fun g => (0 <? g)%Z) (map missed (successive (d :: days))))
      with (@nil Z); [reflexivity|].
    symmetry. induction (successive (d :: days)) as [|[a b] l IH];
      [reflexivity|].
    cbn [map filter]. unfold missed at 1. cbn [fst snd].
    rewrite (Hcons a b (or_introl eq_refl)).
    replace (0 <? a + 1 - a - 1)%Z with false
      by (symmetry; apply Z.ltb_ge; lia).
    apply IH. intros a' b' H'. apply Hcons. right. exact H'.
Qed.

Lemma last_cons {A : Type} (x d : A) (l : list A) :
  last (x :: l) d = last l x.
Proof.
  revert x d. induction l as [|y l IH]; intros x d; [reflexivity|].
  change (last (x :: y :: l) d) with (last (y :: l) d).
  rewrite (IH y d), (IH y x). reflexivity.
Qed.

(** Over increasing days, the gaps add up to the days missed between the
    first and the last played day. *)
Lemma gap_lengths_total (d : Z) (days : list Z) :
  increasing (d :: days) ->
  total (gap_lengths (d :: days))
  = (last days d - d - Z.of_nat (length days))%Z.
Proof.
  revert d. induction days as [|x days IH]; intros d H.
  - cbn. lia.
  - rewrite gap_lengths_cons. destruct H as [Hd H].
    specialize (IH x H). specialize (Hd x (or_introl eq_refl)).
    rewrite last_cons. cbn [length]. rewrite Nat2Z.inj_succ.
    destruct (1 <? x - d)%Z eqn:E.
    + unfold total in *. cbn [fold_right]. rewrite IH. lia.
    + apply Z.ltb_ge in E. rewrite IH. lia.
Qed.

(** On the played days 1, 2 and 5 there is one gap, of two days: the pair of
    adjacent days adds nothing to the average. *)
Example mean_gap_1_2_5 : mean_gap [1; 2; 5]%Z = (inject_Z 2 / inject_Z 1)%Q.
Proof. reflexivity. Qed.

End Consistency.

Section ConsistencyExample.
Import PyStr Parser Sqlite Tracker Stats Notions.
Local Open Scope string_scope.

Lemma consistency_score_formula_witness :
  exists info,
    calculate_streak_consistency None None alice_days_1_2_5 alice_row
    = Some info
    /\ (consistency_score info == 1 # 3)%Q.
Proof.
  destruct (@consistency_score_formula None None alice_days_1_2_5 alice_row
              {| result_id := 1; r_streak_day := 1; r_user_id := 1;
                 r_score := lit "3"; r_is_winner := false |})
    as (info & days & H1 & _ & _ & _ & H2 & H3 & _).
  - vm_compute. left. reflexivity.
  - reflexivity.
  - intros a b Ha. discriminate.
  - exists info. split; [exact H1|]. rewrite H3.
    vm_compute in H1. injection H1 as <-. cbn [average_gap] in H2.
    rewrite <- H2. vm_compute. reflexivity.
Defined.

End ConsistencyExample.

(** ** What [parse_message] returns: the shape of the results *)

Section ParsedResults.
Import PyStr Re Parser Notions.
Local Open Scope string_scope.

Lemma lstrip_head (s : str) (c : char) (t : str) :
  lstrip s = c :: t -> isspace c = false.
Proof.
  induction s as [|x s IH]; cbn [lstrip]; [discriminate|].
  destruct (isspace x) eqn:E; [exact IH|].
  intros H. injection H as <- _. exact E.
Qed.

Lemma lstrip_suffix (s : str) : exists pre, s = pre ++ lstrip s.
Proof.
  induction s as [|x s [pre IH]]; cbn [lstrip]; [exists []; reflexivity|].
  destruct (isspace x).
  - exists (x :: pre). cbn [app]. f_equal. exact IH.
  - exists []. reflexivity.
Qed.

Lemma rstrip_prefix (s : str) : exists suf, s = rstrip s ++ suf.
Proof.
  unfold rstrip. destruct (lstrip_suffix (rev s)) as [pre H].
  exists (rev pre). rewrite <- rev_app_distr, <- H, rev_involutive.
  reflexivity.
Qed.

Lemma strip_within (s : str) : exists pre suf, s = pre ++ strip s ++ suf.
Proof.
  unfold strip. destruct (lstrip_suffix s) as [pre H].
  destruct (rstrip_prefix (lstrip s)) as [suf H'].
  exists pre, suf. rewrite <- H'. exact H.
Qed.

Lemma strip_in (s : str) (c : char) : In c (strip s) -> In c s.
Proof.
  destruct (strip_within s) as (pre & suf & H). intros Hc. rewrite H.
  apply in_or_app. right. apply in_or_app. left. exact Hc.
Qed.

(** [strip] leaves no white space at either end. *)
Lemma strip_stripped (s : str) : stripped (strip s).
Proof.
  split.
  - intros c t H. unfold strip in H.
    destruct (rstrip_prefix (lstrip s)) as [suf Hs]. rewrite H in Hs.
    cbn [app] in Hs. exact (lstrip_head _ Hs).
  - intros t c H. unfold strip, rstrip in H.
    apply (f_equal (@rev char)) in H.
    rewrite rev_involutive, rev_app_distr in H. cbn [rev app] in H.
    exact (lstrip_head _ H).
Qed.

(** [re.sub] with an empty replacement only removes characters. *)
Lemma delete_matches_in (r : regex) (n : nat) (s : str) (c : char) :
  In c (delete_matches n r s) -> In c s.
Proof.
  revert s. induction n as [|n IH]; intros s; cbn [delete_matches];
    [tauto|].
  destruct (search r s) as [m|] eqn:E; [|tauto].
  apply search_found in E as (mid & Hs & _). intros H. rewrite Hs.
  apply in_app_or in H as [H|H]; [apply in_or_app; left; exact H|].
  apply in_or_app. right. apply in_or_app. right.
  destruct (length (after m) + length (before m) <? length s).
  - exact (IH _ H).
  - destruct (after m) as [|x t]; [destruct H|].
    destruct H as [<-|H]; [left; reflexivity | right; exact (IH _ H)].
Qed.

(** A lazy star over a class, followed by [k]: [k] is entered after a run of
    characters of the class. *)
Lemma lazy_class (p : char -> bool) (k : cont) (n : nat) (s : str) (c : caps)
    (res : state) :
  lazy (exec (Cls p)) k n s c = Some res ->
  exists pre s1, s = pre ++ s1 /\ forallb p pre = true /\ k s1 c = Some res.
Proof.
  revert s. induction n as [|n IH]; intros s; cbn [lazy].
  - destruct (k s c) as [m|] eqn:E; [|discriminate].
    intros H. injection H as <-. exists [], s. auto.
  - destruct (k s c) as [m|] eqn:E.
    + intros H. injection H as <-. exists [], s. auto.
    + rewrite exec_Cls. destruct s as [|x t]; [discriminate|].
      destruct (p x) eqn:Hx; [|discriminate]. unfold progress.
      destruct (length t <? length (x :: t)); [|discriminate].
      intros H. apply IH in H as (pre & s1 & -> & Hp & H).
      exists (x :: pre), s1. cbn [forallb app]. rewrite Hx, Hp. auto.
Qed.

Lemma group_absent (r : regex) (n : nat) (c : caps) :
  added_by r c -> ~ In n (groups_of r) -> group n c = None.
Proof.
  unfold added_by. induction 1 as [|[m v] c Hm _ IH]; intros Hn;
    [reflexivity|].
  cbn [group]. cbn [fst] in Hm. destruct (Nat.eqb m n) eqn:E.
  - apply Nat.eqb_eq in E. subst m. contradiction.
  - exact (IH Hn).
Qed.

(** Group 1 of the username pattern holds no "@". *)
Lemma rematch_username (part rest : str) (c : caps) :
  rematch username_pattern part = Some (rest, c) ->
  forallb (fun x => negb (char_eqb x 64%N)) (group_text 1 c) = true.
Proof.
  unfold rematch, username_pattern. rewrite exec_Cat, exec_Group.
  change (exec (LazyStar ?r) ?s ?c0 ?k)
    with (lazy (exec r) k (length s) s c0).
  intros H. apply lazy_class in H as (pre & s1 & -> & Hp & H).
  apply exec_inv in H as (pre' & s2 & add & _ & Ha & H).
  unfold accept in H. injection H as _ <-.
  unfold group_text. rewrite group_after.
  - rewrite consumed_app. exact Hp.
  - apply Forall_impl with (2 := Ha). intros kv Hk. destruct Hk.
Qed.

Lemma forallb_not_at (s : str) :
  forallb (fun x => negb (char_eqb x 64%N)) s = true -> ~ In 64%N s.
Proof.
  intros H Hin. rewrite forallb_forall in H. specialize (H _ Hin).
  discriminate.
Qed.

Lemma block_results_names (crown sc usernames : str) (r : parsed_result) :
  In r (block_results crown sc usernames) ->
  stripped (username r) /\ ~ In 64%N (username r)
  /\ (is_winner r = true -> crown <> []).
Proof.
  unfold block_results. intros H. apply in_flat_map in H as (part & _ & H).
  destruct (rematch username_pattern part) as [[rest c]|] eqn:Em;
    [|destruct H].
  destruct (nonempty (strip (group_text 1 c))); [|destruct H].
  destruct (nonempty (strip (sub_empty trailing_punctuation
                               (strip (group_text 1 c)))));
    [|destruct H].
  cbn [andb] in H. destruct (0 <? _); [|destruct H].
  destruct H as [<-|[]]. cbn [username is_winner].
  split; [apply strip_stripped|]. split.
  - intros Hin. apply strip_in in Hin. apply delete_matches_in in Hin.
    apply strip_in in Hin. apply rematch_username in Em.
    exact (forallb_not_at _ Em Hin).
  - destruct crown; [discriminate|]. intros _. discriminate.
Qed.

Lemma parse_message_day_nonneg (msg : str) (p : parsed) :
  parse_message msg = Ok p -> (0 <= day p)%Z.
Proof.
  intros H. pose proof (search_streak msg) as Hs. unfold parse_message in H.
  destruct (search streak_pattern msg) as [m|]; [|discriminate].
  destruct Hs as (ds & (_ & Hne & Hd) & Hg & _). rewrite Hg in H.
  destruct (int ds) as [z0|] eqn:Ez; [|discriminate].
  destruct (int_of_digits Hne Hd (int_some_length _ Ez)) as (z & Hz & Hpos).
  rewrite Hz in Ez. injection Ez as <-. injection H as <-. exact Hpos.
Qed.

(** X1: for every text [parse_message] accepts, the day number is not
    negative, and every result has one character of "123456X" as its score
    and a name that is not empty, has no white space at either end and
    holds no "@". *)
Theorem parse_message_results_shape (msg : str) (p : parsed) :
  parse_message msg = Ok p ->
  (0 <= day p)%Z
  /\ Forall (fun r =>
               is_score_token (score r) = true
               /\ username r <> []
               /\ stripped (username r)
               /\ ~ In 64%N (username r))
       (Parser.results p).
Proof.
  intros H. split.
  - exact (parse_message_day_nonneg msg H).
  - pose proof (parse_message_tokens _ H) as Ht.
    rewrite Forall_forall in Ht. apply Forall_forall. intros r Hr.
    destruct (Ht _ Hr) as [H1 H2]. split; [exact H1|]. split; [exact H2|].
    unfold parse_message in H.
    destruct (search streak_pattern msg) as [m|]; [|discriminate].
    destruct (int _) as [d|]; [|discriminate].
    injection H as <-. cbn [Parser.results] in Hr.
    apply in_flat_map in Hr as (c & _ & Hr).
    apply block_results_names in Hr as (Ha & Hb & _). auto.
Qed.

Lemma parse_message_results_shape_witness :
  (0 <= 42)%Z
  /\ Forall (fun r =>
               is_score_token (score r) = true
               /\ username r <> []
               /\ stripped (username r)
               /\ ~ In 64%N (username r))
       [ {| username := lit "Alice"; score := lit "3"; is_winner := false |};
         {| username := lit "Bob"; score := lit "3"; is_winner := false |};
         {| username := lit "Carol"; score := lit "5"; is_winner := false |} ].
Proof.
  exact (@parse_message_results_shape crown_message _
           (eq_refl : parse_message crown_message = Ok _)).
Defined.

(** Every tuple of [findall] is the groups of a match at some position of
    the text. *)
Lemma scan_suffix (r : regex) (n : nat) (s : str) (c : caps) :
  In c (map (fun m => groups (snd m)) (scan n r s)) ->
  exists pre suf rest, s = pre ++ suf /\ rematch r suf = Some (rest, c).
Proof.
  revert s. induction n as [|n IH]; intros s H; [destruct H|].
  cbn [scan] in H. destruct (search r s) as [f|] eqn:E; [|destruct H].
  cbn [map snd] in H. apply search_found in E as (mid & Hs & E).
  destruct H as [<-|H].
  - exists (before f), (mid ++ after f), (after f). auto.
  - assert (forall t, (exists q, after f = q ++ t) ->
              In c (map (fun m => groups (snd m)) (scan n r t)) ->
              exists pre suf rest,
                s = pre ++ suf /\ rematch r suf = Some (rest, c)) as Hk.
    { intros t [q Hq] Ht. apply IH in Ht as (pre & suf & rest & -> & Ht).
      exists (before f ++ mid ++ q ++ pre), suf, rest.
      split; [|exact Ht]. rewrite Hs, Hq, <- !app_assoc. reflexivity. }
    destruct (length (after f) + length (before f) <? length s).
    + apply (Hk (after f)); [exists []; reflexivity | exact H].
    + destruct (after f) as [|x t] eqn:Ea; [destruct H|].
      apply (Hk t); [exists [x]; reflexivity | exact H].
Qed.

Lemma exec_Alt (r1 r2 : regex) (s : str) (c : caps) (k : cont) :
  exec (Alt r1 r2) s c k
  = match exec r1 s c k with
    | Some m => Some m
    | None => exec r2 s c k
    end.
Proof. reflexivity. Qed.

(** A score line whose group 1 took part in the match starts with the crown
    text of the pattern. *)
Lemma rematch_score_crown (s rest : str) (c : caps) :
  rematch score_pattern s = Some (rest, c) -> group_text 1 c <> [] ->
  startswith crown_literal s = true.
Proof.
  unfold rematch, score_pattern. rewrite exec_Cat. unfold Opt.
  rewrite exec_Alt.
  match goal with
  | |- context [match ?e with Some m => Some m | None => _ end] =>
      destruct e as [m|] eqn:E
  end.
  - intros _ _. rewrite exec_Group, exec_Cat, exec_Lit in E.
    destruct (startswith crown_literal s); [reflexivity | discriminate].
  - intros H Hg. exfalso. apply Hg.
    change (exec Eps s [] ?k) with (k s []) in H. cbv beta in H.
    apply exec_inv in H as (pre & s1 & add & _ & Ha & H).
    unfold accept in H. injection H as _ <-. rewrite app_nil_r.
    unfold group_text. rewrite (group_absent 1 Ha); [reflexivity|].
    cbn. intuition discriminate.
Qed.

(** X2: a result of [parse_message] is flagged as winner only when the text
    holds the four code points U+F8FF U+00FC U+00EB U+00EB that the source
    file has in the place of the crown: without them no one is a winner,
    whatever else the text holds. *)
Theorem winner_needs_stored_crown (msg : str) (p : parsed)
    (r : parsed_result) :
  parse_message msg = Ok p -> In r (Parser.results p) ->
  is_winner r = true ->
  exists pre post, msg = pre ++ crown_literal ++ post.
Proof.
  unfold parse_message.
  destruct (search streak_pattern msg) as [m|]; [|discriminate].
  destruct (int _) as [d|]; [|discriminate].
  intros H. injection H as <-. cbn [Parser.results]. intros Hr Hw.
  apply in_flat_map in Hr as (c & Hc & Hr).
  apply block_results_names in Hr as (_ & _ & Hcrown).
  specialize (Hcrown Hw). unfold findall in Hc.
  apply scan_suffix in Hc as (pre & suf & rest & -> & Hc).
  apply rematch_score_crown in Hc; [|exact Hcrown].
  apply startswith_inv in Hc. exists pre, (skipn (length crown_literal) suf).
  f_equal. exact Hc.
Qed.

Lemma winner_needs_stored_crown_witness :
  exists pre post, crown_message_as_stored = pre ++ crown_literal ++ post.
Proof.
  apply (@winner_needs_stored_crown crown_message_as_stored
           {| day := 42;
              results :=
                [ {| username := lit "Alice"; score := lit "3";
                     is_winner := true |};
                  {| username := lit "Bob"; score := lit "3";
                     is_winner := true |};
                  {| username := lit "Carol"; score := lit "5";
                     is_winner := false |} ] |}
           {| username := lit "Alice"; score := lit "3"; is_winner := true |}).
  - vm_compute. reflexivity.
  - left. reflexivity.
  - reflexivity.
Defined.

End ParsedResults.

(** ** Ingestion: the outcomes of a call, and what it keeps true *)

Section IngestionOutcomes.
Import PyStr Parser Sqlite Tracker Notions.
Local Open Scope py_scope.

Variable now : timestamp.


(** X3: a day number of 2^63 or more, which [parse_message] accepts when
    it has at most 4300 digits, is never stored. [add_streak_data] leaves
    the file as it was and raises: [OverflowError] when the number is bound
    to the first statement, or the error of the storage layer when that
    statement fails before its parameters are bound. *)
Theorem day_beyond_int64_overflows (F : faults) (msg : str) (p : parsed)
    (db : database) :
  parse_message msg = Ok p -> fits_int64 (day p) = false ->
  (2 ^ 63 <= day p)%Z
  /\ add_streak_data F now msg db
     = (Raise (if F 0 then OperationalError else OverflowError), db).
Proof.
  intros Hp Hfit. split.
  - pose proof (parse_message_day_nonneg msg Hp) as Hpos.
    unfold fits_int64 in Hfit. apply andb_false_iff in Hfit as [Hf|Hf].
    + apply Z.leb_gt in Hf. lia.
    + apply Z.ltb_ge in Hf. exact Hf.
  - rewrite (@add_streak_data_ingest now F msg db p Hp).
    destruct (@ingest_overflow now F p db Hfit) as [-> ->]. reflexivity.
Qed.



(** *** Orphans *)

Lemma no_orphan_results_apply_results (d : Z) (rs : list parsed_result)
    (db : database) :
  existsb (has_day d) (streaks db) = true ->
  no_orphan_results db -> no_orphan_results (apply_results now d rs db).
Proof.
  revert db. induction rs as [|r rs IH]; intros db Hd H; [exact H|].
  cbn [apply_results]. apply IH; [exact Hd|].
  unfold no_orphan_results, insert_or_replace_result, insert_or_ignore_user.
  cbn [results streaks]. apply Forall_app. split.
  - apply Forall_filter_keep. exact H.
  - constructor; [|constructor]. cbn [r_streak_day]. exact Hd.
Qed.

Lemma insert_streak_has_day (d : Z) (db : database) :
  existsb (has_day d) (streaks (insert_or_ignore_streak now d db)) = true.
Proof.
  unfold insert_or_ignore_streak. cbn [streaks].
  destruct (existsb (has_day d) (streaks db)) eqn:E; [exact E|].
  rewrite existsb_app. cbn [existsb]. unfold has_day at 2.
  cbn [streak_day]. rewrite Z.eqb_refl. apply orb_true_r.
Qed.

Lemma no_orphan_results_ingested (p : parsed) (db : database) :
  no_orphan_results db -> no_orphan_results (ingested now p db).
Proof.
  intros H. unfold ingested. apply no_orphan_results_apply_results.
  - apply insert_streak_has_day.
  - unfold no_orphan_results, insert_or_ignore_streak.
    cbn [results streaks]. apply Forall_impl with (2 := H).
    intros r Hr. destruct (existsb (has_day (day p)) (streaks db));
      [exact Hr|].
    rewrite existsb_app, Hr. reflexivity.
Qed.

Lemma no_orphan_users_apply_results (d : Z) (rs : list parsed_result)
    (db : database) :
  no_orphan_users db -> no_orphan_users (apply_results now d rs db).
Proof.
  revert db. induction rs as [|r rs IH]; intros db H; [exact H|].
  cbn [apply_results]. apply IH. clear IH.
  unfold no_orphan_users in *. rewrite Forall_forall in H.
  apply Forall_forall. intros u Hu.
  unfold insert_or_replace_result, insert_or_ignore_user in *.
  cbn [results users] in *. rewrite existsb_app. cbn [existsb r_user_id].
  destruct (user_id_after (username r) db =? user_id u)%Z eqn:Eid;
    [rewrite orb_true_r; reflexivity|].
  apply Z.eqb_neq in Eid. apply orb_true_iff. left.
  assert (In u (users db)) as Hin.
  { destruct (existsb (has_name (username r)) (users db)) eqn:Ex;
      [exact Hu|].
    apply in_app_or in Hu as [Hu|[<-|[]]]; [exact Hu|].
    exfalso. apply Eid. unfold user_id_after, select_user_id.
    rewrite existsb_find in Ex.
    destruct (find (has_name (username r)) (users db)); [discriminate|].
    reflexivity. }
  specialize (H _ Hin). apply existsb_exists in H as (x & Hx & Hxu).
  apply existsb_exists. exists x. split; [|exact Hxu].
  apply filter_In. split; [exact Hx|]. unfold for_pair.
  apply Z.eqb_eq in Hxu. rewrite Hxu.
  destruct (user_id u =? user_id_after (username r) db)%Z eqn:E.
  - apply Z.eqb_eq in E. congruence.
  - rewrite andb_false_r. reflexivity.
Qed.

Lemma no_orphan_users_ingested (p : parsed) (db : database) :
  no_orphan_users db -> no_orphan_users (ingested now p db).
Proof.
  intros H. unfold ingested. apply no_orphan_users_apply_results. exact H.
Qed.

Lemma known_users_apply_results (d : Z) (rs : list parsed_result)
    (db : database) :
  known_users db -> known_users (apply_results now d rs db).
Proof.
  revert db. induction rs as [|r rs IH]; intros db H; [exact H|].
  cbn [apply_results]. apply IH. clear IH.
  unfold known_users, insert_or_replace_result, insert_or_ignore_user in *.
  cbn [results users]. apply Forall_app. split.
  - apply Forall_filter_keep. apply Forall_impl with (2 := H).
    intros x Hx. destruct (existsb (has_name (username r)) (users db));
      [exact Hx|].
    rewrite existsb_app, Hx. reflexivity.
  - constructor; [|constructor]. cbn [r_user_id].
    unfold user_id_after, select_user_id.
    destruct (existsb (has_name (username r)) (users db)) eqn:Ex;
      rewrite existsb_find in Ex;
      destruct (find (has_name (username r)) (users db))
        as [row|] eqn:E; try discriminate.
    + apply find_some in E as [Hin _]. apply existsb_exists.
      exists row. split; [exact Hin | apply Z.eqb_refl].
    + rewrite existsb_app. cbn [existsb user_id]. rewrite Z.eqb_refl.
      apply orb_true_iff. right. reflexivity.
Qed.

Lemma known_users_ingested (p : parsed) (db : database) :
  known_users db -> known_users (ingested now p db).
Proof.
  intros H. unfold ingested. apply known_users_apply_results. exact H.
Qed.

(** X6: whatever the text and the storage environment, a call of
    [add_streak_data] keeps each of these true of the file: the constraints
    of the schema hold; every result belongs to a day that has its streak
    row; every user has a result; every result is of a known user; every
    score is one character of "123456X". *)
Theorem ingestion_keeps_integrity (F : faults) (msg : str)
    (db db' : database) (o : outcome summary) :
  add_streak_data F now msg db = (o, db') ->
  (well_formed db -> well_formed db')
  /\ (no_orphan_results db -> no_orphan_results db')
  /\ (no_orphan_users db -> no_orphan_users db')
  /\ (known_users db -> known_users db')
  /\ (tokens_only db -> tokens_only db').
Proof.
  intros H. split; [|split; [|split; [|split]]].
  - intros Hw. exact (@add_streak_data_well_formed now F msg db db' o Hw H).
  - intros Hr.
    destruct (@add_streak_data_all_or_nothing now F msg db db' o H)
      as [->|(p & _ & _ & ->)]; [exact Hr|].
    apply no_orphan_results_ingested. exact Hr.
  - intros Hu.
    destruct (@add_streak_data_all_or_nothing now F msg db db' o H)
      as [->|(p & _ & _ & ->)]; [exact Hu|].
    apply no_orphan_users_ingested. exact Hu.
  - intros Hk.
    destruct (@add_streak_data_all_or_nothing now F msg db db' o H)
      as [->|(p & _ & _ & ->)]; [exact Hk|].
    apply known_users_ingested. exact Hk.
  - intros Ht. exact (@add_streak_data_tokens_only now F msg db db' o Ht H).
Qed.

End IngestionOutcomes.

Section IngestionOutcomesExamples.
Import PyStr Parser Sqlite Tracker Notions.
Local Open Scope string_scope.

Lemma day_beyond_int64_overflows_witness :
  (2 ^ 63 <= 9223372036854775808)%Z
  /\ add_streak_data no_faults 0%Z
       (lit "9223372036854775808 day streak 3/6: @Alice") empty_database
     = (Raise OverflowError, empty_database).
Proof.
  apply (@day_beyond_int64_overflows 0%Z no_faults
           (lit "9223372036854775808 day streak 3/6: @Alice")
           {| day := 9223372036854775808;
              Parser.results :=
                [ {| username := lit "Alice"; score := lit "3";
                     is_winner := false |} ] |}
           empty_database).
  - vm_compute. reflexivity.
  - vm_compute. reflexivity.
Defined.



Lemma ingestion_keeps_integrity_witness :
  well_formed day5_with_alice /\ no_orphan_results day5_with_alice
  /\ no_orphan_users day5_with_alice /\ known_users day5_with_alice
  /\ tokens_only day5_with_alice.
Proof.
  destruct (@ingestion_keeps_integrity 0%Z no_faults
              (lit "5 day streak 3/6: @Alice") empty_database
              day5_with_alice
              (fst (add_streak_data no_faults 0%Z
                      (lit "5 day streak 3/6: @Alice") empty_database))
              (surjective_pairing _))
    as (H1 & H2 & H3 & H4 & H5).
  split; [apply H1, well_formed_empty|].
  split; [apply H2; constructor|].
  split; [apply H3; constructor|].
  split; [apply H4; constructor | apply H5; constructor].
Defined.

End IngestionOutcomesExamples.

(** ** Deletion, the wipe, and the contents the program can reach *)

Section DeletionOutcomes.
Import PyStr Sqlite Tracker Manager Reports Notions.
Local Open Scope py_scope.
Local Open Scope string_scope.

(** The file after [delete_day]: as before, or without the day. *)
Lemma delete_day_file (F : faults) (d : Z) (confirm : bool) (typed : str)
    (db : database) :
  snd (delete_day F d confirm typed db) = db
  \/ snd (delete_day F d confirm typed db) = deleted d db.
Proof.
  unfold delete_day, finish. cbn [fst snd]. unfold bind.
  destruct (@get_day_details_quiet F d (start db) eq_refl) as [Hd Hp].
  destruct (get_day_details F d (start db)) as [[[details|]|e] s1];
    cbn [fst snd] in *; [|left; exact Hd|left; exact Hd].
  destruct (negb confirm && negb (str_eqb (strip typed) (lit "DELETE")));
    [left; exact Hd|].
  unfold try_except.
  destruct (@delete_transaction_cases F d s1 Hp)
    as [[Ho Hdisk]|(e & Ho & Hdisk)];
    destruct (delete_transaction F d s1) as [o s2]; cbn [fst snd] in *;
    subst o.
  - right. cbn [snd]. rewrite Hdisk, Hd. reflexivity.
  - destruct (delete_handler_quiet F s2) as [_ Hk]. left.
    rewrite Hk, Hdisk, Hd. reflexivity.
Qed.

(** X7: when no call into the storage layer fails, [delete_day] returns
    [True] exactly when the day has its streak row and the deletion is
    confirmed, by the flag or by a line that reads "DELETE" once stripped,
    and then the file holds the former content without the day: the results
    and the streak rows of the other days, and the users as they were. In
    every other case it returns [False] and the file is as before, except
    that a day number beyond 64 bits makes the lookup raise
    [OverflowError]. *)
Theorem delete_day_no_faults (d : Z) (confirm : bool) (typed : str)
    (db : database) :
  delete_day no_faults d confirm typed db
  = (if fits_int64 d then
       if existsb (has_day d) (streaks db)
          && (confirm || str_eqb (strip typed) (lit "DELETE"))
       then (Ok true, deleted d db)
       else (Ok false, db)
     else (Raise OverflowError, db))
  /\ (forall r, In r (results (deleted d db))
                <-> In r (results db) /\ r_streak_day r <> d)
  /\ (forall s, In s (streaks (deleted d db))
                <-> In s (streaks db) /\ streak_day s <> d)
  /\ users (deleted d db) = users db.
Proof.
  split; [|apply deleted_rows].
  unfold delete_day, finish, get_day_details.
  unfold bind, ret, execute_read_int, execute_read, no_faults, start, close,
    rollback.
  destruct (fits_int64 d); [|reflexivity].
  rewrite existsb_find.
  cbn [executed step disk pending view].
  destruct (find (has_day d) (streaks db)); [|reflexivity].
  cbn [andb]. destruct confirm; [reflexivity|]. cbn [negb andb orb].
  destruct (str_eqb (strip typed) (lit "DELETE")); reflexivity.
Qed.

Lemma find_filter_other (d d' : Z) (l : list streak_row) :
  d' <> d ->
  find (has_day d') (filter (fun s => negb (has_day d s)) l)
  = find (has_day d') l.
Proof.
  intros Hne. unfold has_day. induction l as [|x l IH]; [reflexivity|].
  cbn [filter find].
  destruct (streak_day x =? d)%Z eqn:E1; cbn [negb].
  - apply Z.eqb_eq in E1.
    destruct (streak_day x =? d')%Z eqn:E2; [|exact IH].
    apply Z.eqb_eq in E2. congruence.
  - cbn [find].
    destruct (streak_day x =? d')%Z; [reflexivity | exact IH].
Qed.

Lemma flat_map_filter {A B : Type} (f : A -> list B) (g : A -> bool)
    (l : list A) :
  (forall x, g x = false -> f x = []) ->
  flat_map f (filter g l) = flat_map f l.
Proof.
  intros H. induction l as [|x l IH]; [reflexivity|].
  cbn [filter flat_map]. destruct (g x) eqn:E.
  - cbn [flat_map]. rewrite IH. reflexivity.
  - rewrite (H _ E), IH. reflexivity.
Qed.

Lemma select_day_results_other (d d' : Z) (db : database) :
  d' <> d ->
  select_day_results d' (deleted d db) = select_day_results d' db.
Proof.
  intros Hne. unfold select_day_results, deleted, delete_streak,
    delete_results_of_day. cbn [results users]. f_equal.
  apply flat_map_filter. intros x Hx. unfold on_day in *.
  apply negb_false_iff in Hx. apply Z.eqb_eq in Hx.
  destruct (r_streak_day x =? d')%Z eqn:E; [|reflexivity].
  apply Z.eqb_eq in E. congruence.
Qed.

(** X8: once [delete_day] has gone through, [get_day_details] finds the day
    no more, and for every other day it answers as it did before the
    deletion, in every storage environment. *)
Theorem lookup_after_delete (d : Z) (typed : str) (db : database) :
  fits_int64 d = true -> existsb (has_day d) (streaks db) = true ->
  exists db',
    delete_day no_faults d true typed db = (Ok true, db')
    /\ fst (get_day_details no_faults d (start db')) = Ok None
    /\ forall F d', d' <> d ->
         fst (get_day_details F d' (start db'))
         = fst (get_day_details F d' (start db)).
Proof.
  intros Hfit Hday. exists (deleted d db).
  split; [exact (@delete_day_succeeds d typed db Hfit Hday)|]. split.
  - unfold get_day_details.
    unfold bind, ret, execute_read_int, execute_read, no_faults, start,
      close, rollback.
    rewrite Hfit. cbn [executed step disk pending view].
    destruct (deleted_no_row d db) as [_ Hs].
    destruct (find (has_day d) (streaks (deleted d db))) as [row|] eqn:E;
      [|reflexivity].
    apply find_some in E as [Hin Hrow].
    assert (In row (filter (has_day d) (streaks (deleted d db)))) as H
      by (apply filter_In; auto).
    rewrite Hs in H. destruct H.
  - intros F d' Hne. unfold get_day_details.
    unfold bind, ret, execute_read_int, execute_read, start, close, rollback,
      step, view.
    cbn [executed disk pending].
    destruct (F 0); [reflexivity|].
    destruct (fits_int64 d'); [|reflexivity].
    unfold deleted at 1. cbn [streaks].
    change (fun s : streak_row => negb (streak_day s =? d)%Z)
      with (fun s : streak_row => negb (has_day d s)).
    rewrite (find_filter_other (streaks db) Hne).
    destruct (find (has_day d') (streaks db)) as [row|]; [|reflexivity].
    cbn [executed disk pending].
    destruct (F 1); [reflexivity|].
    cbn [fst].
    rewrite (select_day_results_other db Hne). reflexivity.
Qed.

Lemma lookup_after_delete_witness :
  exists db',
    delete_day no_faults 5 true [] day5_with_alice = (Ok true, db')
    /\ fst (get_day_details no_faults 5 (start db')) = Ok None
    /\ forall F d', d' <> 5%Z ->
         fst (get_day_details F d' (start db'))
         = fst (get_day_details F d' (start day5_with_alice)).
Proof.
  apply (@lookup_after_delete 5 [] day5_with_alice); reflexivity.
Defined.

(** *** [clear_database] *)

(** The content of the file once the three tables are empty. *)
Lemma clear_database_file (F : faults) (db : database) :
  snd (clear_database F db) = db
  \/ snd (clear_database F db)
     = delete_all_users (delete_all_streaks (delete_all_results db)).
Proof.
  unfold clear_database, finish, try_finally, try_except, clear_transaction,
    bind, ret, raise, execute_write, commit, close, rollback, step, start,
    view.
  cbn [executed pending disk fst snd].
  destruct (F 0); [left; reflexivity|]. cbn [executed pending disk fst snd].
  destruct (F 1); [left; reflexivity|]. cbn [executed pending disk fst snd].
  destruct (F 2); [left; reflexivity|]. cbn [executed pending disk fst snd].
  destruct (F 3); [left; reflexivity|]. right. reflexivity.
Qed.

(** X9: [clear_database] is all or nothing. When none of its four calls
    into the storage layer fails it returns [True] and the three tables are
    empty, while the largest rowid given out in each table stays on record;
    when one fails it raises [OperationalError] and the file is as
    before. *)
Theorem clear_database_all_or_nothing (F : faults) (db : database) :
  clear_database F db
  = if F 0 || F 1 || F 2 || F 3
    then (Raise OperationalError, db)
    else (Ok true,
          {| users := []; streaks := []; results := [];
             seq_users := seq_users db; seq_streaks := seq_streaks db;
             seq_results := seq_results db |}).
Proof.
  unfold clear_database, finish, try_finally, try_except, clear_transaction,
    bind, ret, raise, execute_write, commit, close, rollback, step, start,
    view.
  cbn [executed pending disk fst snd].
  destruct (F 0); [reflexivity|]. cbn [executed pending disk fst snd orb].
  destruct (F 1); [reflexivity|]. cbn [executed pending disk fst snd orb].
  destruct (F 2); [reflexivity|]. cbn [executed pending disk fst snd orb].
  destruct (F 3); reflexivity.
Qed.

(** *** What holds of every content the program can reach *)

Lemma deleted_no_orphan_results (d : Z) (db : database) :
  no_orphan_results db -> no_orphan_results (deleted d db).
Proof.
  unfold no_orphan_results, deleted, delete_streak, delete_results_of_day.
  cbn [results streaks]. intros H. rewrite Forall_forall in H.
  apply Forall_forall. intros r Hr. apply filter_In in Hr as [Hr Hd].
  specialize (H _ Hr). apply existsb_exists in H as (s & Hs & Hsd).
  apply existsb_exists. exists s. split; [|exact Hsd].
  apply filter_In. split; [exact Hs|]. unfold has_day, on_day in *.
  apply Z.eqb_eq in Hsd. rewrite Hsd. exact Hd.
Qed.

Lemma deleted_tokens_only (d : Z) (db : database) :
  tokens_only db -> tokens_only (deleted d db).
Proof.
  unfold tokens_only, deleted, delete_streak, delete_results_of_day.
  cbn [results]. apply Forall_filter_keep.
Qed.

Lemma deleted_known_users (d : Z) (db : database) :
  known_users db -> known_users (deleted d db).
Proof.
  unfold known_users, deleted, delete_streak, delete_results_of_day.
  cbn [results users]. apply Forall_filter_keep.
Qed.

Lemma cleared_well_formed (db : database) :
  well_formed (delete_all_users (delete_all_streaks (delete_all_results db))).
Proof. split; cbn; constructor. Qed.

(** X10: every content the program can bring a file to, from the empty
    store and by calls of [add_streak_data], [delete_day] and
    [clear_database] that may fail at any point, satisfies the constraints
    of the schema, has no result without the streak row of its day and none
    of an unknown user, and holds no score other than one character of
    "123456X". *)
Theorem reachable_integrity (db : database) :
  reachable db ->
  well_formed db /\ no_orphan_results db /\ known_users db
  /\ tokens_only db.
Proof.
  induction 1 as [|F now msg db _ (Hw & Hr & Hk & Ht)
                  |F d confirm typed db _ (Hw & Hr & Hk & Ht)
                  |F db _ (Hw & Hr & Hk & Ht)].
  - split; [exact well_formed_empty|]. repeat split; constructor.
  - pose proof (surjective_pairing (add_streak_data F now msg db)) as E.
    split; [exact (@add_streak_data_well_formed now F msg db _ _ Hw E)|].
    destruct (@add_streak_data_all_or_nothing now F msg db _ _ E)
      as [->|(p & _ & _ & Hdb)]; [auto|].
    split; [rewrite Hdb; apply no_orphan_results_ingested; exact Hr|].
    split; [rewrite Hdb; apply known_users_ingested; exact Hk|].
    exact (@add_streak_data_tokens_only now F msg db _ _ Ht E).
  - destruct (delete_day_file F d confirm typed db) as [->| ->]; [auto|].
    split; [exact (deleted_well_formed d Hw)|].
    split; [exact (deleted_no_orphan_results d Hr)|].
    split; [exact (deleted_known_users d Hk)
           | exact (deleted_tokens_only d Ht)].
  - destruct (clear_database_file F db) as [->| ->]; [auto|].
    split; [apply cleared_well_formed|]. repeat split; constructor.
Qed.

Lemma reachable_integrity_witness :
  well_formed day5_with_alice /\ no_orphan_results day5_with_alice
  /\ known_users day5_with_alice /\ tokens_only day5_with_alice.
Proof.
  apply reachable_integrity.
  exact (reach_add no_faults 0%Z (lit "5 day streak 3/6: @Alice") reach_init).
Defined.

End DeletionOutcomes.

(** ** Ingestion read back, and ingestion repeated *)

Section IngestionReadBack.
Import PyStr Parser Sqlite Tracker Manager Notions.
Local Open Scope py_scope.

Variable now : timestamp.

Lemma insert_by_name_keeps (x y : day_result) (l : list day_result) :
  y = x \/ In y l -> In y (insert_by_name x l).
Proof.
  induction l as [|z l IH]; cbn [insert_by_name].
  - intros [->|[]]. left. reflexivity.
  - destruct (str_leb (dr_username x) (dr_username z)).
    + intros [->|H]; [left; reflexivity | right; exact H].
    + intros [->|[->|H]];
        [right; apply IH; left; reflexivity
        | left; reflexivity
        | right; apply IH; right; exact H].
Qed.

Lemma sort_by_name_keeps (y : day_result) (l : list day_result) :
  In y l -> In y (sort_by_name l).
Proof.
  unfold sort_by_name. induction l as [|x l IH]; [tauto|].
  cbn [fold_right]. intros [->|H]; apply insert_by_name_keeps;
    [left; reflexivity | right; exact (IH H)].
Qed.

(** A stored result of a known user is among the rows of its day. *)
Lemma select_day_results_stored (d uid : Z) (u sc : str) (w : bool)
    (db : database) :
  select_user_id u db = Some uid -> stored d uid sc w db ->
  In {| dr_username := u; dr_score := sc; dr_is_winner := w |}
    (select_day_results d db).
Proof.
  intros Hsel [rid Hst]. unfold select_day_results.
  apply sort_by_name_keeps. apply in_flat_map.
  assert (In {| result_id := rid; r_streak_day := d; r_user_id := uid;
                r_score := sc; r_is_winner := w |}
            (filter (for_pair d uid) (results db))) as Hin
    by (rewrite Hst; left; reflexivity).
  apply filter_In in Hin as [Hin _].
  eexists. split; [exact Hin|]. unfold on_day. cbn [r_streak_day].
  rewrite Z.eqb_refl. cbn [r_user_id r_score r_is_winner].
  unfold select_user_id in Hsel.
  destruct (find (has_name u) (users db)) as [ur|] eqn:E; [|discriminate].
  injection Hsel as Hid. apply find_some in E as [Hur Hname].
  unfold has_name in Hname. apply str_eqb_eq in Hname.
  apply in_map_iff. exists ur. rewrite Hname. split; [reflexivity|].
  apply filter_In. split; [exact Hur|]. apply Z.eqb_eq. exact Hid.
Qed.

Lemma ingested_has_day (p : parsed) (db : database) :
  existsb (has_day (day p)) (streaks (ingested now p db)) = true.
Proof.
  unfold ingested. rewrite (@apply_results_streaks now).
  apply insert_streak_has_day.
Qed.

(** X11: what is ingested is read back. After [add_streak_data] on a
    message, [get_day_details] for the day of the message finds the day and
    lists, for every user the message names, the user with the score and the
    winner flag of the last result the message has for that user. *)
Theorem ingested_results_read_back (msg : str) (p : parsed) (db : database)
    (pre post : list parsed_result) (r : parsed_result) :
  well_formed db -> parse_message msg = Ok p -> fits_int64 (day p) = true ->
  Parser.results p = pre ++ r :: post -> not_later (username r) post ->
  exists sm db' details,
    add_streak_data no_faults now msg db = (Ok sm, db')
    /\ fst (get_day_details no_faults (day p) (start db')) = Ok (Some details)
    /\ dd_day details = day p
    /\ In {| dr_username := username r; dr_score := score r;
             dr_is_winner := is_winner r |} (dd_results details).
Proof.
  intros Hw Hp Hfit Hrs Hlast.
  destruct (@ingested_last now p db pre post r (wf_user_ids Hw) Hrs Hlast)
    as (uid & Hsel & Hst & _).
  pose proof (ingested_has_day p db) as Hday. rewrite existsb_find in Hday.
  destruct (find (has_day (day p)) (streaks (ingested now p db)))
    as [row|] eqn:Erow; [|discriminate].
  eexists _, (ingested now p db),
    {| dd_day := streak_day row; dd_imported_at := imported_at row;
       participants := length (select_day_results (day p)
                                 (ingested now p db));
       dd_results := select_day_results (day p) (ingested now p db) |}.
  split; [exact (@add_streak_data_no_faults now msg p db Hp Hfit)|].
  split; [|split].
  - unfold get_day_details.
    unfold bind, ret, execute_read_int, execute_read, no_faults, start,
      close, rollback, step, view.
    rewrite Hfit. cbn [executed disk pending]. rewrite Erow. reflexivity.
  - cbn [dd_day]. apply find_some in Erow as [_ Hrow].
    apply Z.eqb_eq. exact Hrow.
  - cbn [dd_results].
    exact (@select_day_results_stored _ _ _ _ _ _ Hsel Hst).
Qed.

(** *** The same message ingested again *)

Variable later : timestamp.

Lemma played_apply_result (t : timestamp) (d : Z) (r : parsed_result)
    (u : str) (uid : Z) (db : database) :
  played d u uid db -> played d u uid (Notions.apply_result t d r db).
Proof.
  intros [Hsel Hex]. split; [exact (@apply_result_select t d r db u uid Hsel)|].
  unfold Notions.apply_result, insert_or_replace_result,
    insert_or_ignore_user.
  cbn [results]. rewrite existsb_app. cbn [existsb].
  rewrite orb_false_r. apply orb_true_iff.
  destruct (user_id_after (username r) db =? uid)%Z eqn:E.
  { right. unfold for_pair. cbn [r_streak_day r_user_id].
    rewrite Z.eqb_refl, E. reflexivity. }
  left. apply existsb_exists in Hex as (x & Hx & Hxp).
  apply existsb_exists. exists x. split; [|exact Hxp].
  apply filter_In. split; [exact Hx|]. unfold for_pair in *.
  apply andb_true_iff in Hxp as [-> Hxu]. apply Z.eqb_eq in Hxu.
  rewrite Hxu, Z.eqb_sym, E. reflexivity.
Qed.

Lemma played_apply_results (t : timestamp) (d : Z) (rs : list parsed_result)
    (u : str) (uid : Z) (db : database) :
  played d u uid db -> played d u uid (Notions.apply_results t d rs db).
Proof.
  revert db. induction rs as [|r rs IH]; intros db H; [exact H|].
  rewrite apply_results_cons. apply IH. apply played_apply_result. exact H.
Qed.

(** After the loop, every user of the message has a result for the day. *)
Lemma apply_results_played (t : timestamp) (d : Z) (rs : list parsed_result)
    (db : database) (r : parsed_result) :
  In r rs ->
  exists uid, played d (username r) uid (Notions.apply_results t d rs db).
Proof.
  revert db. induction rs as [|x rs IH]; intros db; [intros []|].
  rewrite apply_results_cons. intros [->|Hr]; [|exact (IH _ Hr)].
  destruct (@apply_result_same t d r db) as [Hsel [rid Hst]].
  eexists. apply played_apply_results. split; [exact Hsel|].
  apply existsb_exists. eexists. split.
  - assert (In {| result_id := rid; r_streak_day := d;
                  r_user_id := user_id_after (username r) db;
                  r_score := score r; r_is_winner := is_winner r |}
              (filter (for_pair d (user_id_after (username r) db))
                 (results (Notions.apply_result t d r db)))) as Hin
      by (rewrite Hst; left; reflexivity).
    apply filter_In in Hin as [Hin _]. exact Hin.
  - unfold for_pair. cbn [r_streak_day r_user_id]. rewrite !Z.eqb_refl.
    reflexivity.
Qed.

Lemma filter_comm {A : Type} (f g : A -> bool) (l : list A) :
  filter f (filter g l) = filter g (filter f l).
Proof.
  induction l as [|x l IH]; [reflexivity|]. cbn [filter].
  destruct (f x) eqn:Ef, (g x) eqn:Eg; cbn [filter];
    rewrite ?Ef, ?Eg, ?IH; reflexivity.
Qed.

Lemma one_row_of_pair (d uid : Z) (l : list result_row) :
  NoDup (map (fun r => (r_streak_day r, r_user_id r)) l) ->
  existsb (for_pair d uid) l = true ->
  length (filter (for_pair d uid) l) = 1.
Proof.
  induction l as [|x l IH]; [discriminate|].
  cbn [map existsb filter]. intros Hnd Hex.
  apply NoDup_cons_iff in Hnd as [Hx Hl].
  destruct (for_pair d uid x) eqn:E.
  - cbn [length]. f_equal.
    destruct (filter (for_pair d uid) l) as [|y t] eqn:Ef; [reflexivity|].
    exfalso. apply Hx.
    assert (In y (filter (for_pair d uid) l)) as Hy
      by (rewrite Ef; left; reflexivity).
    apply filter_In in Hy as [Hy Hyp]. apply in_map_iff. exists y.
    split; [|exact Hy]. unfold for_pair in *.
    apply andb_true_iff in E as [E1 E2].
    apply andb_true_iff in Hyp as [H1 H2].
    apply Z.eqb_eq in E1, E2, H1, H2. congruence.
  - exact (IH Hl Hex).
Qed.

(** Replacing the result of a pair that has one keeps the number of results
    of the day. *)
Lemma replace_keeps_count (d uid : Z) (sc : str) (w : bool) (db : database) :
  NoDup (map (fun r => (r_streak_day r, r_user_id r)) (results db)) ->
  existsb (for_pair d uid) (results db) = true ->
  count_results_of_day d (insert_or_replace_result d uid sc w db)
  = count_results_of_day d db.
Proof.
  intros Hnd Hex. unfold count_results_of_day, insert_or_replace_result.
  cbn [results]. f_equal. rewrite filter_app, length_app.
  cbn [filter]. unfold on_day at 2. cbn [r_streak_day]. rewrite Z.eqb_refl.
  cbn [length].
  pose proof (filter_partition_length (for_pair d uid)
                (filter (on_day d) (results db))) as Hpart.
  assert (filter (for_pair d uid) (filter (on_day d) (results db))
          = filter (for_pair d uid) (results db)) as Hf.
  { apply filter_filter_absorb. intros x Hx. unfold for_pair in Hx.
    apply andb_true_iff in Hx as [Hx _]. exact Hx. }
  rewrite Hf, (one_row_of_pair _ _ _ Hnd Hex) in Hpart.
  rewrite (filter_comm (on_day d) (fun r => negb (for_pair d uid r))).
  lia.
Qed.

Lemma apply_results_again (d : Z) (rs : list parsed_result) (db : database) :
  fits_int64 d = true -> well_formed db ->
  (forall r, In r rs -> exists uid, played d (username r) uid db) ->
  users (Notions.apply_results later d rs db) = users db
  /\ count_results_of_day d (Notions.apply_results later d rs db)
     = count_results_of_day d db.
Proof.
  intros Hfit. revert db. induction rs as [|r rs IH]; intros db Hw Hall;
    [split; reflexivity|].
  rewrite apply_results_cons.
  destruct (Hall r (or_introl eq_refl)) as (uid & Hsel & Hex).
  assert (users (Notions.apply_result later d r db) = users db) as Hu.
  { unfold Notions.apply_result, insert_or_replace_result,
      insert_or_ignore_user. cbn [users]. rewrite existsb_find.
    unfold select_user_id in Hsel.
    destruct (find (has_name (username r)) (users db)); [reflexivity|].
    discriminate. }
  assert (count_results_of_day d (Notions.apply_result later d r db)
          = count_results_of_day d db) as Hc.
  { unfold Notions.apply_result, user_id_after. rewrite Hsel.
    rewrite replace_keeps_count; [reflexivity | exact (wf_result_pairs Hw)
                                 | exact Hex]. }
  destruct (IH (Notions.apply_result later d r db)) as [IHu IHc].
  - unfold Notions.apply_result.
    apply (@well_formed_replace_result d _ _ _ _ Hfit).
    apply (@well_formed_insert_user later). exact Hw.
  - intros r' Hr'. destruct (Hall r' (or_intror Hr')) as (uid' & H').
    exists uid'. apply played_apply_result. exact H'.
  - rewrite IHu, IHc, Hu, Hc. split; reflexivity.
Qed.

(** X12: ingesting the same message a second time adds nothing: the call
    returns the same summary as the first, with the same count for the day,
    and the users and the streak rows are those the first call left, row
    for row. *)
Theorem reimport_adds_nothing (msg : str) (p : parsed) (db : database) :
  well_formed db -> parse_message msg = Ok p -> fits_int64 (day p) = true ->
  exists sm db1 db2,
    add_streak_data no_faults now msg db = (Ok sm, db1)
    /\ add_streak_data no_faults later msg db1 = (Ok sm, db2)
    /\ users db2 = users db1
    /\ streaks db2 = streaks db1.
Proof.
  intros Hw Hp Hfit.
  pose proof (@well_formed_ingested now p db Hfit Hw) as Hw1.
  pose proof (ingested_has_day p db) as Hday.
  destruct (@apply_results_again (day p) (Parser.results p)
              (insert_or_ignore_streak later (day p) (ingested now p db))
              Hfit) as [Hu Hc].
  { apply (@well_formed_insert_streak later); assumption. }
  { intros r Hr.
    destruct (@apply_results_played now (day p) (Parser.results p)
                (insert_or_ignore_streak now (day p) db) r Hr)
      as (uid & Hsel & Hex).
    exists uid. split; [exact Hsel | exact Hex]. }
  exists {| sum_day := day p;
            results_added :=
              count_results_of_day (day p) (ingested now p db);
            users_in_day := map username (Parser.results p) |},
    (ingested now p db), (ingested later p (ingested now p db)).
  split; [exact (@add_streak_data_no_faults now msg p db Hp Hfit)|].
  split; [|split].
  - rewrite (@add_streak_data_no_faults later msg p _ Hp Hfit).
    do 3 f_equal. unfold ingested at 1. rewrite Hc. reflexivity.
  - unfold ingested at 1. rewrite Hu. reflexivity.
  - apply (@ingested_streaks later). exact Hday.
Qed.

End IngestionReadBack.

Section IngestionReadBackExamples.
Import PyStr Parser Sqlite Tracker Manager Notions.
Local Open Scope string_scope.

Lemma ingested_results_read_back_witness :
  exists sm db' details,
    add_streak_data no_faults 1%Z (lit "5 day streak X/6: @Alice")
      day5_with_alice = (Ok sm, db')
    /\ fst (get_day_details no_faults 5 (start db')) = Ok (Some details)
    /\ dd_day details = 5%Z
    /\ In {| dr_username := lit "Alice"; dr_score := lit "X";
             dr_is_winner := false |} (dd_results details).
Proof.
  apply (@ingested_results_read_back 1%Z (lit "5 day streak X/6: @Alice")
           {| day := 5; Parser.results := [alice_fails] |} day5_with_alice
           [] [] alice_fails).
  - exact day5_with_alice_well_formed.
  - vm_compute. reflexivity.
  - reflexivity.
  - reflexivity.
  - intros r' [].
Defined.

Lemma reimport_adds_nothing_witness :
  exists sm db1 db2,
    add_streak_data no_faults 1%Z (lit "5 day streak X/6: @Alice")
      day5_with_alice = (Ok sm, db1)
    /\ add_streak_data no_faults 2%Z (lit "5 day streak X/6: @Alice") db1
       = (Ok sm, db2)
    /\ users db2 = users db1
    /\ streaks db2 = streaks db1.
Proof.
  apply (@reimport_adds_nothing 1%Z 2%Z (lit "5 day streak X/6: @Alice")
           {| day := 5; Parser.results := [alice_fails] |} day5_with_alice).
  - exact day5_with_alice_well_formed.
  - vm_compute. reflexivity.
  - reflexivity.
Defined.

End IngestionReadBackExamples.

(** ** Streaks, gaps and rates *)

Section StreakBounds.
Import PyStr Sqlite Stats Reports Notions.

Lemma longest_from_bounds (days : list Z) (prev cur mx : Z) :
  (1 <= cur)%Z ->
  (mx <= longest_from prev cur mx days
   <= Z.max mx (cur + Z.of_nat (length days)))%Z.
Proof.
  revert prev cur mx. induction days as [|d days IH]; intros prev cur mx Hc;
    cbn [longest_from length].
  - lia.
  - destruct (d =? prev + 1)%Z.
    + specialize (IH d (cur + 1)%Z (Z.max mx (cur + 1)) ltac:(lia)). lia.
    + specialize (IH d 1%Z mx ltac:(lia)). lia.
Qed.

Lemma longest_from_no_gap (days : list Z) (prev cur mx : Z) :
  increasing (prev :: days) -> gaps_from prev days = [] ->
  (1 <= cur <= mx)%Z ->
  longest_from prev cur mx days
  = Z.max mx (cur + Z.of_nat (length days)).
Proof.
  revert prev cur mx. induction days as [|d days IH]; intros prev cur mx;
    cbn [longest_from length gaps_from]; [lia|].
  intros [Hp Hi] Hg Hc.
  destruct (1 <? d - prev)%Z eqn:E; [discriminate|].
  apply Z.ltb_ge in E. specialize (Hp d (or_introl eq_refl)).
  replace (d =? prev + 1)%Z with true by (symmetry; apply Z.eqb_eq; lia).
  rewrite (IH d (cur + 1)%Z (Z.max mx (cur + 1)) Hi Hg ltac:(lia)). lia.
Qed.

Lemma longest_from_gap (days : list Z) (prev cur mx : Z) :
  increasing (prev :: days) -> gaps_from prev days <> [] -> (1 <= cur)%Z ->
  (longest_from prev cur mx days
   <= Z.max mx (cur + Z.of_nat (length days) - 1))%Z.
Proof.
  revert prev cur mx. induction days as [|d days IH]; intros prev cur mx;
    cbn [longest_from length gaps_from]; [intros _ Hg; congruence|].
  intros [Hp Hi] Hg Hc. specialize (Hp d (or_introl eq_refl)).
  destruct (1 <? d - prev)%Z eqn:E.
  - apply Z.ltb_lt in E.
    replace (d =? prev + 1)%Z with false by (symmetry; apply Z.eqb_neq; lia).
    pose proof (longest_from_bounds days d mx (Z.le_refl 1)). lia.
  - apply Z.ltb_ge in E.
    replace (d =? prev + 1)%Z with true by (symmetry; apply Z.eqb_eq; lia).
    specialize (IH d (cur + 1)%Z (Z.max mx (cur + 1)) Hi Hg ltac:(lia)).
    destruct days as [|d' days]; [cbn in Hg; congruence|].
    cbn [length] in *. lia.
Qed.

(** X13: the longest streak [_find_longest_consecutive_streak] reports for a
    user is at least 1 and at most the number of days the user played, and
    it is that number exactly when there is no gap between the played
    days. *)
Theorem longest_streak_bounds (start_day end_day : option Z) (db : database)
    (u : user_row) (info : streak_info) :
  well_formed db ->
  calculate_streak_consistency start_day end_day db u = Some info ->
  (1 <= longest_streak info
   <= Z.of_nat (length (played_days start_day end_day db u)))%Z
  /\ (longest_streak info
      = Z.of_nat (length (played_days start_day end_day db u))
      <-> total_gaps info = 0).
Proof.
  intros Hw. pose proof (played_days_increasing start_day end_day u Hw) as Hi.
  unfold calculate_streak_consistency.
  destruct (played_days start_day end_day db u) as [|d days]; [discriminate|].
  intros H. injection H as <-.
  cbn [streak_info_of longest_streak total_gaps
       find_longest_consecutive_streak gaps_of length].
  pose proof (longest_from_bounds days d 1 (Z.le_refl 1)) as Hb.
  split; [lia|].
  destruct (gaps_from d days) as [|g gs] eqn:Eg.
  - rewrite (@longest_from_no_gap days d 1 1 Hi Eg ltac:(lia)). cbn [length].
    split; [reflexivity | lia].
  - assert (gaps_from d days <> []) as Hne by (rewrite Eg; discriminate).
    pose proof (@longest_from_gap days d 1 1 Hi Hne (Z.le_refl 1)) as Hg.
    cbn [length]. split; [|discriminate]. intros Hl. exfalso.
    destruct days as [|d' days]; [cbn in Eg; discriminate|].
    cbn [length] in *. lia.
Qed.

Lemma gaps_from_positive (prev : Z) (days : list Z) :
  Forall (fun g => (1 <= g <= g)%Z) (gaps_from prev days).
Proof.
  revert prev. induction days as [|d days IH]; intros prev;
    cbn [gaps_from]; [constructor|].
  destruct (1 <? d - prev)%Z eqn:E; [|apply IH].
  apply Z.ltb_lt in E. constructor; [lia | apply IH].
Qed.

Lemma total_bounds (lo : Z) (l : list Z) :
  Forall (fun x => (lo <= x <= x)%Z) l ->
  (lo * Z.of_nat (length l) <= fold_right Z.add 0 l)%Z.
Proof.
  induction 1 as [|x l Hx _ IH]; cbn [fold_right length]; lia.
Qed.

Lemma total_bounds_above (hi : Z) (l : list Z) :
  Forall (fun x => (x <= hi)%Z) l ->
  (fold_right Z.add 0 l <= hi * Z.of_nat (length l))%Z.
Proof.
  induction 1 as [|x l Hx _ IH]; cbn [fold_right length]; lia.
Qed.

Lemma mean_at_least (lo : Z) (l : list Z) :
  l <> [] -> Forall (fun x => (lo <= x <= x)%Z) l ->
  (inject_Z lo <= mean l)%Q.
Proof.
  intros Hne Hl. unfold mean. apply Qle_shift_div_l.
  - change 0%Q with (inject_Z 0). rewrite <- Zlt_Qlt.
    destruct l; [congruence | cbn [length]; lia].
  - rewrite <- inject_Z_mult, <- Zle_Qle. exact (total_bounds Hl).
Qed.

Lemma mean_at_most (hi : Z) (l : list Z) :
  l <> [] -> Forall (fun x => (x <= hi)%Z) l ->
  (mean l <= inject_Z hi)%Q.
Proof.
  intros Hne Hl. unfold mean. apply Qle_shift_div_r.
  - change 0%Q with (inject_Z 0). rewrite <- Zlt_Qlt.
    destruct l; [congruence | cbn [length]; lia].
  - rewrite <- inject_Z_mult, <- Zle_Qle. exact (total_bounds_above Hl).
Qed.

(** X14: the consistency score [_calculate_streak_consistency] gives a user
    takes no value between one half and 1: it is 1 when the played days have
    no gap, and otherwise the average gap is at least 1 and the score is
    positive and at most one half. *)
Theorem consistency_score_values (start_day end_day : option Z)
    (db : database) (u : user_row) (info : streak_info) :
  calculate_streak_consistency start_day end_day db u = Some info ->
  (total_gaps info = 0 /\ (average_gap info == 0)%Q
   /\ (consistency_score info == 1)%Q)
  \/ (0 < total_gaps info /\ (1 <= average_gap info)%Q
      /\ (0 < consistency_score info)%Q
      /\ (consistency_score info <= 1 # 2)%Q).
Proof.
  unfold calculate_streak_consistency.
  destruct (played_days start_day end_day db u) as [|d days]; [discriminate|].
  intros H. injection H as <-.
  cbn [streak_info_of total_gaps average_gap consistency_score gaps_of].
  pose proof (gaps_from_positive d days) as Hpos.
  destruct (gaps_from d days) as [|g gs].
  - left. split; [reflexivity|]. split; reflexivity.
  - right. split; [cbn [length]; lia|].
    assert (1 <= mean (g :: gs))%Q as Hm
      by (apply (@mean_at_least 1); [discriminate | exact Hpos]).
    split; [exact Hm|]. split.
    + apply Qlt_shift_div_l; lra.
    + apply Qle_shift_div_r; lra.
Qed.

Lemma gaps_at_most_total (l : list Z) :
  Forall (fun g => (1 <= g <= g)%Z) l ->
  (Z.of_nat (length l) <= total l)%Z /\ (total l = 0%Z -> l = []).
Proof.
  induction 1 as [|g l Hg _ [IH1 IH2]]; cbn [length total fold_right].
  - split; [lia | reflexivity].
  - unfold total in IH1. split; [lia|]. intros H0. lia.
Qed.

Lemma increasing_unique (l1 l2 : list Z) :
  increasing l1 -> increasing l2 -> (forall x, In x l1 <-> In x l2) ->
  l1 = l2.
Proof.
  revert l2. induction l1 as [|x l1 IH]; intros [|y l2] H1 H2 Hin.
  - reflexivity.
  - exfalso. apply (Hin y). left. reflexivity.
  - exfalso. apply (Hin x). left. reflexivity.
  - destruct H1 as [Hx H1]. destruct H2 as [Hy H2].
    assert (x = y) as ->.
    { assert (In x (y :: l2)) as Hxy by (apply Hin; left; reflexivity).
      assert (In y (x :: l1)) as Hyx by (apply Hin; left; reflexivity).
      destruct Hxy as [Hxy|Hxy]; [congruence|].
      destruct Hyx as [Hyx|Hyx]; [congruence|].
      specialize (Hx _ Hyx). specialize (Hy _ Hxy). lia. }
    f_equal. apply IH; [exact H1 | exact H2|].
    intros z. split; intros Hz.
    + assert (In z (y :: l2)) as [E|Hz'] by (apply Hin; right; exact Hz);
        [|exact Hz'].
      specialize (Hx _ Hz). lia.
    + assert (In z (y :: l1)) as [E|Hz'] by (apply Hin; right; exact Hz);
        [|exact Hz'].
      specialize (Hy _ Hz). lia.
Qed.

(** X15: the gaps account for the days missed. Let [d :: days] be the days
    of the results of a user in the period, in rising order, each once.
    The gaps the loop of [_calculate_streak_consistency] collects, each the
    length of a run of days not played, sum to the number of days between
    the first and the last played day on which the user did not play; so
    the number of gaps reported is at most that number, and is 0 exactly
    when no day was missed. *)
Theorem gaps_account_for_missed_days (start_day end_day : option Z)
    (db : database) (u : user_row) (info : streak_info) (d : Z)
    (days : list Z) :
  well_formed db ->
  increasing (d :: days) ->
  (forall x,
     In x (d :: days)
     <-> exists r, In r (results db) /\ r_user_id r = user_id u
                   /\ r_streak_day r = x /\ within start_day end_day x) ->
  calculate_streak_consistency start_day end_day db u = Some info ->
  total (gaps_of (d :: days))
  = (last days d - d + 1 - Z.of_nat (length (d :: days)))%Z
  /\ total_gaps info = length (gaps_of (d :: days))
  /\ (Z.of_nat (total_gaps info)
      <= last days d - d + 1 - Z.of_nat (length (d :: days)))%Z
  /\ (total_gaps info = 0
      <-> (last days d - d + 1)%Z = Z.of_nat (length (d :: days))).
Proof.
  intros Hw Hinc Hdays.
  assert (played_days start_day end_day db u = d :: days) as Hd.
  { apply increasing_unique;
      [apply played_days_increasing, Hw | exact Hinc |].
    intros x. rewrite (played_days_in start_day end_day db u x).
    symmetry. apply Hdays. }
  pose proof (played_days_increasing start_day end_day u Hw) as Hi.
  unfold calculate_streak_consistency. rewrite Hd in *.
  intros H. injection H as <-.
  cbn [streak_info_of total_gaps].
  pose proof (@gap_lengths_total d days Hi) as Ht.
  rewrite <- gaps_of_spec in Ht.
  pose proof (gaps_from_positive d days) as Hpos.
  change (gaps_from d days) with (gaps_of (d :: days)) in Hpos.
  destruct (gaps_at_most_total Hpos) as [Hle Hnil].
  cbn [length] in *.
  split; [lia|]. split; [reflexivity|]. split; [lia|]. split.
  - intros H0. destruct (gaps_of (d :: days)); [|discriminate].
    cbn [total fold_right] in Ht. lia.
  - intros Heq. rewrite Hnil; [reflexivity | lia].
Qed.

End StreakBounds.

Section StreakBoundsExamples.
Import PyStr Parser Sqlite Tracker Stats Notions.
Local Open Scope string_scope.

Lemma alice_days_1_2_5_well_formed : well_formed alice_days_1_2_5.
Proof.
  unfold alice_days_1_2_5.
  repeat (eapply add_streak_data_well_formed;
          [|apply surjective_pairing]).
  exact well_formed_empty.
Qed.

Lemma longest_streak_bounds_witness :
  exists info,
    calculate_streak_consistency None None alice_days_1_2_5 alice_row
    = Some info
    /\ (1 <= longest_streak info <= 3)%Z
    /\ (longest_streak info = 3%Z <-> total_gaps info = 0).
Proof.
  destruct (calculate_streak_consistency None None alice_days_1_2_5 alice_row)
    as [info|] eqn:E; [|vm_compute in E; discriminate].
  exists info. split; [reflexivity|].
  exact (@longest_streak_bounds None None alice_days_1_2_5 alice_row info
           alice_days_1_2_5_well_formed E).
Defined.

Lemma consistency_score_values_witness :
  exists info,
    calculate_streak_consistency None None alice_days_1_2_5 alice_row
    = Some info
    /\ ((total_gaps info = 0 /\ (average_gap info == 0)%Q
         /\ (consistency_score info == 1)%Q)
        \/ (0 < total_gaps info /\ (1 <= average_gap info)%Q
            /\ (0 < consistency_score info)%Q
            /\ (consistency_score info <= 1 # 2)%Q)).
Proof.
  destruct (calculate_streak_consistency None None alice_days_1_2_5 alice_row)
    as [info|] eqn:E; [|vm_compute in E; discriminate].
  exists info. split; [reflexivity|].
  exact (@consistency_score_values None None alice_days_1_2_5 alice_row info
           E).
Defined.

Lemma gaps_account_for_missed_days_witness :
  exists info,
    calculate_streak_consistency None None alice_days_1_2_5 alice_row
    = Some info
    /\ total (gaps_of [1; 2; 5]%Z) = 2%Z
    /\ total_gaps info = 1.
Proof.
  destruct (calculate_streak_consistency None None alice_days_1_2_5 alice_row)
    as [info|] eqn:E; [|vm_compute in E; discriminate].
  exists info. split; [reflexivity|].
  assert (played_days None None alice_days_1_2_5 alice_row = [1; 2; 5]%Z)
    as Hd by reflexivity.
  destruct (@gaps_account_for_missed_days None None alice_days_1_2_5
              alice_row info 1%Z [2; 5]%Z alice_days_1_2_5_well_formed)
    as (H1 & H2 & _).
  - cbn [increasing In]. intuition lia.
  - intros x. rewrite <- Hd. apply played_days_in.
  - exact E.
  - split; [exact H1 | exact H2].
Defined.

End StreakBoundsExamples.

(** ** Averages and participation *)

Section Rates.
Import PyStr Sqlite Manager Stats Reports Notions.
Local Open Scope string_scope.

Lemma numeric_bounds (sc : str) :
  is_score_token sc = true -> (1 <= numeric sc <= 7)%Z.
Proof.
  destruct sc as [|c [|c' t]]; try discriminate.
  unfold is_score_token, Parser.score_token, numeric, is_X, guesses, in_range,
    char_eqb. cbn [str_eqb lit]. unfold char_eqb. intros H.
  change (N_of_ascii "X") with 88%N.
  destruct (c =? 88)%N eqn:E; cbn [andb]; [lia|].
  rewrite orb_false_r in H. apply andb_true_iff in H as [H1 H2].
  apply N.leb_le in H1, H2. lia.
Qed.

(** X16: on a file that holds score tokens only, as every file filled by
    [add_streak_data] does, the all-time average of [get_all_time_stats] is
    computed for every user with a result, without [ValueError], and lies
    between 1 and 7. *)
Theorem all_time_average_bounds (db : database) (u : user_row)
    (o : outcome Q) :
  tokens_only db -> all_time_average db u = Some o ->
  exists q, o = Ok q /\ (1 <= q)%Q /\ (q <= 7)%Q.
Proof.
  intros Ht. unfold all_time_average.
  assert (Forall (fun sc => is_score_token sc = true)
            (map r_score
               (filter (fun r => (r_user_id r =? user_id u)%Z) (results db))))
    as Htok.
  { apply Forall_forall. intros sc Hsc.
    apply in_map_iff in Hsc as (r & <- & Hr). apply filter_In in Hr as [Hr _].
    unfold tokens_only in Ht. rewrite Forall_forall in Ht. exact (Ht _ Hr). }
  destruct (filter (fun r => (r_user_id r =? user_id u)%Z) (results db))
    as [|r rows]; [discriminate|].
  remember (map r_score (r :: rows)) as scores eqn:Es.
  assert (scores <> []) as Hne by (rewrite Es; discriminate).
  clear Es. intros H. injection H as <-. unfold average_score.
  rewrite (scores_of_group_concat Hne Htok).
  rewrite (numeric_scores_tokens Htok).
  assert (Forall (fun x => (1 <= x <= 7)%Z) (map numeric scores)) as Hb.
  { apply Forall_forall. intros x Hx. apply in_map_iff in Hx as (sc & <- & Hsc).
    rewrite Forall_forall in Htok. exact (numeric_bounds _ (Htok _ Hsc)). }
  destruct (map numeric scores) as [|n ns] eqn:En;
    [destruct scores; [congruence | discriminate]|].
  exists (mean (n :: ns)). split; [reflexivity|]. split.
  - apply (@mean_at_least 1); [discriminate|].
    apply Forall_impl with (2 := Hb). intros x Hx. lia.
  - apply (@mean_at_most 7); [discriminate|].
    apply Forall_impl with (2 := Hb). intros x Hx. lia.
Qed.

Lemma has_day_in (d : Z) (l : list streak_row) :
  existsb (has_day d) l = true -> In d (map streak_day l).
Proof.
  intros H. apply existsb_exists in H as (s & Hs & Hd).
  apply Z.eqb_eq in Hd. apply in_map_iff. exists s. auto.
Qed.

(** X17: on a file in which every result belongs to a day that has its
    streak row, the participation rate of [get_all_time_stats] is computed
    for every user with a result, without division by zero, and is positive
    and at most 1. *)
Theorem participation_rate_bounds (db : database) (u : user_row)
    (qt : quotient) :
  no_orphan_results db -> participation_rate db u = Some qt ->
  exists q, qt = Quotient q /\ (0 < q)%Q /\ (q <= 1)%Q.
Proof.
  intros Hno. unfold participation_rate.
  destruct (0 <? days_participated db u)%Z eqn:Epos; [|discriminate].
  apply Z.ltb_lt in Epos. intros H. injection H as <-.
  assert (days_participated db u <= total_days db)%Z as Hle.
  { unfold days_participated, total_days. apply inj_le.
    rewrite <- (length_map streak_day (streaks db)).
    apply NoDup_incl_length; [apply NoDup_nodup|].
    intros d Hd. apply nodup_In in Hd.
    apply in_map_iff in Hd as (r & <- & Hr). apply filter_In in Hr as [Hr _].
    unfold no_orphan_results in Hno. rewrite Forall_forall in Hno.
    exact (has_day_in _ _ (Hno _ Hr)). }
  unfold divide.
  destruct (total_days db =? 0)%Z eqn:E; [apply Z.eqb_eq in E; lia|].
  eexists. split; [reflexivity|]. split.
  - apply Qlt_shift_div_l.
    + change 0%Q with (inject_Z 0). rewrite <- Zlt_Qlt. lia.
    + rewrite Qmult_0_l. change 0%Q with (inject_Z 0).
      rewrite <- Zlt_Qlt. exact Epos.
  - apply Qle_shift_div_r.
    + change 0%Q with (inject_Z 0). rewrite <- Zlt_Qlt. lia.
    + rewrite Qmult_1_l. rewrite <- Zle_Qle. exact Hle.
Qed.

Lemma zrange_in (lo x : Z) (n : nat) :
  In x (zrange lo n) <-> (lo <= x < lo + Z.of_nat n)%Z.
Proof.
  unfold zrange. rewrite in_map_iff. split.
  - intros (i & <- & Hi). apply in_seq in Hi. lia.
  - intros H. exists (Z.to_nat (x - lo)). split; [lia|].
    apply in_seq. lia.
Qed.

Lemma list_max_increasing (d : Z) (l : list Z) :
  increasing (d :: l) -> list_max d l = last l d.
Proof.
  unfold list_max. revert d. induction l as [|y l IH]; intros d;
    [reflexivity|].
  intros [Hd Hi]. cbn [fold_left]. rewrite last_cons.
  rewrite Z.max_r by (specialize (Hd y (or_introl eq_refl)); lia).
  exact (IH y Hi).
Qed.

Lemma list_max_upper (d : Z) (l : list Z) (x : Z) :
  x = d \/ In x l -> (x <= list_max d l)%Z.
Proof.
  unfold list_max. revert d. induction l as [|y l IH]; intros d;
    cbn [fold_left].
  - intros [->|[]]. lia.
  - assert (forall a, (a <= fold_left Z.max l a)%Z) as Hmono.
    { clear. induction l as [|z l IH]; intros a; cbn [fold_left]; [lia|].
      specialize (IH (Z.max a z)). lia. }
    intros [->|[->|H]].
    + specialize (Hmono (Z.max d y)). lia.
    + specialize (Hmono (Z.max d x)). lia.
    + apply IH. right. exact H.
Qed.

(** X18: the last week of [get_last_week_stats]. The period starts at day 1
    at the earliest and spans at most seven days up to the largest streak
    day; within it every result of a user is for another day, so that the
    games counted are days played, at most seven, and the participation
    rate is positive and at most 1. *)
Theorem last_week_rate_bounds (db : database) (u : user_row) (q : Q) :
  well_formed db -> last_week_rate db u = Some q ->
  exists first_day max_day,
    last_week_period db = Some (first_day, max_day)
    /\ (1 <= first_day)%Z /\ (max_day - 6 <= first_day)%Z
    /\ (forall s, In s (streaks db) -> (streak_day s <= max_day)%Z)
    /\ NoDup (map r_streak_day
                (filter (fun r => (r_user_id r =? user_id u)%Z
                                  && ((first_day <=? r_streak_day r)%Z
                                      && (r_streak_day r <=? max_day)%Z))
                   (results db)))
    /\ (0 < games_in_period db u (first_day, max_day) <= 7)%Z
    /\ (0 < q)%Q /\ (q <= 1)%Q.
Proof.
  intros Hw. unfold last_week_rate.
  destruct (last_week_period db) as [[a m]|] eqn:Ep; [|discriminate].
  destruct (0 <? games_in_period db u (a, m))%Z eqn:Epos; [|discriminate].
  apply Z.ltb_lt in Epos. intros H. injection H as <-.
  exists a, m. split; [reflexivity|].
  unfold last_week_period, select_max_day in Ep.
  destruct (map streak_day (streaks db)) as [|d rest] eqn:Ed; [discriminate|].
  destruct (list_max d rest =? 0)%Z; [discriminate|].
  injection Ep as <- <-.
  split; [lia|]. split; [lia|]. split.
  { intros s Hs. apply list_max_upper.
    assert (In (streak_day s) (d :: rest)) as Hin
      by (rewrite <- Ed; apply in_map; exact Hs).
    destruct Hin as [->|Hin]; auto. }
  pose proof (@days_of_user_distinct
                (fun r => (Z.max 1 (list_max d rest - 6) <=? r_streak_day r)%Z
                          && (r_streak_day r <=? list_max d rest)%Z)
                (user_id u) (results db) (wf_result_pairs Hw)) as Hnd.
  split; [exact Hnd|].
  assert (games_in_period db u
            (Z.max 1 (list_max d rest - 6), list_max d rest) <= 7)%Z as Hle.
  { unfold games_in_period. cbn [fst snd].
    rewrite <- (length_map r_streak_day).
    change 7%Z with (Z.of_nat 7). apply inj_le.
    apply Nat.le_trans
      with (length (zrange (Z.max 1 (list_max d rest - 6)) 7));
      [|unfold zrange; rewrite length_map, length_seq; apply Nat.le_refl].
    apply NoDup_incl_length; [exact Hnd|].
    intros x Hx. apply in_map_iff in Hx as (r & <- & Hr).
    apply filter_In in Hr as [_ Hr].
    apply andb_true_iff in Hr as [_ Hr]. apply andb_true_iff in Hr as [H1 H2].
    apply Z.leb_le in H1, H2. apply zrange_in. lia. }
  split; [lia|]. split.
  - apply Qlt_shift_div_l; [reflexivity|]. rewrite Qmult_0_l.
    change 0%Q with (inject_Z 0). rewrite <- Zlt_Qlt. exact Epos.
  - apply Qle_shift_div_r; [reflexivity|]. rewrite Qmult_1_l.
    change 7%Q with (inject_Z 7). rewrite <- Zle_Qle. exact Hle.
Qed.

End Rates.

Section RatesExamples.
Import PyStr Parser Sqlite Tracker Stats Reports Notions.
Local Open Scope string_scope.

Lemma alice_days_1_2_5_tokens_only : tokens_only alice_days_1_2_5.
Proof.
  unfold alice_days_1_2_5.
  repeat (eapply add_streak_data_tokens_only;
          [|apply surjective_pairing]).
  constructor.
Qed.

Lemma alice_days_1_2_5_no_orphan_results : no_orphan_results alice_days_1_2_5.
Proof. unfold no_orphan_results. vm_compute. repeat constructor. Qed.

Lemma all_time_average_bounds_witness :
  exists o,
    all_time_average alice_days_1_2_5 alice_row = Some o
    /\ exists q, o = Ok q /\ (1 <= q)%Q /\ (q <= 7)%Q.
Proof.
  destruct (all_time_average alice_days_1_2_5 alice_row) as [o|] eqn:E;
    [|vm_compute in E; discriminate].
  exists o. split; [reflexivity|].
  exact (@all_time_average_bounds alice_days_1_2_5 alice_row o
           alice_days_1_2_5_tokens_only E).
Defined.

Lemma participation_rate_bounds_witness :
  exists qt,
    participation_rate alice_days_1_2_5 alice_row = Some qt
    /\ exists q, qt = Quotient q /\ (0 < q)%Q /\ (q <= 1)%Q.
Proof.
  destruct (participation_rate alice_days_1_2_5 alice_row) as [qt|] eqn:E;
    [|vm_compute in E; discriminate].
  exists qt. split; [reflexivity|].
  exact (@participation_rate_bounds alice_days_1_2_5 alice_row qt
           alice_days_1_2_5_no_orphan_results E).
Defined.

Lemma last_week_rate_bounds_witness :
  exists q,
    last_week_rate alice_days_1_2_5 alice_row = Some q
    /\ last_week_period alice_days_1_2_5 = Some (1, 5)%Z
    /\ (0 < q)%Q /\ (q <= 1)%Q.
Proof.
  destruct (last_week_rate alice_days_1_2_5 alice_row) as [q|] eqn:E;
    [|vm_compute in E; discriminate].
  exists q. split; [reflexivity|]. split; [reflexivity|].
  destruct (@last_week_rate_bounds alice_days_1_2_5 alice_row q
              alice_days_1_2_5_well_formed E)
    as (a & m & _ & _ & _ & _ & _ & _ & H1 & H2).
  split; assumption.
Defined.

End RatesExamples.

(** ** Diagnosis and overview *)

Section Diagnosis.
Import PyStr Sqlite Manager Stats Reports Notions.

Lemma mem_in (x : Z) (l : list Z) : mem x l = true <-> In x l.
Proof.
  unfold mem. rewrite existsb_exists. split.
  - intros (y & Hy & E). apply Z.eqb_eq in E. subst y. exact Hy.
  - intros H. exists x. split; [exact H | apply Z.eqb_refl].
Qed.

Lemma increasing_NoDup (l : list Z) : increasing l -> NoDup l.
Proof.
  induction l as [|x l IH]; [constructor|]. intros [Hx Hl].
  constructor; [|exact (IH Hl)]. intros Hin. specialize (Hx _ Hin). lia.
Qed.

Lemma increasing_last (d : Z) (l : list Z) :
  increasing (d :: l) -> (d <= last l d)%Z.
Proof.
  revert d. induction l as [|y l IH]; intros d; [cbn; lia|].
  intros [Hd Hi]. rewrite last_cons. specialize (IH y Hi).
  specialize (Hd y (or_introl eq_refl)). lia.
Qed.

Lemma increasing_last_upper (d : Z) (l : list Z) (x : Z) :
  increasing (d :: l) -> In x l -> (x <= last l d)%Z.
Proof.
  revert d. induction l as [|y l IH]; intros d; [intros _ []|].
  intros [_ Hi] Hx. rewrite last_cons. destruct Hx as [->|Hx].
  - exact (increasing_last Hi).
  - exact (IH y Hi Hx).
Qed.

Lemma list_min_increasing (d : Z) (l : list Z) :
  increasing (d :: l) -> list_min d l = d.
Proof.
  unfold list_min. intros [Hd _]. induction l as [|y l IH]; [reflexivity|].
  cbn [fold_left].
  rewrite Z.min_l by (specialize (Hd y (or_introl eq_refl)); lia).
  apply IH. intros z Hz. apply Hd. right. exact Hz.
Qed.

(** Between the first and the last of a list of distinct days in rising
    order, the days that are not in the list are the days of the gaps. *)
Lemma day_gaps_cover (prev : Z) (days : list Z) (x : Z) :
  increasing (prev :: days) ->
  ((prev < x <= last days prev)%Z /\ ~ In x days)
  <-> exists a b, In (a, b) (day_gaps_from prev days) /\ (a <= x <= b)%Z.
Proof.
  revert prev. induction days as [|d days IH]; intros prev Hi.
  - cbn. split; [lia | intros (a & b & [] & _)].
  - destruct Hi as [Hp Hi]. pose proof (Hp d (or_introl eq_refl)) as Hpd.
    pose proof (increasing_last Hi) as Hl. destruct Hi as [Hd Hi'].
    specialize (IH d (conj Hd Hi')). rewrite last_cons.
    cbn [day_gaps_from]. split.
    + intros [Hx Hnot].
      destruct (Z_lt_le_dec x d) as [Hlt|Hge].
      * exists (prev + 1)%Z, (d - 1)%Z. split; [|lia].
        replace (1 <? d - prev)%Z with true
          by (symmetry; apply Z.ltb_lt; lia).
        left. reflexivity.
      * destruct (proj1 IH) as (a & b & Hab & Hr).
        { split; [|intros Hin; apply Hnot; right; exact Hin].
          assert (x <> d) by (intros ->; apply Hnot; left; reflexivity).
          lia. }
        exists a, b. split; [|exact Hr].
        destruct (1 <? d - prev)%Z; [right|]; exact Hab.
    + intros (a & b & Hab & Hr).
      assert ((a, b) = (prev + 1, d - 1)%Z /\ (1 < d - prev)%Z
              \/ In (a, b) (day_gaps_from d days)) as [[E Hgap]|Hin].
      { destruct (1 <? d - prev)%Z eqn:E; [|right; exact Hab].
        apply Z.ltb_lt in E. destruct Hab as [<-|Hab]; auto. }
      * injection E as -> ->. split; [lia|].
        intros [->|Hin]; [lia|]. specialize (Hd _ Hin). lia.
      * destruct (proj2 IH) as [Hx Hnot]; [exists a, b; auto|].
        split; [lia|]. intros [->|Hin']; [lia | exact (Hnot Hin')].
Qed.

Lemma duplicates_from_none (seen days : list Z) :
  NoDup days -> (forall x, In x days -> ~ In x seen) ->
  duplicates_from seen days = [].
Proof.
  revert seen. induction days as [|d days IH]; intros seen Hnd Hs;
    [reflexivity|].
  cbn [duplicates_from]. apply NoDup_cons_iff in Hnd as [Hd Hnd].
  destruct (mem d seen) eqn:E.
  - apply mem_in in E. exfalso. exact (Hs d (or_introl eq_refl) E).
  - apply IH; [exact Hnd|]. intros x Hx [<-|Hin]; [exact (Hd Hx)|].
    exact (Hs x (or_intror Hx) Hin).
Qed.

(** What [diagnose] returns on a file that satisfies the schema. *)
Lemma diagnose_inv (db : database) (dg : diagnosis) :
  well_formed db -> diagnose db = Some dg ->
  exists d rest,
    sort_days (map streak_day (streaks db)) = d :: rest
    /\ increasing (d :: rest)
    /\ dg = {| streak_days := d :: rest;
               min_day := d;
               max_day := last rest d;
               duplicates := duplicates_from [] (d :: rest);
               missing_days :=
                 filter (fun x => negb (mem x (d :: rest)))
                   (zrange d (Z.to_nat (last rest d + 1 - d)));
               gaps := day_gaps_from d rest;
               orphaned_results := count_orphaned_results db;
               orphaned_users := count_orphaned_users db |}.
Proof.
  intros Hw. pose proof (sort_days_increasing (wf_streak_days Hw)) as Hi.
  unfold diagnose.
  destruct (sort_days (map streak_day (streaks db))) as [|d rest];
    [discriminate|].
  intros H. injection H as <-. exists d, rest.
  split; [reflexivity|]. split; [exact Hi|].
  rewrite (list_min_increasing Hi), (list_max_increasing Hi). reflexivity.
Qed.

(** X19: the missing days of [diagnose_database], on a file that satisfies
    the schema: a day is reported missing exactly when it lies between the
    smallest and the largest streak day and has no streak row, and exactly
    when it lies within one of the gaps the function lists; the smallest
    and the largest day bound every streak day. *)
Theorem diagnose_missing_days (db : database) (dg : diagnosis) :
  well_formed db -> diagnose db = Some dg ->
  (forall s, In s (streaks db) ->
     (min_day dg <= streak_day s <= max_day dg)%Z)
  /\ (forall x,
        In x (missing_days dg)
        <-> (min_day dg <= x <= max_day dg)%Z
            /\ ~ In x (map streak_day (streaks db)))
  /\ (forall x,
        In x (missing_days dg)
        <-> exists a b, In (a, b) (gaps dg) /\ (a <= x <= b)%Z).
Proof.
  intros Hw H. destruct (diagnose_inv Hw H) as (d & rest & Hs & Hi & ->).
  cbn [min_day max_day missing_days gaps].
  pose proof (increasing_last Hi) as Hl.
  assert (forall x, In x (map streak_day (streaks db)) <-> In x (d :: rest))
    as Hdays by (intros x; rewrite <- Hs; symmetry; apply sort_days_in).
  assert (forall x,
            In x (filter (fun x => negb (mem x (d :: rest)))
                    (zrange d (Z.to_nat (last rest d + 1 - d))))
            <-> (d <= x <= last rest d)%Z /\ ~ In x (d :: rest)) as Hmiss.
  { intros x. rewrite filter_In, zrange_in, negb_true_iff.
    rewrite <- not_true_iff_false, mem_in. split; intros [H1 H2]; split;
      try exact H2; lia. }
  split; [|split].
  - intros s Hin. assert (In (streak_day s) (d :: rest)) as [<-|Hr]
      by (apply Hdays, in_map; exact Hin); [lia|].
    pose proof (increasing_last_upper _ Hi Hr) as Hu.
    destruct Hi as [Hd Hi]. specialize (Hd _ Hr). lia.
  - intros x. rewrite Hmiss, Hdays. reflexivity.
  - intros x. rewrite Hmiss, <- (day_gaps_cover x Hi). split.
    + intros [H1 H2]. split; [|intros Hin; apply H2; right; exact Hin].
      assert (x <> d) by (intros ->; apply H2; left; reflexivity). lia.
    + intros [H1 H2]. split; [lia|]. intros [->|Hin]; [lia | exact (H2 Hin)].
Qed.

(** X20: on a file that satisfies the schema and in which every result
    belongs to a day that has its streak row, [diagnose_database] finds no
    duplicate day and counts no orphaned result, and days are missing
    exactly when the list of gaps is not empty. *)
Theorem diagnose_sound_store (db : database) (dg : diagnosis) :
  well_formed db -> no_orphan_results db -> diagnose db = Some dg ->
  duplicates dg = []
  /\ orphaned_results dg = 0%Z
  /\ (missing_days dg = [] <-> gaps dg = []).
Proof.
  intros Hw Hno H. destruct (diagnose_inv Hw H) as (d & rest & Hs & Hi & ->).
  cbn [duplicates orphaned_results missing_days gaps].
  split; [|split].
  - apply duplicates_from_none; [exact (increasing_NoDup _ Hi) | tauto].
  - unfold count_orphaned_results.
    replace (filter _ (results db)) with (@nil result_row); [reflexivity|].
    symmetry. unfold no_orphan_results in Hno. rewrite Forall_forall in Hno.
    induction (results db) as [|r l IH]; [reflexivity|]. cbn [filter].
    rewrite (proj2 (mem_in _ _) (has_day_in _ _ (Hno r (or_introl eq_refl)))).
    cbn [negb]. apply IH. intros x Hx. apply Hno. right. exact Hx.
  - pose proof (increasing_last Hi) as Hl.
    assert (forall x,
              In x (filter (fun x => negb (mem x (d :: rest)))
                      (zrange d (Z.to_nat (last rest d + 1 - d))))
              <-> exists a b,
                    In (a, b) (day_gaps_from d rest) /\ (a <= x <= b)%Z)
      as Hmiss.
    { intros x. rewrite filter_In, zrange_in, negb_true_iff.
      rewrite <- not_true_iff_false, mem_in, <- (day_gaps_cover x Hi).
      split.
      - intros [H1 H2]. split; [|intros Hin; apply H2; right; exact Hin].
        assert (x <> d) by (intros ->; apply H2; left; reflexivity). lia.
      - intros [H1 H2]. split; [lia|].
        intros [->|Hin]; [lia | exact (H2 Hin)]. }
    split.
    + intros Hm. destruct (day_gaps_from d rest) as [|[a b] gs] eqn:Eg;
        [reflexivity|]. exfalso.
      assert (a <= b)%Z as Hab.
      { clear - Eg. revert d Eg. induction rest as [|y rest IH]; intros d;
          cbn [day_gaps_from]; [discriminate|].
        destruct (1 <? y - d)%Z eqn:E; [|exact (IH y)].
        apply Z.ltb_lt in E. intros H. injection H as <- <- _. lia. }
      assert (In a (filter (fun x => negb (mem x (d :: rest)))
                      (zrange d (Z.to_nat (last rest d + 1 - d))))) as Hin
        by (apply Hmiss; exists a, b; split; [left; reflexivity | lia]).
      rewrite Hm in Hin. destruct Hin.
    + intros Hg.
      destruct (filter (fun x => negb (mem x (d :: rest)))
                  (zrange d (Z.to_nat (last rest d + 1 - d))))
        as [|x l] eqn:Ef; [reflexivity|]. exfalso.
      destruct (proj1 (Hmiss x) (or_introl eq_refl)) as (a & b & Hab & _).
      rewrite Hg in Hab. destruct Hab.
Qed.

(** *** [get_brief_overview] *)

Lemma str_leb_total (s t : str) : str_leb s t = false -> str_leb t s = true.
Proof.
  revert t. induction s as [|a s IH]; intros [|b t]; cbn [str_leb];
    try discriminate; try reflexivity.
  unfold char_eqb. intros H. apply orb_false_iff in H as [H1 H2].
  apply N.ltb_ge in H1. destruct (N.eqb_spec a b) as [->|Hne].
  - cbn [andb] in H2. rewrite (IH _ H2), N.eqb_refl. apply orb_true_r.
  - apply orb_true_iff. left. apply N.ltb_lt. lia.
Qed.

Lemma insert_name_perm (x : str) (l : list str) :
  Permutation (insert_name x l) (x :: l).
Proof.
  induction l as [|y l IH]; cbn [insert_name]; [reflexivity|].
  destruct (str_leb x y); [reflexivity|].
  rewrite IH. apply perm_swap.
Qed.

Lemma sort_names_perm (l : list str) : Permutation (sort_names l) l.
Proof.
  unfold sort_names. induction l as [|x l IH]; [reflexivity|].
  cbn [fold_right]. rewrite insert_name_perm. constructor. exact IH.
Qed.

Lemma insert_name_sorted (x : str) (l : list str) :
  Sorted (fun a b => str_leb a b = true) l ->
  Sorted (fun a b => str_leb a b = true) (insert_name x l).
Proof.
  induction 1 as [|y l Hl IH Hy]; cbn [insert_name];
    [repeat constructor|].
  destruct (str_leb x y) eqn:E.
  - constructor; [constructor; assumption | constructor; exact E].
  - constructor; [exact IH|]. apply str_leb_total in E.
    destruct l as [|z l]; cbn [insert_name]; [constructor; exact E|].
    destruct (str_leb x z); constructor; [exact E|].
    inversion Hy; assumption.
Qed.

Lemma sort_names_sorted (l : list str) :
  Sorted (fun a b => str_leb a b = true) (sort_names l).
Proof.
  unfold sort_names. induction l as [|x l IH]; [constructor|].
  cbn [fold_right]. apply insert_name_sorted. exact IH.
Qed.

(** X21: when [get_brief_overview] returns, the file is as before and the
    overview is that of the file: the three totals are the numbers of rows
    of the three tables, and the list of users holds the name of every user
    once, in the order of the code points, so that its length is the total
    of users. *)
Theorem brief_overview_of_file (F : faults) (db : database) (ov : overview)
    (s' : session) :
  get_brief_overview F (start db) = (Ok ov, s') ->
  disk s' = db
  /\ total_streaks ov = Z.of_nat (length (streaks db))
  /\ total_entries ov = Z.of_nat (length (results db))
  /\ total_users ov = Z.of_nat (length (overview_users ov))
  /\ Permutation (overview_users ov) (map user_name (users db))
  /\ Sorted (fun a b => str_leb a b = true) (overview_users ov).
Proof.
  unfold get_brief_overview, bind, ret, execute_read, close, rollback, step,
    start, view.
  cbn [executed pending disk].
  destruct (F 0); [discriminate|]. cbn [executed pending disk].
  destruct (F 1); [discriminate|]. cbn [executed pending disk].
  destruct (F 2); [discriminate|]. cbn [executed pending disk].
  destruct (F 3); [discriminate|]. cbn [executed pending disk].
  intros H. injection H as <- <-.
  cbn [disk total_streaks total_entries total_users overview_users].
  split; [reflexivity|]. split; [reflexivity|]. split; [reflexivity|].
  split; [|split].
  - rewrite (Permutation_length (sort_names_perm _)), length_map.
    reflexivity.
  - apply sort_names_perm.
  - apply sort_names_sorted.
Qed.

Lemma brief_overview_of_file_witness :
  exists ov,
    fst (get_brief_overview no_faults (start alice_days_1_2_5)) = Ok ov
    /\ total_streaks ov = 3%Z /\ total_entries ov = 3%Z
    /\ total_users ov = Z.of_nat (length (overview_users ov)).
Proof.
  destruct (get_brief_overview no_faults (start alice_days_1_2_5))
    as [[ov|e] s'] eqn:E; [|vm_compute in E; discriminate].
  exists ov. split; [reflexivity|].
  destruct (@brief_overview_of_file no_faults alice_days_1_2_5 ov s' E)
    as (_ & H1 & H2 & H3 & _).
  split; [exact H1|]. split; [exact H2 | exact H3].
Defined.

Lemma diagnose_missing_days_witness :
  exists dg,
    diagnose alice_days_1_2_5 = Some dg
    /\ forall x,
         In x (missing_days dg)
         <-> exists a b, In (a, b) (gaps dg) /\ (a <= x <= b)%Z.
Proof.
  destruct (diagnose alice_days_1_2_5) as [dg|] eqn:E;
    [|vm_compute in E; discriminate].
  exists dg. split; [reflexivity|].
  exact (proj2 (proj2 (@diagnose_missing_days alice_days_1_2_5 dg
                         alice_days_1_2_5_well_formed E))).
Defined.

Lemma diagnose_sound_store_witness :
  exists dg,
    diagnose alice_days_1_2_5 = Some dg
    /\ duplicates dg = []
    /\ orphaned_results dg = 0%Z
    /\ (missing_days dg = [] <-> gaps dg = []).
Proof.
  destruct (diagnose alice_days_1_2_5) as [dg|] eqn:E;
    [|vm_compute in E; discriminate].
  exists dg. split; [reflexivity|].
  exact (@diagnose_sound_store alice_days_1_2_5 dg
           alice_days_1_2_5_well_formed alice_days_1_2_5_no_orphan_results
           E).
Defined.

End Diagnosis.

(** ** The exceptions of [add_streak_data] and [delete_day] *)

Section Exceptions.
Import PyStr Parser Sqlite Tracker Manager Notions.
Local Open Scope py_scope.
Local Open Scope string_scope.

Variable now : timestamp.

(** The row [add_user] selects is always there: subscripting the result of
    [fetchone()] never fails. *)
Lemma add_user_raises (F : faults) (u : str) (s s' : session) (e : exn) :
  add_user F now u s = (Raise e, s') ->
  e = OperationalError /\ exists i, F i = true.
Proof.
  unfold add_user, bind, execute_write, execute_read, ret, raise.
  destruct (F (executed s)) eqn:E0.
  { intros H. injection H as <- _. split; [reflexivity | eauto]. }
  cbn [executed step].
  destruct (F (S (executed s))) eqn:E1.
  { intros H. injection H as <- _. split; [reflexivity | eauto]. }
  unfold view at 1. cbn [pending step].
  rewrite (@select_insert now). discriminate.
Qed.

Lemma add_results_raises (F : faults) (d : Z) (rs : list parsed_result)
    (s s' : session) (e : exn) :
  add_results F now d rs s = (Raise e, s') ->
  e = OperationalError /\ exists i, F i = true.
Proof.
  revert s. induction rs as [|r rs IH]; intros s; cbn [add_results];
    [discriminate|].
  intros H. apply bind_inv in H as [(uid & s1 & _ & H)|(e' & H & E)].
  - apply bind_inv in H as [(x & s2 & _ & H)|(e' & H & E)];
      [exact (IH _ H)|].
    injection E as ->. unfold execute_write in H.
    destruct (F (executed s1)) eqn:E1; [|discriminate].
    injection H as <- _. split; [reflexivity | eauto].
  - injection E as ->. eapply add_user_raises. exact H.
Qed.

Lemma ingest_raises (F : faults) (p : parsed) (s s' : session) (e : exn) :
  ingest F now p s = (Raise e, s') ->
  (e = OverflowError /\ fits_int64 (day p) = false
   /\ F (executed s) = false)
  \/ (e = OperationalError /\ exists i, F i = true).
Proof.
  unfold ingest. intros H.
  apply bind_inv in H as [(x1 & s1 & _ & H)|(e' & H & E)].
  2:{ injection E as ->. unfold execute_write_int in H.
      destruct (F (executed s)) eqn:E0.
      - injection H as <- _. right. split; [reflexivity | eauto].
      - destruct (fits_int64 (day p)) eqn:Hfit; [discriminate|].
        injection H as <- _. left. auto. }
  right.
  apply bind_inv in H as [(x2 & s2 & _ & H)|(e' & H & E)].
  2:{ injection E as ->. eapply add_results_raises. exact H. }
  apply bind_inv in H as [(x3 & s3 & _ & H)|(e' & H & E)].
  2:{ injection E as ->. unfold commit in H.
      destruct (F (executed s2)) eqn:E2; [|discriminate].
      injection H as <- _. split; [reflexivity | eauto]. }
  apply bind_inv in H as [(x4 & s4 & _ & H)|(e' & H & E)]; [discriminate|].
  injection E as ->. unfold execute_read in H.
  destruct (F (executed s3)) eqn:E3; [|discriminate].
  injection H as <- _. split; [reflexivity | eauto].
Qed.

(** X22: the exceptions of [add_streak_data] on a text of scalar values
    are three. [ValueError] is raised only for a text without day marker or
    one whose first marker has a number of more than 4300 digits;
    [OverflowError] only for a day number of 2^63 or more, and only when the
    first statement has not failed before; [OperationalError] only when a
    call into the storage layer fails. In particular the row [add_user]
    selects after its insertion is always found: [TypeError] is never
    raised. *)
Theorem add_streak_data_exceptions (F : faults) (msg : str)
    (db db' : database) (e : exn) :
  scalar_text msg ->
  add_streak_data F now msg db = (Raise e, db') ->
  (e = ValueError
   /\ ((forall pre ds post, ~ marker msg pre ds post)
       \/ exists pre ds post, first_marker msg pre ds post /\ too_long ds))
  \/ (e = OverflowError /\ F 0 = false
      /\ exists p, parse_message msg = Ok p /\ (2 ^ 63 <= day p)%Z)
  \/ (e = OperationalError /\ exists i, F i = true).
Proof.
  intros _. destruct (parse_message msg) as [p|e'] eqn:Hp.
  - rewrite (@add_streak_data_ingest now F msg db p Hp).
    destruct (ingest F now p (start db)) as [[sm|e'] s'] eqn:E;
      [discriminate|].
    cbn [fst snd]. intros H. injection H as <- _.
    destruct (@ingest_raises F p _ _ _ E) as [(-> & Hfit & HF)|H]; [|auto].
    right. left. split; [reflexivity|]. split; [exact HF|].
    exists p. split; [reflexivity|].
    pose proof (parse_message_day_nonneg msg Hp) as Hpos.
    unfold fits_int64 in Hfit. apply andb_false_iff in Hfit as [Hf|Hf].
    + apply Z.leb_gt in Hf. lia.
    + apply Z.ltb_ge in Hf. exact Hf.
  - unfold add_streak_data. rewrite Hp. intros H. injection H as <- _.
    left. exact (@parse_message_raise msg _ Hp).
Qed.

(** X23: the line of the confirmation being read, [delete_day] raises only
    from the lookup it starts with: with [OverflowError] for a day number
    beyond 64 bits, or with [OperationalError] when one of the two reads of
    the lookup fails. A failure inside the transaction is never raised: the
    function returns [False]. *)
Theorem delete_day_exceptions (F : faults) (d : Z) (confirm : bool)
    (typed : str) (db db' : database) (e : exn) :
  delete_day F d confirm typed db = (Raise e, db') ->
  (e = OverflowError /\ fits_int64 d = false)
  \/ (e = OperationalError /\ (F 0 = true \/ F 1 = true)).
Proof.
  unfold delete_day, finish. intros H. injection H as H _.
  unfold bind at 1 in H.
  destruct (get_day_details F d (start db)) as [[[details|]|e'] s1] eqn:E;
    cbn [fst] in H.
  - destruct (negb confirm && negb (str_eqb (strip typed) _));
      [unfold ret in H; discriminate|].
    unfold try_except in H.
    destruct (delete_transaction F d s1) as [[b|e'] s2];
      [cbn [fst] in H; discriminate|].
    rewrite (proj1 (delete_handler_quiet F s2)) in H. discriminate.
  - unfold ret in H. discriminate.
  - cbn [fst] in H. injection H as ->. revert E.
    unfold get_day_details, bind, ret, raise, execute_read_int, execute_read,
      close, rollback, step, start, view.
    cbn [executed pending disk].
    destruct (F 0); [intros H; injection H as <- _; auto|].
    destruct (fits_int64 d); [|intros H; injection H as <- _; auto].
    destruct (find (has_day d) (streaks db)); [|discriminate].
    cbn [executed pending disk].
    destruct (F 1); [intros H; injection H as <- _; auto | discriminate].
Qed.

End Exceptions.

Section ExceptionsExamples.
Import PyStr Parser Sqlite Tracker Manager Notions.
Local Open Scope string_scope.

Lemma add_streak_data_exceptions_witness :
  scalar_text five_results_message
  /\ exists e db',
       add_streak_data third_result_fails 0%Z five_results_message
         empty_database = (Raise e, db')
       /\ ((e = ValueError
            /\ ((forall pre ds post,
                   ~ marker five_results_message pre ds post)
                \/ exists pre ds post,
                     first_marker five_results_message pre ds post
                     /\ too_long ds))
           \/ (e = OverflowError /\ third_result_fails 0 = false
               /\ exists p, parse_message five_results_message = Ok p
                            /\ (2 ^ 63 <= day p)%Z)
           \/ (e = OperationalError
               /\ exists i, third_result_fails i = true)).
Proof.
  split; [reflexivity|].
  destruct (add_streak_data third_result_fails 0%Z five_results_message
              empty_database) as [[sm|e] db'] eqn:E;
    [vm_compute in E; discriminate|].
  exists e, db'. split; [reflexivity|].
  exact (@add_streak_data_exceptions 0%Z third_result_fails
           five_results_message empty_database db' e eq_refl E).
Defined.

Lemma delete_day_exceptions_witness :
  exists e db',
    delete_day (fun n => Nat.eqb n 1) 5 true [] day5_with_alice
    = (Raise e, db')
    /\ e = OperationalError.
Proof.
  destruct (delete_day (fun n => Nat.eqb n 1) 5 true [] day5_with_alice)
    as [[b|e] db'] eqn:E; [vm_compute in E; discriminate|].
  exists e, db'. split; [reflexivity|].
  destruct (@delete_day_exceptions (fun n => Nat.eqb n 1) 5 true []
              day5_with_alice db' e E) as [[_ H]|[H _]];
    [discriminate | exact H].
Defined.

End ExceptionsExamples.

(** ** The participants of a day *)

Section Participants.
Import PyStr Sqlite Tracker Manager Reports Notions.
Local Open Scope py_scope.

Lemma insert_by_name_length (x : day_result) (l : list day_result) :
  length (insert_by_name x l) = S (length l).
Proof.
  induction l as [|y l IH]; cbn [insert_by_name]; [reflexivity|].
  destruct (str_leb _ _); cbn [length]; [reflexivity|].
  rewrite IH. reflexivity.
Qed.

Lemma sort_by_name_length (l : list day_result) :
  length (sort_by_name l) = length l.
Proof.
  unfold sort_by_name. induction l as [|x l IH]; [reflexivity|].
  cbn [fold_right length]. rewrite insert_by_name_length, IH. reflexivity.
Qed.

Lemma one_user_of_id (k : Z) (l : list user_row) :
  NoDup (map user_id l) ->
  existsb (fun u => (user_id u =? k)%Z) l = true ->
  length (filter (fun u => (user_id u =? k)%Z) l) = 1.
Proof.
  induction l as [|x l IH]; [discriminate|].
  cbn [map existsb filter]. intros Hnd Hex.
  apply NoDup_cons_iff in Hnd as [Hx Hl].
  destruct (user_id x =? k)%Z eqn:E.
  - cbn [length]. f_equal.
    destruct (filter (fun u => (user_id u =? k)%Z) l) as [|y t] eqn:Ef;
      [reflexivity|].
    exfalso. apply Hx.
    assert (In y (filter (fun u => (user_id u =? k)%Z) l)) as Hy
      by (rewrite Ef; left; reflexivity).
    apply filter_In in Hy as [Hy Hyk]. apply in_map_iff. exists y.
    split; [|exact Hy]. apply Z.eqb_eq in E, Hyk. congruence.
  - exact (IH Hl Hex).
Qed.

Lemma select_day_results_length (d : Z) (db : database) :
  well_formed db -> known_users db ->
  Z.of_nat (length (select_day_results d db)) = count_results_of_day d db.
Proof.
  intros Hw Hk. unfold select_day_results, count_results_of_day.
  rewrite sort_by_name_length. f_equal. unfold known_users in Hk.
  induction (results db) as [|r l IH]; [reflexivity|].
  apply Forall_cons_iff in Hk as [Hr Hk].
  cbn [flat_map filter]. rewrite length_app, (IH Hk).
  destruct (on_day d r); [|reflexivity].
  rewrite length_map,
    (@one_user_of_id (r_user_id r) (users db) (wf_user_ids Hw) Hr).
  reflexivity.
Qed.

(** X24: on a file that satisfies the schema and in which every result is
    of a known user, the number of participants [get_day_details] reports
    for a day is the number of results the file holds for the day, the
    count [add_streak_data] returns as [results_added]; and the day of the
    details is the day asked for. *)
Theorem participants_are_results_of_day (F : faults) (d : Z) (db : database)
    (details : day_details) (s' : session) :
  well_formed db -> known_users db ->
  get_day_details F d (start db) = (Ok (Some details), s') ->
  dd_day details = d
  /\ Z.of_nat (participants details) = count_results_of_day d db
  /\ participants details = length (dd_results details).
Proof.
  intros Hw Hk.
  unfold get_day_details, bind, ret, raise, execute_read_int, execute_read,
    close, rollback, step, start, view.
  cbn [executed pending disk].
  destruct (F 0); [discriminate|].
  destruct (fits_int64 d); [|discriminate].
  destruct (find (has_day d) (streaks db)) as [row|] eqn:E; [|discriminate].
  cbn [executed pending disk].
  destruct (F 1); [discriminate|].
  intros H. injection H as <- _. cbn [dd_day participants dd_results].
  apply find_some in E as [_ E]. apply Z.eqb_eq in E.
  split; [exact E|]. split; [|reflexivity].
  exact (select_day_results_length d Hw Hk).
Qed.

End Participants.

Section ParticipantsExample.
Import PyStr Sqlite Tracker Manager Notions.

Lemma alice_days_1_2_5_known_users : known_users alice_days_1_2_5.
Proof. unfold known_users. vm_compute. repeat constructor. Qed.

Lemma participants_are_results_of_day_witness :
  exists details s',
    get_day_details no_faults 5 (start alice_days_1_2_5)
    = (Ok (Some details), s')
    /\ dd_day details = 5%Z
    /\ Z.of_nat (participants details) = 1%Z.
Proof.
  destruct (get_day_details no_faults 5 (start alice_days_1_2_5))
    as [[[details|]|e] s'] eqn:E; try (vm_compute in E; discriminate).
  exists details, s'. split; [reflexivity|].
  destruct (@participants_are_results_of_day no_faults 5 alice_days_1_2_5
              details s' alice_days_1_2_5_well_formed
              alice_days_1_2_5_known_users E) as (H1 & H2 & _).
  split; [exact H1 | exact H2].
Defined.

End ParticipantsExample.
(** ** The overview of [visualize_database] against the diagnosis *)

Section Overview.
Import PyStr Sqlite Manager Stats Reports Notions.

Lemma zrange_increasing (lo : Z) (n : nat) : increasing (zrange lo n).
Proof.
  unfold zrange. generalize 0. induction n as [|n IH]; intros a;
    [exact I|].
  cbn [seq map increasing]. split; [|apply IH].
  intros y Hy. apply in_map_iff in Hy as (i & <- & Hi).
  apply in_seq in Hi. lia.
Qed.

Lemma zrange_length (lo : Z) (n : nat) : length (zrange lo n) = n.
Proof. unfold zrange. rewrite length_map. apply length_seq. Qed.

(** The days of a range that are not among distinct days of the range:
    their number is what is left of the range. *)
Lemma missing_count (d : Z) (rest : list Z) :
  increasing (d :: rest) ->
  Z.of_nat
    (length (filter (fun x => negb (mem x (d :: rest)))
               (zrange d (Z.to_nat (last rest d + 1 - d)))))
  = (last rest d - d + 1 - Z.of_nat (length (d :: rest)))%Z.
Proof.
  intros Hi. pose proof (increasing_last Hi) as Hl.
  set (range := zrange d (Z.to_nat (last rest d + 1 - d))).
  pose proof (filter_partition_length (fun x => mem x (d :: rest)) range)
    as Hp.
  assert (length (filter (fun x => mem x (d :: rest)) range)
          = length (d :: rest)) as Hin.
  { apply Nat.le_antisymm.
    - apply NoDup_incl_length.
      + apply NoDup_filter, increasing_NoDup, zrange_increasing.
      + intros x Hx. apply filter_In in Hx as [_ Hx]. apply mem_in. exact Hx.
    - apply NoDup_incl_length; [exact (increasing_NoDup _ Hi)|].
      intros x Hx. apply filter_In. split; [|apply mem_in; exact Hx].
      apply zrange_in. destruct Hx as [<-|Hx]; [lia|].
      pose proof (increasing_last_upper _ Hi Hx).
      destruct Hi as [Hd _]. specialize (Hd _ Hx). lia. }
  unfold range in Hp at 3. rewrite zrange_length in Hp. lia.
Qed.

Lemma insert_day_length (d : Z) (l : list Z) :
  length (insert_day d l) = S (length l).
Proof.
  induction l as [|x l IH]; cbn [insert_day]; [reflexivity|].
  destruct (d <=? x)%Z; cbn [length]; [reflexivity|].
  rewrite IH. reflexivity.
Qed.

Lemma sort_days_length (l : list Z) : length (sort_days l) = length l.
Proof.
  unfold sort_days. induction l as [|x l IH]; [reflexivity|].
  cbn [fold_right length]. rewrite insert_day_length, IH. reflexivity.
Qed.

Lemma split_nonempty (sep : char) (s : str) : split sep s <> [].
Proof.
  induction s as [|c s IH]; cbn [split]; [discriminate|].
  destruct (char_eqb c sep); [discriminate|].
  destruct (split sep s); discriminate.
Qed.

Lemma split_app_pieces (sep : char) (f rest : str) :
  split sep (f ++ sep :: rest) = split sep f ++ split sep rest.
Proof.
  induction f as [|c f IH].
  - cbn [app split]. unfold char_eqb. rewrite N.eqb_refl. reflexivity.
  - cbn [app split]. destruct (char_eqb c sep); rewrite IH.
    + reflexivity.
    + pose proof (split_nonempty sep f) as Hne.
      destruct (split sep f) as [|g gs]; [contradiction|]. reflexivity.
Qed.

Lemma split_join_pieces (sep : char) (l : list str) :
  l <> [] -> split sep (join sep l) = flat_map (split sep) l.
Proof.
  induction l as [|f l IH]; intros Hne; [contradiction|].
  destruct l as [|g l]; cbn [join flat_map].
  - rewrite app_nil_r. reflexivity.
  - rewrite split_app_pieces. f_equal. apply IH. discriminate.
Qed.

Lemma split_colon_none (s : str) : split_colon s = None <-> ~ In 58%N s.
Proof.
  induction s as [|c s IH]; cbn [split_colon In]; [tauto|].
  destruct (char_eqb c 58%N) eqn:E.
  - apply char_eqb_eq in E. split; [discriminate|]. intros H.
    exfalso. apply H. left. exact E.
  - assert (c <> 58%N) as Hc.
    { intros ->. unfold char_eqb in E. rewrite N.eqb_refl in E.
      discriminate. }
    destruct (split_colon s) as [[a b]|].
    + split; [discriminate|]. intros H. exfalso.
      assert (~ In 58%N s) as Hs by tauto.
      apply IH in Hs. discriminate.
    + split; [|reflexivity]. intros _ [H|H]; [exact (Hc H)|].
      apply IH in H; [exact H | reflexivity].
Qed.

Lemma user_score_list_raise (pieces : list str) (e : exn) :
  user_score_list pieces = Raise e ->
  e = ValueError /\ exists x, In x pieces /\ ~ In 58%N x.
Proof.
  induction pieces as [|x l IH]; cbn [user_score_list]; [discriminate|].
  destruct (split_colon x) as [us|] eqn:E.
  - destruct (user_score_list l) as [rest|e']; [discriminate|].
    intros H. injection H as ->.
    destruct (IH eq_refl) as (He & y & Hy & Hc).
    split; [exact He|]. exists y. split; [right; exact Hy | exact Hc].
  - intros H. injection H as <-. split; [reflexivity|].
    exists x. split; [left; reflexivity | apply split_colon_none, E].
Qed.

Lemma user_score_list_colonless (pieces : list str) (x : str) :
  In x pieces -> ~ In 58%N x -> user_score_list pieces = Raise ValueError.
Proof.
  induction pieces as [|y l IH]; intros Hin Hc; [destruct Hin|].
  cbn [user_score_list].
  destruct (split_colon y) as [us|] eqn:E; [|reflexivity].
  destruct Hin as [->|Hin].
  - apply split_colon_none in Hc. congruence.
  - rewrite (IH Hin Hc). reflexivity.
Qed.

Lemma user_score_texts_in (db : database) (d : Z) (t : str) :
  In t (user_score_texts (joined_rows db d))
  <-> exists r u,
        In r (results db) /\ In u (users db)
        /\ r_streak_day r = d /\ r_user_id r = user_id u
        /\ t = user_name u ++ 58%N :: r_score r.
Proof.
  unfold user_score_texts, joined_rows, joined_users. split.
  - intros H. apply in_flat_map in H as ([r ou] & Hrow & Ht).
    cbn [fst snd] in Ht. destruct ou as [u|]; [|destruct Ht].
    destruct Ht as [<-|[]].
    apply in_flat_map in Hrow as (r' & Hr' & Hrow).
    apply filter_In in Hr' as [Hr' Hd]. apply Z.eqb_eq in Hd.
    apply in_map_iff in Hrow as (ou & Heq & Hou).
    injection Heq as -> ->.
    assert (In (Some u)
              (map Some (filter (fun u => (user_id u =? r_user_id r)%Z)
                           (users db)))) as Hu.
    { destruct (filter (fun u => (user_id u =? r_user_id r)%Z) (users db));
        [|exact Hou].
      destruct Hou as [Hou|[]]. discriminate. }
    apply in_map_iff in Hu as (u' & Heq & Hu). injection Heq as ->.
    apply filter_In in Hu as [Hu Hid]. apply Z.eqb_eq in Hid.
    exists r, u. repeat split; auto.
  - intros (r & u & Hr & Hu & Hd & Hid & ->).
    apply in_flat_map. exists (r, Some u). split; [|left; reflexivity].
    apply in_flat_map. exists r. split.
    + apply filter_In. split; [exact Hr | apply Z.eqb_eq, Hd].
    + apply in_map.
      assert (In u (filter (fun u => (user_id u =? r_user_id r)%Z)
                      (users db))) as Hf
        by (apply filter_In; split; [exact Hu | apply Z.eqb_eq; auto]).
      destruct (filter (fun u => (user_id u =? r_user_id r)%Z) (users db));
        [destruct Hf|].
      apply in_map. exact Hf.
Qed.

Lemma group_concat_pieces (texts : list str) :
  (forall t, In t texts -> t <> []) ->
  match group_concat texts with
  | Some (c :: t) => user_score_list (split 44%N (c :: t))
  | _ => Ok []
  end = Raise ValueError
  <-> exists t piece,
        In t texts /\ In piece (split 44%N t) /\ ~ In 58%N piece.
Proof.
  intros Hne. unfold group_concat. destruct texts as [|x l].
  - split; [discriminate|]. intros (t & piece & [] & _).
  - assert (split 44%N (join 44%N (x :: l)) = flat_map (split 44%N) (x :: l))
      as Hs by (apply split_join_pieces; discriminate).
    destruct (join 44%N (x :: l)) as [|c t] eqn:Ej.
    + exfalso. apply (Hne x); [left; reflexivity|].
      destruct l; cbn [join] in Ej; [exact Ej|].
      apply app_eq_nil in Ej as [Ej _]. exact Ej.
    + rewrite Hs. split.
      * intros H. apply user_score_list_raise in H as (_ & p & Hp & Hc).
        apply in_flat_map in Hp as (t' & Ht' & Hp).
        exists t', p. auto.
      * intros (t' & p & Ht' & Hp & Hc).
        apply user_score_list_colonless with (x := p); [|exact Hc].
        apply in_flat_map. exists t'. auto.
Qed.

Lemma day_info_of_raises (db : database) (s : streak_row) :
  day_info_of db s = Raise ValueError
  <-> exists r u piece,
        In r (results db) /\ In u (users db)
        /\ r_streak_day r = streak_day s /\ r_user_id r = user_id u
        /\ In piece (split 44%N (user_name u ++ 58%N :: r_score r))
        /\ ~ In 58%N piece.
Proof.
  pose proof (@group_concat_pieces
                (user_score_texts (joined_rows db (streak_day s)))) as G.
  assert (forall t,
             In t (user_score_texts (joined_rows db (streak_day s))) ->
             t <> []) as Hne.
  { intros t Ht. apply user_score_texts_in in Ht
      as (r & u & _ & _ & _ & _ & ->).
    intros E. apply app_eq_nil in E as [_ E]. discriminate. }
  specialize (G Hne). unfold day_info_of.
  split.
  - intros H.
    destruct G as [G _].
    destruct (match group_concat
                      (user_score_texts (joined_rows db (streak_day s))) with
              | Some (c :: t) => user_score_list (split 44%N (c :: t))
              | _ => Ok []
              end) as [l|e] eqn:E; [discriminate|].
    injection H as ->. destruct (G eq_refl) as (t & piece & Ht & Hp & Hc).
    apply user_score_texts_in in Ht as (r & u & Hr & Hu & Hd & Hid & ->).
    exists r, u, piece. auto 10.
  - intros (r & u & piece & Hr & Hu & Hd & Hid & Hp & Hc).
    destruct G as [_ G]. rewrite G; [reflexivity|].
    exists (user_name u ++ 58%N :: r_score r), piece.
    split; [|auto]. apply user_score_texts_in. exists r, u. auto.
Qed.

Lemma day_info_of_exception (db : database) (s : streak_row) (e : exn) :
  day_info_of db s = Raise e -> e = ValueError.
Proof.
  unfold day_info_of.
  destruct (group_concat _) as [[|c t]|]; try discriminate.
  destruct (user_score_list _) as [l|e'] eqn:E; [discriminate|].
  intros H. injection H as ->.
  apply user_score_list_raise in E as [E _]. exact E.
Qed.

Lemma day_data_of_raise (db : database) (l : list streak_row) (e : exn) :
  day_data_of db l = Raise e ->
  e = ValueError /\ exists s, In s l /\ day_info_of db s = Raise ValueError.
Proof.
  induction l as [|s l IH]; cbn [day_data_of]; [discriminate|].
  destruct (day_info_of db s) as [i|e'] eqn:E.
  - destruct (day_data_of db l) as [rest|e'']; [discriminate|].
    intros H. injection H as ->. destruct (IH eq_refl) as (He & s' & Hs & Hr).
    split; [exact He|]. exists s'. split; [right; exact Hs | exact Hr].
  - intros H. injection H as <-.
    pose proof (day_info_of_exception _ _ E) as ->.
    split; [reflexivity|]. exists s. split; [left; reflexivity | exact E].
Qed.

Lemma day_data_of_raises (db : database) (l : list streak_row)
    (s : streak_row) :
  In s l -> day_info_of db s = Raise ValueError ->
  day_data_of db l = Raise ValueError.
Proof.
  induction l as [|x l IH]; intros Hin Hr; [destruct Hin|].
  cbn [day_data_of]. destruct (day_info_of db x) as [i|e] eqn:E.
  - destruct Hin as [->|Hin]; [congruence|].
    rewrite (IH Hin Hr). reflexivity.
  - rewrite (day_info_of_exception _ _ E). reflexivity.
Qed.

Lemma insert_streak_in (s x : streak_row) (l : list streak_row) :
  In x (insert_streak s l) <-> x = s \/ In x l.
Proof.
  induction l as [|y l IH]; cbn [insert_streak In].
  - intuition congruence.
  - destruct (streak_day s <=? streak_day y)%Z; cbn [In];
      [intuition congruence|].
    rewrite IH. intuition congruence.
Qed.

Lemma streaks_by_day_in (db : database) (s : streak_row) :
  In s (streaks_by_day db) <-> In s (streaks db).
Proof.
  unfold streaks_by_day. induction (streaks db) as [|x l IH];
    cbn [fold_right In]; [tauto|].
  rewrite insert_streak_in, IH. intuition congruence.
Qed.

Lemma get_database_overview_raises (db : database) :
  (get_database_overview db = Raise ValueError <-> colonless_piece db)
  /\ (forall e, get_database_overview db = Raise e -> e = ValueError).
Proof.
  unfold get_database_overview, colonless_piece. split; [split|].
  - destruct (day_data_of db (streaks_by_day db)) as [data|e] eqn:E;
      [discriminate|].
    intros _. apply day_data_of_raise in E as (_ & s & Hs & Hr).
    apply streaks_by_day_in in Hs.
    apply day_info_of_raises in Hr
      as (r & u & piece & Hr & Hu & Hd & Hid & Hp & Hc).
    exists s, r, u, piece. auto 10.
  - intros (s & r & u & piece & Hs & Hr & Hu & Hd & Hid & Hp & Hc).
    rewrite (@day_data_of_raises db (streaks_by_day db) s);
      [reflexivity | apply streaks_by_day_in, Hs |].
    apply day_info_of_raises. exists r, u, piece. auto 10.
  - intros e. destruct (day_data_of db (streaks_by_day db)) as [data|e'] eqn:E;
      [discriminate|].
    intros H. injection H as <-.
    apply day_data_of_raise in E as [E _]. exact E.
Qed.

Lemma tokens_have_no_colonless_piece (db : database) :
  no_comma_names db -> tokens_only db -> ~ colonless_piece db.
Proof.
  intros Hn Ht (s & r & u & piece & Hs & Hr & Hu & Hd & Hid & Hp & Hc).
  unfold tokens_only in Ht. rewrite Forall_forall in Ht.
  destruct (token_no_comma _ (Ht _ Hr)) as [Hsc _].
  rewrite split_no_sep in Hp.
  - destruct Hp as [<-|[]]. apply Hc, in_or_app. right. left. reflexivity.
  - intros Hin. apply in_app_or in Hin as [Hin|[Hin|Hin]].
    + exact (Hn _ Hu Hin).
    + discriminate.
    + exact (Hsc Hin).
Qed.

(** X25: the overview of [visualize_database] and the diagnosis of
    [diagnose_database] on a file that satisfies the schema and has a streak
    day. [get_database_overview] raises [ValueError], which
    [visualize_database] prints in place of the figures, exactly when some
    stored day has a result whose text [username:score], cut at the commas,
    has a piece without colon; it raises nothing else, and it does not raise
    when no user name holds a comma and every score is a token. When it
    does not raise, the figures are printed and agree with the diagnosis:
    the same smallest and largest day, the total is the number of streak
    rows, and the number of missing days printed, the days expected in the
    range less the days stored, is the number of days the diagnosis lists as
    missing. *)
Theorem overview_agrees_with_diagnosis (db : database) (dg : diagnosis) :
  well_formed db -> diagnose db = Some dg ->
  (day_overview_of db = Raise ValueError <-> colonless_piece db)
  /\ (forall e, day_overview_of db = Raise e -> e = ValueError)
  /\ (no_comma_names db -> tokens_only db -> ~ colonless_piece db)
  /\ (~ colonless_piece db ->
      exists ov,
        day_overview_of db = Ok (Some ov)
        /\ ov_min_day ov = min_day dg
        /\ ov_max_day ov = max_day dg
        /\ ov_total_days ov = Z.of_nat (length (streaks db))
        /\ ov_expected_days ov = (max_day dg - min_day dg + 1)%Z
        /\ ov_missing_days ov = Z.of_nat (length (missing_days dg))).
Proof.
  intros Hw H. destruct (diagnose_inv Hw H) as (d & rest & Hs & Hi & ->).
  destruct (get_database_overview_raises db) as [Hiff Hexn].
  assert (forall e, day_overview_of db = Raise e ->
                    get_database_overview db = Raise e) as Hup.
  { intros e. unfold day_overview_of.
    destruct (get_database_overview db) as [o|e'];
      [|intros X; injection X as ->; reflexivity].
    destruct (dbo_streak_days o); discriminate. }
  split; [split|split; [|split]].
  - intros He. apply Hiff, Hup, He.
  - intros Hc. apply Hiff in Hc. unfold day_overview_of. rewrite Hc.
    reflexivity.
  - intros e He. apply Hexn, Hup, He.
  - apply tokens_have_no_colonless_piece.
  - intros Hc. unfold day_overview_of.
    destruct (get_database_overview db) as [o|e] eqn:E.
    + assert (dbo_streak_days o = d :: rest) as Hd.
      { unfold get_database_overview in E.
        destruct (day_data_of db (streaks_by_day db)); [|discriminate].
        injection E as <-. exact Hs. }
      rewrite Hd.
      rewrite (list_min_increasing Hi), (list_max_increasing Hi).
      eexists. split; [reflexivity|].
      cbn [ov_min_day ov_max_day ov_total_days ov_missing_days
           ov_expected_days min_day max_day missing_days].
      split; [reflexivity|]. split; [reflexivity|]. split; [|split].
      * rewrite <- Hs, sort_days_length, length_map. reflexivity.
      * reflexivity.
      * rewrite (missing_count Hi). reflexivity.
    + exfalso. apply Hc, Hiff. rewrite (Hexn e eq_refl). reflexivity.
Qed.


End Overview.

Section OverviewExamples.
Import PyStr Parser Sqlite Tracker Manager Stats Reports Notions.
Local Open Scope string_scope.

(** A user name the parser accepts may hold a comma; once it is stored the
    overview is no longer printed. *)
Lemma comma_name_overview_raises :
  reachable (snd (add_streak_data no_faults 1%Z comma_name_message
                    empty_database))
  /\ day_overview_of
       (snd (add_streak_data no_faults 1%Z comma_name_message
               empty_database))
     = Raise ValueError.
Proof.
  split; [apply reach_add, reach_init | vm_compute; reflexivity].
Qed.

Lemma overview_agrees_with_diagnosis_witness :
  exists dg ov,
    diagnose alice_days_1_2_5 = Some dg
    /\ day_overview_of alice_days_1_2_5 = Ok (Some ov)
    /\ ov_missing_days ov = Z.of_nat (length (missing_days dg))
    /\ ov_missing_days ov = 2%Z.
Proof.
  destruct (diagnose alice_days_1_2_5) as [dg|] eqn:E;
    [|vm_compute in E; discriminate].
  destruct (@overview_agrees_with_diagnosis alice_days_1_2_5 dg
              alice_days_1_2_5_well_formed E) as (_ & _ & Hno & Hov).
  destruct Hov as (ov & H1 & _ & _ & _ & _ & H2).
  - apply Hno.
    + intros u [<-|[]]. vm_compute. intuition discriminate.
    + unfold tokens_only. vm_compute. repeat constructor.
  - exists dg, ov. split; [reflexivity|]. split; [exact H1|].
    split; [exact H2|]. vm_compute in H1. injection H1 as <-. reflexivity.
Defined.
End OverviewExamples.


(** ** From ingestion to the statistics *)

Section IngestedStatistics.
Import PyStr Parser Sqlite Tracker Stats Reports Notions.

(** X26: the two counts [get_all_time_stats] keeps for a user agree on a
    file that satisfies the schema: the days participated, counted as
    distinct days, are as many as the games played, counted as results; and
    when every result has the streak row of its day, neither exceeds the
    number of streak days. *)
Theorem days_participated_are_games (db : database) (u : user_row) :
  well_formed db -> no_orphan_results db ->
  days_participated db u = games_played db u
  /\ (games_played db u <= total_days db)%Z.
Proof.
  intros Hw Hno.
  assert (NoDup (map r_streak_day
                   (filter (fun r => (r_user_id r =? user_id u)%Z)
                      (results db)))) as Hnd.
  { pose proof (@days_of_user_distinct (fun _ => true) (user_id u)
                  (results db) (wf_result_pairs Hw)) as H.
    cbv beta in H.
    replace (filter (fun r => (r_user_id r =? user_id u)%Z && true)
               (results db))
      with (filter (fun r => (r_user_id r =? user_id u)%Z) (results db))
      in H; [exact H|].
    apply filter_ext. intros r. rewrite andb_true_r. reflexivity. }
  unfold days_participated, games_played, total_days.
  rewrite (nodup_fixed_point Z.eq_dec Hnd), length_map.
  split; [reflexivity|]. apply inj_le.
  rewrite <- (length_map r_streak_day), <- (length_map streak_day (streaks db)).
  apply NoDup_incl_length; [exact Hnd|].
  intros d Hd. apply in_map_iff in Hd as (r & <- & Hr).
  apply filter_In in Hr as [Hr _].
  unfold no_orphan_results in Hno. rewrite Forall_forall in Hno.
  exact (has_day_in _ _ (Hno _ Hr)).
Qed.

Variable now : timestamp.

(** X27: every user an ingested message names has an entry in the
    statistics. After [add_streak_data] on a file that holds score tokens
    only, the user has a row in the users table under the name the parser
    gave and at least one game played, and [get_all_time_stats] computes an
    all-time average and a participation rate for the user, without
    [ValueError] and without division by zero. *)
Theorem ingested_users_have_statistics (msg : str) (p : parsed)
    (db : database) (r : parsed_result) :
  tokens_only db ->
  parse_message msg = Ok p -> fits_int64 (day p) = true ->
  In r (Parser.results p) ->
  exists sm db' ur q q',
    add_streak_data no_faults now msg db = (Ok sm, db')
    /\ In ur (users db') /\ user_name ur = username r
    /\ (0 < games_played db' ur)%Z
    /\ all_time_average db' ur = Some (Ok q)
    /\ participation_rate db' ur = Some (Quotient q').
Proof.
  intros Htok Hp Hfit Hr.
  pose proof (@add_streak_data_no_faults now msg p db Hp Hfit) as Hrun.
  pose proof (@add_streak_data_tokens_only now no_faults msg db _ _ Htok Hrun)
    as Htok'.
  destruct (@apply_results_played now (day p) (Parser.results p)
              (insert_or_ignore_streak now (day p) db) r Hr)
    as (uid & Hsel & Hex).
  fold (ingested now p db) in Hsel, Hex.
  pose proof (@ingested_has_day now p db) as Hday.
  set (db' := ingested now p db) in *.
  unfold select_user_id in Hsel.
  destruct (find (has_name (username r)) (users db')) as [ur|] eqn:Eu;
    [|discriminate].
  injection Hsel as Hid. apply find_some in Eu as [Hin Hname].
  apply str_eqb_eq in Hname.
  apply existsb_exists in Hex as (row & Hrow & Hpair).
  unfold for_pair in Hpair. apply andb_true_iff in Hpair as [_ Huid].
  assert (In row (filter (fun x => (r_user_id x =? user_id ur)%Z)
                    (results db'))) as Hf
    by (apply filter_In; split; [exact Hrow | rewrite Hid; exact Huid]).
  assert (0 < games_played db' ur)%Z as Hg.
  { unfold games_played.
    destruct (filter (fun x => (r_user_id x =? user_id ur)%Z) (results db'));
      [destruct Hf|].
    cbn [length]. lia. }
  assert (exists q, all_time_average db' ur = Some (Ok q)) as [q Hq].
  { unfold all_time_average.
    assert (Forall (fun sc => is_score_token sc = true)
              (map r_score
                 (filter (fun x => (r_user_id x =? user_id ur)%Z)
                    (results db')))) as Hsc.
    { apply Forall_forall. intros sc Hsc.
      apply in_map_iff in Hsc as (x & <- & Hx).
      apply filter_In in Hx as [Hx _].
      unfold tokens_only in Htok'. rewrite Forall_forall in Htok'.
      exact (Htok' _ Hx). }
    destruct (filter (fun x => (r_user_id x =? user_id ur)%Z) (results db'))
      as [|x rows]; [destruct Hf|].
    remember (map r_score (x :: rows)) as scores eqn:Es.
    assert (scores <> []) as Hne by (rewrite Es; discriminate).
    unfold average_score.
    rewrite (scores_of_group_concat Hne Hsc), (numeric_scores_tokens Hsc).
    destruct (map numeric scores); eexists; reflexivity. }
  assert (exists q', participation_rate db' ur = Some (Quotient q'))
    as [q' Hq'].
  { unfold participation_rate.
    assert (0 < days_participated db' ur)%Z as Hd.
    { unfold days_participated.
      assert (In (r_streak_day row)
                (nodup Z.eq_dec
                   (map r_streak_day
                      (filter (fun x => (r_user_id x =? user_id ur)%Z)
                         (results db'))))) as Hn
        by (apply nodup_In, in_map; exact Hf).
      destruct (nodup Z.eq_dec _); [destruct Hn|]. cbn [length]. lia. }
    apply Z.ltb_lt in Hd. rewrite Hd. unfold divide, total_days.
    destruct (streaks db') as [|s0 l]; [discriminate|].
    cbn [length]. eexists. reflexivity. }
  exists {| sum_day := day p;
            results_added := count_results_of_day (day p) db';
            users_in_day := map username (Parser.results p) |},
    db', ur, q, q'.
  split; [exact Hrun|]. auto.
Qed.

End IngestedStatistics.

Section IngestedStatisticsExamples.
Import PyStr Parser Sqlite Tracker Stats Reports Notions.
Local Open Scope string_scope.

Lemma days_participated_are_games_witness :
  days_participated alice_days_1_2_5 alice_row = 3%Z
  /\ (3 <= total_days alice_days_1_2_5)%Z.
Proof.
  exact (@days_participated_are_games alice_days_1_2_5 alice_row
           alice_days_1_2_5_well_formed alice_days_1_2_5_no_orphan_results).
Defined.

Lemma ingested_users_have_statistics_witness :
  exists sm db' ur q q',
    add_streak_data no_faults 1%Z (lit "5 day streak X/6: @Alice")
      day5_with_alice = (Ok sm, db')
    /\ In ur (users db') /\ user_name ur = lit "Alice"
    /\ (0 < games_played db' ur)%Z
    /\ all_time_average db' ur = Some (Ok q)
    /\ participation_rate db' ur = Some (Quotient q').
Proof.
  apply (@ingested_users_have_statistics 1%Z
           (lit "5 day streak X/6: @Alice")
           {| day := 5; Parser.results := [alice_fails] |} day5_with_alice
           alice_fails).
  - unfold tokens_only. vm_compute. repeat constructor.
  - vm_compute. reflexivity.
  - reflexivity.
  - left. reflexivity.
Defined.

End IngestedStatisticsExamples.
